(** * PubSubHubbub hub (hub/main.py): a shallow embedding and its properties.

    The development follows the layout of [hub/main.py]:
    - Python values: byte strings ([str]) are Rocq [string]s, text
      ([unicode], [db.Text]) is a list of code points, times are seconds
      on [Z] and counters are [nat];
    - [hashlib.sha1] and [hmac] are written out (RFC 3174, RFC 2104) so
      that key names and signatures evaluate;
    - the Datastore is a record of finite maps from key names to entities,
      the task queue a list of tasks; transactions are state passing. *)

From Stdlib Require Import ZArith NArith List String Ascii Bool Lia Sorted Permutation.
From stdpp Require Import gmap strings list pretty.

Local Open Scope Z_scope.
Local Open Scope string_scope.
Local Open Scope list_scope.

(** ** Python strings *)

(** A [unicode] object: its code points. *)
Definition unicode : Type := list N.

(** A [str] literal read as text (ASCII literals such as ['subscribe']). *)
Definition u (s : string) : unicode :=
  List.map N_of_ascii (list_ascii_of_string s).

(** A value that is either a [str] or a [unicode] at run time. *)
Inductive pystr : Type :=
| Str (s : string)
| Unicode (t : unicode).

Definition bytes_of_string (s : string) : list N :=
  List.map N_of_ascii (list_ascii_of_string s).

Definition string_of_bytes (l : list N) : string :=
  string_of_list_ascii (List.map ascii_of_N l).

(** [unicode.encode('utf-8')] on one code point. *)
Definition utf8_char (c : N) : list N :=
  if (c <? 0x80)%N then [c]
  else if (c <? 0x800)%N then
    [N.lor 0xC0 (N.shiftr c 6); N.lor 0x80 (N.land c 0x3F)]
  else if (c <? 0x10000)%N then
    [N.lor 0xE0 (N.shiftr c 12);
     N.lor 0x80 (N.land (N.shiftr c 6) 0x3F);
     N.lor 0x80 (N.land c 0x3F)]
  else
    [N.lor 0xF0 (N.land (N.shiftr c 18) 0x07);
     N.lor 0x80 (N.land (N.shiftr c 12) 0x3F);
     N.lor 0x80 (N.land (N.shiftr c 6) 0x3F);
     N.lor 0x80 (N.land c 0x3F)].

Definition utf8_encode (t : unicode) : string :=
  string_of_bytes (List.flat_map utf8_char t).

(** [utf8encoded(data)]: [None] stays [None], text is encoded, a byte
    string is returned as it is. [utf8] is its action on a value that is
    not [None]. *)
Definition utf8 (data : pystr) : string :=
  match data with
  | Unicode t => utf8_encode t
  | Str s => s
  end.

Definition utf8encoded (data : option pystr) : option string :=
  match data with
  | None => None
  | Some d => Some (utf8 d)
  end.

(** ** hashlib.sha1 and hmac *)

Module SHA1.

Definition mask32 : N := 0xFFFFFFFF.

Definition add32 (a b : N) : N := N.land (a + b) mask32.

Definition rotl (n x : N) : N :=
  N.land (N.lor (N.shiftl x n) (N.shiftr x (32 - n))) mask32.

Definition not32 (x : N) : N := N.lxor x mask32.

(** Message padding: a one bit, zeros up to 56 mod 64, the bit length
    on eight bytes. *)
Definition be_bytes (k : nat) (x : N) : list N :=
  List.map (fun i => N.land (N.shiftr x (8 * N.of_nat i)) 0xFF) (List.rev (List.seq 0 k)).

Definition pad (msg : list N) : list N :=
  let len := N.of_nat (List.length msg) in
  let zeros := N.to_nat ((119 - (len mod 64)) mod 64) in
  msg ++ [0x80%N] ++ List.repeat 0%N zeros ++ be_bytes 8 (8 * len).

Fixpoint be_words (fuel : nat) (bs : list N) : list N :=
  match fuel, bs with
  | S fuel', b0 :: b1 :: b2 :: b3 :: rest =>
      N.lor (N.shiftl b0 24) (N.lor (N.shiftl b1 16) (N.lor (N.shiftl b2 8) b3))
      :: be_words fuel' rest
  | _, _ => []
  end.

(** The message schedule, newest word first while it is built. *)
Fixpoint expand (n : nat) (w : list N) : list N :=
  match n with
  | O => w
  | S n' =>
      let x := rotl 1 (N.lxor (N.lxor (List.nth 2 w 0%N) (List.nth 7 w 0%N))
                              (N.lxor (List.nth 13 w 0%N) (List.nth 15 w 0%N))) in
      expand n' (x :: w)
  end.

Definition schedule (block : list N) : list N :=
  List.rev (expand 64 (List.rev (be_words 16 block))).

Record state : Type := mk { h0 : N; h1 : N; h2 : N; h3 : N; h4 : N }.

Definition init : state :=
  mk 0x67452301 0xEFCDAB89 0x98BADCFE 0x10325476 0xC3D2E1F0.

Definition round (s : state) (tw : nat * N) : state :=
  let '(t, w) := tw in
  let '(mk a b c d e) := s in
  let '(f, k) :=
    if (t <? 20)%nat then (N.lor (N.land b c) (N.land (not32 b) d), 0x5A827999%N)
    else if (t <? 40)%nat then (N.lxor b (N.lxor c d), 0x6ED9EBA1%N)
    else if (t <? 60)%nat then
      (N.lor (N.lor (N.land b c) (N.land b d)) (N.land c d), 0x8F1BBCDC%N)
    else (N.lxor b (N.lxor c d), 0xCA62C1D6%N) in
  let temp := add32 (add32 (add32 (add32 (rotl 5 a) f) e) k) w in
  mk temp a (rotl 30 b) c d.

Definition compress (s : state) (block : list N) : state :=
  let r := List.fold_left round (List.combine (List.seq 0 80) (schedule block)) s in
  mk (add32 (h0 s) (h0 r)) (add32 (h1 s) (h1 r)) (add32 (h2 s) (h2 r))
     (add32 (h3 s) (h3 r)) (add32 (h4 s) (h4 r)).

Fixpoint blocks (fuel : nat) (bs : list N) : list (list N) :=
  match fuel, bs with
  | S fuel', _ :: _ => List.firstn 64 bs :: blocks fuel' (List.skipn 64 bs)
  | _, _ => []
  end.

(** [hashlib.sha1(msg).digest()] *)
Definition digest (msg : list N) : list N :=
  let p := pad msg in
  let s := List.fold_left compress (blocks (List.length p) p) init in
  List.flat_map (be_bytes 4) [h0 s; h1 s; h2 s; h3 s; h4 s].

Definition hex_digit (n : N) : ascii :=
  if (n <? 10)%N then ascii_of_N (48 + n) else ascii_of_N (87 + n).

Definition hex (bs : list N) : string :=
  string_of_list_ascii
    (List.flat_map (fun b => [hex_digit (N.shiftr b 4); hex_digit (N.land b 0xF)]) bs).

(** [hashlib.sha1(msg).hexdigest()] *)
Definition hexdigest (msg : string) : string := hex (digest (bytes_of_string msg)).

(** [hmac.new(key, msg, hashlib.sha1).hexdigest()] (RFC 2104, block size 64). *)
Definition hmac_hexdigest (key msg : string) : string :=
  let k := bytes_of_string key in
  let k := if (64 <? List.length k)%nat then digest k else k in
  let k := k ++ List.repeat 0%N (64 - List.length k) in
  let ipad := List.map (N.lxor 0x36) k in
  let opad := List.map (N.lxor 0x5C) k in
  hex (digest (opad ++ digest (ipad ++ bytes_of_string msg))).

End SHA1.

(** ** Configuration (hub/main.py, "Config parameters") *)

Definition EVENT_SUBSCRIBER_CHUNK_SIZE : nat := 50.
Definition MAX_SUBSCRIPTION_CONFIRM_FAILURES : Z := 4.
Definition SUBSCRIPTION_RETRY_PERIOD : Z := 30.
Definition MAX_FEED_PULL_FAILURES : Z := 4.
Definition FEED_PULL_RETRY_PERIOD : Z := 30.
Definition MAX_DELIVERY_FAILURES : Z := 4.
Definition DELIVERY_RETRY_PERIOD : Z := 30.
Definition DEFAULT_LEASE_SECONDS : Z := 5 * 24 * 60 * 60.
Definition MAX_LEASE_SECONDS : Z := 10 * 24 * 60 * 60.
Definition PUT_SPLITTING_ATTEMPTS : nat := 10.
Definition MAX_FEED_ENTRY_RECORD_LOOKUPS : nat := 500.
Definition MAX_FEED_RECORD_SAVES : nat := 100.
Definition MAX_NEW_FEED_ENTRY_RECORDS : nat := 200.
Definition MAX_REDIRECTS : nat := 7.
Definition FEED_IDENTITY_UPDATE_PERIOD : Z := 20 * 24 * 60 * 60.
Definition POLLING_BOOTSTRAP_PERIOD : Z := 10800.

Definition EVENT_QUEUE : string := "event-delivery".
Definition EVENT_RETRIES_QUEUE : string := "event-delivery-retries".
Definition FEED_QUEUE : string := "feed-pulls".
Definition FEED_RETRIES_QUEUE : string := "feed-pulls-retries".
Definition POLLING_QUEUE : string := "polling".
Definition SUBSCRIPTION_QUEUE : string := "subscriptions".
Definition MAPPINGS_QUEUE : string := "mappings".

(** ** Helper functions *)

Definition sha1_hash (value : pystr) : string := SHA1.hexdigest (utf8 value).

Definition get_hash_key_name (value : pystr) : string :=
  String.append "hash_" (sha1_hash value).

Definition sha1_hmac (secret data : pystr) : string :=
  SHA1.hmac_hexdigest (utf8 secret) (utf8 data).

(** [x or y] where [x] is a text property that may be [None]. *)
Definition py_or (x : option unicode) (y : pystr) : pystr :=
  match x with
  | Some (c :: t) => Unicode (c :: t)
  | _ => y
  end.

(** [sorted(l, key=...)] on string keys: a stable insertion sort, strings
    compared as Python compares them (code unit by code unit). *)
Fixpoint insert_by {A : Type} (key : A -> string) (x : A) (l : list A) : list A :=
  match l with
  | [] => [x]
  | y :: l' =>
      if String.leb (key x) (key y) then x :: y :: l'
      else y :: insert_by key x l'
  end.

Definition py_sorted {A : Type} (key : A -> string) (l : list A) : list A :=
  List.fold_right (insert_by key) [] l.

(** [l.index(x)] on a list of strings, [None] for [ValueError]. *)
Fixpoint py_index (x : string) (l : list string) : option nat :=
  match l with
  | [] => None
  | y :: l' =>
      if String.eqb y x then Some O
      else match py_index x l' with
           | Some i => Some (S i)
           | None => None
           end
  end.

(** [unicode.isspace] (Python 2.7) on one code point, and [strip()]. *)
Definition py_isspace (c : N) : bool :=
  ((9 <=? c) && (c <=? 13) || (28 <=? c) && (c <=? 32)
   || (c =? 0x85) || (c =? 0xA0) || (c =? 0x1680) || (c =? 0x180E)
   || (0x2000 <=? c) && (c <=? 0x200A)
   || (c =? 0x2028) || (c =? 0x2029) || (c =? 0x202F) || (c =? 0x205F)
   || (c =? 0x3000))%N.

Fixpoint lstrip (t : unicode) : unicode :=
  match t with
  | c :: t' => if py_isspace c then lstrip t' else t
  | [] => []
  end.

Definition strip (t : unicode) : unicode :=
  List.rev (lstrip (List.rev (lstrip t))).

(** [l.remove(x)]: the first occurrence goes; [None] for [ValueError]. *)
Fixpoint py_remove (x : unicode) (l : list unicode) : option (list unicode) :=
  match l with
  | [] => None
  | y :: l' =>
      if decide (y = x) then Some l'
      else match py_remove x l' with
           | Some r => Some (y :: r)
           | None => None
           end
  end.

(** The code units of a string of either kind, and a slice of them put
    back under the same kind. *)
Definition codes (p : pystr) : list N :=
  match p with
  | Str s => bytes_of_string s
  | Unicode t => t
  end.

Definition same_kind (p : pystr) (l : list N) : pystr :=
  match p with
  | Str _ => Str (string_of_bytes l)
  | Unicode _ => Unicode l
  end.

Fixpoint starts_with (needle hay : list N) : bool :=
  match needle, hay with
  | [], _ => true
  | a :: needle', b :: hay' => (a =? b)%N && starts_with needle' hay'
  | _ :: _, [] => false
  end.

(** [needle in hay] for a non-empty [needle]. *)
Fixpoint py_contains (needle hay : list N) : bool :=
  match hay with
  | [] => match needle with [] => true | _ :: _ => false end
  | _ :: hay' => starts_with needle hay || py_contains needle hay'
  end.

(** [hay.rfind(needle)] for a non-empty [needle]: the highest index at
    which it occurs, [None] for -1. *)
Fixpoint rfind_from (needle hay : list N) (i : nat) (best : option nat) : option nat :=
  match hay with
  | [] => best
  | _ :: hay' =>
      rfind_from needle hay' (S i) (if starts_with needle hay then Some i else best)
  end.

Definition py_rfind (needle hay : list N) : option nat := rfind_from needle hay O None.

(** [str.lower()] on a byte string. *)
Definition py_lower (s : string) : string :=
  string_of_bytes
    (List.map (fun c => if ((65 <=? c) && (c <=? 90))%N then (c + 32)%N else c)
              (bytes_of_string s)).

(** [unicode(s)] on a byte string: the ASCII codec; [None] for
    [UnicodeDecodeError]. *)
Definition decode_ascii (s : string) : option unicode :=
  let bs := bytes_of_string s in
  if List.forallb (fun c => (c <? 128)%N) bs then Some bs else None.

(** [sep.join(parts)]: a byte string when every part is one, text as soon
    as one part is text (the byte strings are then decoded as ASCII). *)
Fixpoint decode_all (parts : list pystr) : option (list unicode) :=
  match parts with
  | [] => Some []
  | p :: parts' =>
      match (match p with Unicode t => Some t | Str s => decode_ascii s end),
            decode_all parts' with
      | Some t, Some ts => Some (t :: ts)
      | _, _ => None
      end
  end.

Fixpoint intersperse (sep : list N) (parts : list (list N)) : list N :=
  match parts with
  | [] => []
  | [x] => x
  | x :: parts' => x ++ sep ++ intersperse sep parts'
  end.

Definition py_join (sep : string) (parts : list pystr) : option pystr :=
  if List.existsb (fun p => match p with Unicode _ => true | Str _ => false end) parts then
    match decode_all (Str sep :: parts) with
    | Some (sep' :: ts) => Some (Unicode (intersperse sep' ts))
    | _ => None
    end
  else
    Some (Str (string_of_bytes (intersperse (bytes_of_string sep) (List.map codes parts)))).

(** [urllib.quote(s)] with its default [safe='/'] (Python 2.7): letters,
    digits and [_.-/] stay, every other byte becomes [%XX] with upper-case
    hexadecimal digits. *)
Definition always_safe (b : N) : bool :=
  ((65 <=? b) && (b <=? 90) || (97 <=? b) && (b <=? 122) || (48 <=? b) && (b <=? 57)
   || (b =? 95) || (b =? 46) || (b =? 45))%N.

Definition upper_hex_digit (n : N) : N :=
  if (n <? 10)%N then (48 + n)%N else (55 + n)%N.

Definition quote_byte (b : N) : list N :=
  if always_safe b || (b =? 47)%N then [b]
  else [37%N; upper_hex_digit (N.shiftr b 4); upper_hex_digit (N.land b 0xF)].

Definition quote (s : string) : string :=
  string_of_bytes (List.flat_map quote_byte (bytes_of_string s)).

(** [normalize_iri(url)]: [unicode(url)] (the ASCII codec on a byte
    string, [None] for its [UnicodeDecodeError]), then every character
    above U+007F replaced by the quoted bytes of its UTF-8 encoding. The
    join gives text as soon as one character was kept, a byte string
    otherwise. *)
Definition chr_or_escape (unicode_char : N) : pystr :=
  if (0x7f <? unicode_char)%N then Str (quote (utf8_encode [unicode_char]))
  else Unicode [unicode_char].

Definition normalize_iri (url : pystr) : option pystr :=
  match (match url with Unicode t => Some t | Str s => decode_ascii s end) with
  | None => None
  | Some t => py_join "" (List.map chr_or_escape t)
  end.

(** [is_dev_env()]: ['Dev' in os.environ.get('SERVER_SOFTWARE', '')]. *)
Definition is_dev_env (server_software : option string) : bool :=
  py_contains (bytes_of_string "Dev") (bytes_of_string (default "" server_software)).

(** [t.split(sep, 1)] on a one-character separator. *)
Fixpoint split_once (sep : N) (t : list N) : list (list N) :=
  match t with
  | [] => [[]]
  | c :: t' =>
      if (c =? sep)%N then [[]; t']
      else match split_once sep t' with
           | first :: rest => (c :: first) :: rest
           | [] => [[c]]
           end
  end.

Definition VALID_PORTS : list unicode :=
  List.map u ["80"; "443"; "4443"; "8080"; "8081"; "8082"; "8083"; "8084"; "8085";
              "8086"; "8087"; "8088"; "8089"; "8188"; "8444"; "8990"].

(** What [urlparse.urlparse] gives, for the parts the hub reads. *)
Record url_parts : Type := {
  scheme : unicode;
  netloc : unicode;
  fragment : unicode
}.

(** [is_valid_url(url)]; [urlparse] is the library function. *)
Definition is_valid_url (urlparse : unicode -> url_parts) (server_software : option string)
    (url : unicode) : bool :=
  let split := urlparse url in
  if negb (bool_decide (scheme split ∈ [u "http"; u "https"])) then false
  else
    let port :=
      match List.firstn 2 (split_once 58 (netloc split) ++ [[]]) with
      | [_; port] => port
      | _ => []
      end in
    if (match port with [] => false | _ :: _ => true end)
       && negb (is_dev_env server_software)
       && negb (bool_decide (port ∈ VALID_PORTS)) then false
    else
      match fragment split with
      | _ :: _ => false
      | [] => true
      end.

(** [for position in xrange(0, len(l), step): l[position:position+step]]. *)
Fixpoint slices_from {A : Type} (fuel step : nat) (l : list A) : list (list A) :=
  match fuel, l with
  | S fuel', _ :: _ => List.firstn step l :: slices_from fuel' step (List.skipn step l)
  | _, _ => []
  end.

Definition py_slices {A : Type} (step : nat) (l : list A) : list (list A) :=
  slices_from (List.length l) step l.

(** [str(b)] for a bool. *)
Definition str_of_bool (b : bool) : string := if b then "True" else "False".

(** ** The task queue

    [taskqueue.Task(url=, eta=, params=).add(queue, transactional=)]. The
    three local retries of an insertion that the queue refuses are not
    modelled: an insertion succeeds. *)

Record Task : Type := {
  task_url : string;
  task_eta : option Z;
  task_params : list (string * pystr);
  task_queue : string;
  task_transactional : bool
}.

(** The queue a request was delivered from,
    [os.environ.get('HTTP_X_APPENGINE_QUEUENAME')]. *)
Definition environ : Type := option string.

Definition from_polling_queue (env : environ) : bool :=
  match env with
  | Some q => String.eqb q POLLING_QUEUE
  | None => false
  end.

(** ** Models *)

(** The properties [created_time] and [last_modified] of [Subscription]
    ([auto_now_add], [auto_now]) are stamps the Datastore layer maintains on
    its own on every write and that no code of the hub reads; they are not
    fields of the records below. *)

Module Subscription.

Inductive state : Type :=
| STATE_NOT_VERIFIED
| STATE_VERIFIED
| STATE_TO_DELETE.

Definition state_name (s : state) : string :=
  match s with
  | STATE_NOT_VERIFIED => "not_verified"
  | STATE_VERIFIED => "verified"
  | STATE_TO_DELETE => "to_delete"
  end.

Record t : Type := mk {
  key_name : string;
  callback : unicode;
  callback_hash : string;
  topic : unicode;
  topic_hash : string;
  lease_seconds : Z;
  expiration_time : Z;
  eta : Z;
  confirm_failures : nat;
  verify_token : option unicode;
  secret : option unicode;
  hmac_algorithm : option unicode;
  subscription_state : state
}.

(** The [Subscription] kind of the Datastore, with the task queue. *)
Record store : Type := mk_store {
  rows : gmap string t;
  tasks : list Task
}.

Definition get_by_key_name (name : string) (db : store) : option t :=
  rows db !! name.

Definition put (sub : t) (db : store) : store :=
  mk_store (<[key_name sub := sub]> (rows db)) (tasks db).

Definition delete (sub : t) (db : store) : store :=
  mk_store (base.delete (key_name sub) (rows db)) (tasks db).

Definition add_task (k : Task) (db : store) : store :=
  mk_store (rows db) (tasks db ++ [k]).

(** [u'%s\n%s' % (callback, topic)] hashed into a key name. *)
Definition create_key_name (callback topic : unicode) : string :=
  get_hash_key_name (Unicode (callback ++ [10%N] ++ topic)).

Definition insert (callback topic : unicode) (verify_token : unicode)
    (secret : option unicode) (lease_seconds : Z) (now : Z)
    (db : store) : bool * store :=
  let key_name := create_key_name callback topic in
  let now_time := now in
  let '(sub_is_new, sub) :=
    match get_by_key_name key_name db with
    | None =>
        (true,
         mk key_name callback (sha1_hash (Unicode callback))
            topic (sha1_hash (Unicode topic))
            lease_seconds now_time now_time 0 (Some verify_token) secret None
            STATE_NOT_VERIFIED)
    | Some sub => (false, sub)
    end in
  let sub :=
    mk (Subscription.key_name sub) (Subscription.callback sub) (callback_hash sub)
       (Subscription.topic sub) (topic_hash sub)
       (Subscription.lease_seconds sub)
       (now_time + lease_seconds)      (* expiration_time *)
       (eta sub)
       0                                (* confirm_failures *)
       (Some verify_token)
       secret
       (hmac_algorithm sub)
       STATE_VERIFIED in
  (sub_is_new, put sub db).

Definition remove (callback topic : unicode) (db : store) : bool * store :=
  let key_name := create_key_name callback topic in
  match get_by_key_name key_name db with
  | Some sub => (true, delete sub db)
  | None => (false, db)
  end.

Definition archive (callback topic : unicode) (db : store) : store :=
  let key_name := create_key_name callback topic in
  match get_by_key_name key_name db with
  | Some sub =>
      put (mk (Subscription.key_name sub) (Subscription.callback sub)
              (callback_hash sub) (Subscription.topic sub) (topic_hash sub)
              (lease_seconds sub) (expiration_time sub) (eta sub)
              0 (verify_token sub) (secret sub) (hmac_algorithm sub)
              STATE_TO_DELETE) db
  | None => db
  end.

(** The query on [(topic_hash, subscription_state)] ordered by
    [callback_hash] (rows with one [callback_hash] in key order). *)
Definition query (topic : unicode) (starting_at_callback : unicode)
    (db : store) : list t :=
  let found :=
    List.filter
      (fun sub =>
         String.eqb (topic_hash sub) (sha1_hash (Unicode topic))
         && match subscription_state sub with STATE_VERIFIED => true | _ => false end
         && match starting_at_callback with
            | [] => true
            | _ :: _ =>
                String.leb (sha1_hash (Unicode starting_at_callback)) (callback_hash sub)
            end)
      (List.map snd (map_to_list (rows db))) in
  py_sorted callback_hash (py_sorted key_name found).

Definition has_subscribers (topic : unicode) (db : store) : bool :=
  match query topic [] db with
  | [] => false
  | _ :: _ => true
  end.

Definition get_subscribers (topic : unicode) (count : nat)
    (starting_at_callback : unicode) (db : store) : list t :=
  List.firstn count (query topic starting_at_callback db).

Definition enqueue_task (self : t) (next_state : state) (verify_token : unicode)
    (auto_reconfirm : bool) (secret : option unicode) (db : store) : store :=
  let target_queue := if auto_reconfirm then POLLING_QUEUE else SUBSCRIPTION_QUEUE in
  add_task
    {| task_url := "/work/subscriptions";
       task_eta := Some (eta self);
       task_params :=
         [("subscription_key_name", Str (key_name self));
          ("next_state", Str (state_name next_state));
          ("verify_token", Unicode verify_token);
          ("secret", py_or secret (Str ""));
          ("auto_reconfirm", Str (str_of_bool auto_reconfirm))];
       task_queue := target_queue;
       task_transactional := true |} db.

(** [self.confirm_failures = 0] *)
Definition reset_failures (sub : t) : t :=
  mk (key_name sub) (callback sub) (callback_hash sub) (topic sub) (topic_hash sub)
     (lease_seconds sub) (expiration_time sub) (eta sub) 0
     (verify_token sub) (secret sub) (hmac_algorithm sub) (subscription_state sub).


Definition request_remove (callback topic : unicode) (verify_token : unicode)
    (db : store) : bool * store :=
  let key_name := create_key_name callback topic in
  match get_by_key_name key_name db with
  | Some sub =>
      let sub := reset_failures sub in
      let db := put sub db in
      let db := enqueue_task sub STATE_TO_DELETE verify_token false None db in
      (true, db)
  | None => (false, db)
  end.

(** [confirm_failed] works on the instance [self] it is called on (it
    does not read the row again) and returns it as mutated. *)
Definition confirm_failed (self : t) (next_state : state) (verify_token : unicode)
    (auto_reconfirm : bool) (secret : option unicode)
    (max_failures : Z) (retry_period : Z) (now : Z)
    (db : store) : bool * t * store :=
  if (Z.of_nat (confirm_failures self) >=? max_failures)%Z then
    (false, self, db)
  else
    let retry_delay := retry_period * 2 ^ Z.of_nat (confirm_failures self) in
    let self :=
      mk (key_name self) (callback self) (callback_hash self)
         (topic self) (topic_hash self) (lease_seconds self)
         (expiration_time self)
         (now + retry_delay)                 (* eta *)
         (confirm_failures self + 1)
         (Subscription.verify_token self) (Subscription.secret self)
         (hmac_algorithm self)
         (subscription_state self) in
    let db := put self db in
    let db := enqueue_task self next_state verify_token auto_reconfirm secret db in
    (true, self, db).

End Subscription.

Module KnownFeed.

Record t : Type := mk {
  key_name : string;
  topic : unicode;
  feed_id : option unicode
}.

Definition create_key (topic : unicode) : string :=
  get_hash_key_name (Unicode topic).

(** [KnownFeed.record(topic)]: the task that starts feed ID discovery. *)
Definition record (topic : unicode) : Task :=
  {| task_url := "/work/record_feeds";
     task_eta := None;
     task_params := [("topic", Unicode topic)];
     task_queue := MAPPINGS_QUEUE;
     task_transactional := false |}.

(** [KnownFeed.create(topic)]: an instance that is not stored yet. *)
Definition create (topic : unicode) : t :=
  mk (get_hash_key_name (Unicode topic)) topic None.

(** [check_exists(topics)], over [set(topics)] in the order of first
    occurrence. *)
Definition check_exists (topics : list unicode) (feeds : gmap string t) : list unicode :=
  List.flat_map
    (fun url =>
       match feeds !! create_key url with
       | Some known_feed => [topic known_feed]
       | None => []
       end)
    (remove_dups topics).

End KnownFeed.

Module KnownFeedStats.

(** The key is the path [(KnownFeed, parent name), (KnownFeedStats,
    'overall')]; a row is stored under its parent name. *)
Record t : Type := mk {
  parent_name : string;
  subscriber_count : option Z
}.

(** [create_key(topic_url, topic_hash)]: the names of the parent and of
    the child in the key; [None] when it raises, with [TypeError] if both
    arguments are given, and in [db.Key.from_path] if the parent is left
    without a name. *)
Definition create_key (topic_url : option unicode) (topic_hash : option string)
    : option (string * string) :=
  let given_url := match topic_url with Some (_ :: _) => true | _ => false end in
  let given_hash := match topic_hash with Some (String _ _) => true | _ => false end in
  if given_url && given_hash then None
  else
    let topic_hash :=
      match topic_url with
      | Some (c :: t) => Some (sha1_hash (Unicode (c :: t)))
      | _ => topic_hash
      end in
    match topic_hash with
    | Some (String c h) => Some (String c h, "overall")
    | _ => None
    end.

(** [get_or_create_all(topic_list)]: the stored statistics of each topic,
    or a new instance that counts no subscriber; [None] when a key cannot
    be made. *)
Fixpoint get_or_create_all (topic_list : list unicode) (stats : gmap string t)
    : option (list t) :=
  match topic_list with
  | [] => Some []
  | topic :: topic_list' =>
      match create_key (Some topic) None, get_or_create_all topic_list' stats with
      | Some (name, _), Some results =>
          Some (match stats !! name with
                | Some found => found
                | None => mk name (Some 0)
                end :: results)
      | _, _ => None
      end
  end.

End KnownFeedStats.

(** [PollingMarker]: where the bootstrap polling stands. *)
Module PollingMarker.

Record t : Type := mk {
  last_start : option Z;
  next_start : Z
}.

(** [PollingMarker.get(now)]; [stored] is the row named ['The Mark']. *)
Definition get (now : Z) (stored : option t) : t :=
  match stored with
  | Some the_mark => the_mark
  | None => mk None (now - 60)
  end.

(** [should_progress]: the verdict, and [self] as it leaves it. *)
Definition should_progress (self : t) (period : Z) (now : Z) : bool * t :=
  let now_time := now in
  if (next_start self <? now_time)%Z then
    (true, mk (Some (next_start self)) (now_time + period))
  else (false, self).

End PollingMarker.

(** ** Subscription handlers and workers *)

(** What [urlfetch.fetch] gave: an [urlfetch_errors.Error], or a response. *)
Inductive fetch_result : Type :=
| FetchError
| Response (status_code : Z) (content : string).

(** [confirm_subscription]. The random challenge and the outcome of the
    verification GET (sent to the callback with [hub.mode], [hub.topic],
    [hub.challenge], [hub.lease_seconds] and [hub.verify_token] added to
    its query string) are arguments. *)
Definition confirm_subscription (mode : string) (topic callback : unicode)
    (verify_token : unicode) (secret : option unicode) (lease_seconds : Z)
    (record_topic : bool)
    (challenge : string) (response : fetch_result) (now : Z)
    (db : Subscription.store) : bool * Subscription.store :=
  let real_lease_seconds := Z.min lease_seconds MAX_LEASE_SECONDS in
  match response with
  | FetchError => (false, db)
  | Response status_code content =>
      if (200 <=? status_code)%Z && (status_code <? 300)%Z && String.eqb content challenge then
        if String.eqb mode "subscribe" then
          let '(_, db) :=
            Subscription.insert callback topic verify_token secret
                                real_lease_seconds now db in
          let db :=
            if record_topic then Subscription.add_task (KnownFeed.record topic) db
            else db in
          (true, db)
        else
          let '(_, db) := Subscription.remove callback topic db in
          (true, db)
      else if String.eqb mode "subscribe" && (status_code =? 404)%Z then
        (true, Subscription.archive callback topic db)
      else
        (false, db)
  end.

(** The worker of the [subscriptions] queue, for a request the
    [work_queue_only] guard lets through and with no hook on
    [confirm_subscription]. The parameters are those [enqueue_task]
    writes: [next_state] is the name of a state, [secret] is [''] when
    there is none, [auto_reconfirm] is ['True'] or ['False']. *)
Module SubscriptionConfirmHandler.

Definition post (subscription_key_name : string) (next_state : Subscription.state)
    (verify_token : unicode) (secret : unicode) (auto_reconfirm : string)
    (challenge : string) (response : fetch_result) (now : Z)
    (db : Subscription.store) : Subscription.store :=
  let secret := match secret with [] => None | _ :: _ => Some secret end in
  let auto_reconfirm := String.eqb auto_reconfirm "True" in
  match Subscription.get_by_key_name subscription_key_name db with
  | None => db
  | Some sub =>
      let mode :=
        match next_state with
        | Subscription.STATE_TO_DELETE => "unsubscribe"
        | _ => "subscribe"
        end in
      let '(confirmed, db) :=
        confirm_subscription mode (Subscription.topic sub) (Subscription.callback sub)
          verify_token secret (Subscription.lease_seconds sub) false
          challenge response now db in
      if confirmed then db
      else
        let '(again, _, db) :=
          Subscription.confirm_failed sub next_state verify_token auto_reconfirm secret
            MAX_SUBSCRIPTION_CONFIRM_FAILURES SUBSCRIPTION_RETRY_PERIOD now db in
        if negb again && auto_reconfirm && String.eqb mode "subscribe" then
          Subscription.archive (Subscription.callback sub) (Subscription.topic sub) db
        else db
  end.

End SubscriptionConfirmHandler.

Module FeedToFetch.

Record t : Type := mk {
  key_name : string;
  topic : unicode;
  eta : Z;
  fetching_failures : nat;
  totally_failed : bool;
  source_keys : list string;
  source_values : list string;
  work_index : option Z
}.

Record store : Type := mk_store {
  rows : gmap string t;
  tasks : list Task
}.

Definition put (self : t) (db : store) : store :=
  mk_store (<[key_name self := self]> (rows db)) (tasks db).

Definition get_by_topic (topic : unicode) (db : store) : option t :=
  rows db !! get_hash_key_name (Unicode topic).

(** What [insert] asks of [FORK_JOIN_QUEUE] (fork_join_queue.py): the
    queue name it sets, and the calls of [next_index], [put] and [add]. *)
Inductive fork_join_call : Type :=
| SetQueueName (queue_name : string)
| NextIndex
| PutWork (work_index : Z) (feed_list : list t)
| AddWork (work_index : Z).

(** [insert(topic_list, source_dict, memory_only)]: what it returns, the
    Datastore, and the calls on the fork-join queue ([next_index] is what
    [next_index()] answers). [set(topic_list)] is gone through in the
    order of first occurrence, [source_dict] in the order of its items;
    the [eta] of a new instance ([auto_now_add]) is [now]. *)
Definition insert (topic_list : list unicode) (source_dict : list (string * string))
    (memory_only : bool) (env : environ) (next_index : Z) (now : Z) (db : store)
    : option (list t) * store * list fork_join_call :=
  match topic_list with
  | [] => (None, db, [])
  | _ :: _ =>
      let source_keys := List.map fst source_dict in
      let source_values := List.map snd source_dict in
      let queue_name := if from_polling_queue env then POLLING_QUEUE else FEED_QUEUE in
      let work_index := if memory_only then Some next_index else None in
      let feed_list :=
        List.map
          (fun topic =>
             mk (get_hash_key_name (Unicode topic)) topic now 0 false
                source_keys source_values work_index)
          (remove_dups topic_list) in
      if memory_only then
        (Some feed_list, db,
         [SetQueueName queue_name; NextIndex; PutWork next_index feed_list;
          AddWork next_index])
      else
        (Some feed_list, List.fold_left (fun db self => put self db) feed_list db,
         [SetQueueName queue_name])
  end.

Definition _enqueue_retry_task (self : t) (env : environ) (db : store) : store :=
  let queue_name := if from_polling_queue env then POLLING_QUEUE else FEED_RETRIES_QUEUE in
  mk_store (rows db)
    (tasks db ++
     [{| task_url := "/work/pull_feeds";
         task_eta := Some (eta self);
         task_params := [("topic", Unicode (topic self))];
         task_queue := queue_name;
         task_transactional := true |}]).

(** [fetch_failed] mutates [self] and writes it; the instance as mutated
    is returned with the store. *)
Definition fetch_failed (self : t) (max_failures : Z) (retry_period : Z)
    (now : Z) (env : environ) (db : store) : t * store :=
  let orig_failures := fetching_failures self in
  if (Z.of_nat (fetching_failures self) >=? max_failures)%Z then
    let self :=
      mk (key_name self) (topic self) (eta self) (fetching_failures self)
         true (source_keys self) (source_values self) (work_index self) in
    (self, put self db)
  else
    let retry_delay := retry_period * 2 ^ Z.of_nat orig_failures in
    let self :=
      mk (key_name self) (topic self) (now + retry_delay) (orig_failures + 1)
         (totally_failed self) (source_keys self) (source_values self)
         (work_index self) in
    let db := _enqueue_retry_task self env db in
    (self, put self db).

Definition done (self : t) (db : store) : bool * store :=
  match rows db !! key_name self with
  | Some other =>
      if (eta other =? eta self)%Z then
        (true, mk_store (base.delete (key_name other) (rows db)) (tasks db))
      else (false, db)
  | None => (false, db)
  end.

End FeedToFetch.

(** Feed formats: ['atom'], ['rss'], ['arbitrary']. *)
Inductive feed_format : Type := ATOM | RSS | ARBITRARY.

Definition format_name (f : feed_format) : string :=
  match f with
  | ATOM => "atom"
  | RSS => "rss"
  | ARBITRARY => "arbitrary"
  end.

Module FeedRecord.

Record t : Type := mk {
  key_name : string;
  topic : unicode;
  header_footer : option pystr;
  format : option feed_format;
  content_type : option unicode;
  last_modified : option unicode;
  etag : option unicode
}.

Definition create_key_name (topic : unicode) : string :=
  get_hash_key_name (Unicode topic).

(** A header stored into a text property: a value that is not ASCII
    raises [UnicodeDecodeError], which [update] logs, and the property
    keeps its value. *)
Definition store_header (old : option unicode) (value : option string) : option unicode :=
  match value with
  | None => None
  | Some v =>
      match decode_ascii v with
      | Some t => Some t
      | None => old
      end
  end.

(** [update]. [headers] is the response's caseless dictionary, read under
    the spellings the code uses. *)
Definition update (self : t) (headers : gmap string string)
    (header_footer : option pystr) (format : option feed_format) : t :=
  let content_type' :=
    store_header (content_type self)
      (Some (py_lower (default "" (headers !! "Content-Type")))) in
  let last_modified' := store_header (last_modified self) (headers !! "Last-Modified") in
  let etag' := store_header (etag self) (headers !! "ETag") in
  let format' :=
    match format with
    | Some f => Some f
    | None => FeedRecord.format self
    end in
  let header_footer' :=
    match header_footer, format' with
    | None, _ => FeedRecord.header_footer self
    | Some _, Some ARBITRARY => FeedRecord.header_footer self
    | Some h, _ => Some h
    end in
  mk (key_name self) (topic self) header_footer' format' content_type'
     last_modified' etag'.

(** [get_or_create_all(topic_list)]: nothing is written. *)
Definition get_or_create_all (topic_list : list unicode) (rows : gmap string t) : list t :=
  List.map
    (fun topic =>
       match rows !! create_key_name topic with
       | Some found => found
       | None => mk (create_key_name topic) topic None None None None None
       end)
    topic_list.

(** [get_or_create(topic)] ([get_or_insert]): a missing record is written. *)
Definition get_or_create (topic : unicode) (rows : gmap string t) : t * gmap string t :=
  match rows !! create_key_name topic with
  | Some found => (found, rows)
  | None =>
      let created := mk (create_key_name topic) topic None None None None None in
      (created, <[create_key_name topic := created]> rows)
  end.

(** [get_request_headers(subscriber_count)]; the count of a
    [KnownFeedStats] may be [None]. *)
Definition get_request_headers (self : t) (subscriber_count : option Z)
    : gmap string pystr :=
  let headers : gmap string pystr :=
    <["Cache-Control" := Str "no-cache no-store max-age=1"]>
      (<["Connection" := Str "cache-control"]> (<["Accept" := Str "*/*"]> ∅)) in
  let headers :=
    match last_modified self with
    | Some (c :: t) => <["If-Modified-Since" := Unicode (c :: t)]> headers
    | _ => headers
    end in
  let headers :=
    match etag self with
    | Some (c :: t) => <["If-None-Match" := Unicode (c :: t)]> headers
    | _ => headers
    end in
  match subscriber_count with
  | Some n =>
      if (n =? 0)%Z then headers
      else
        <["User-Agent" :=
            Str (String.concat ""
                   ["Public Hub (+http://pubsubhubbub.appspot.com; "; pretty n;
                    " subscribers)"])]> headers
  | None => headers
  end.

End FeedRecord.

(** [s[n:]] *)
Fixpoint string_drop (n : nat) (s : string) : string :=
  match n, s with
  | S n', String _ s' => string_drop n' s'
  | _, _ => s
  end.

Module FeedEntryRecord.

(** The key of an entry: its parent [FeedRecord]'s key name and its own. *)
Record t : Type := mk {
  parent : string;
  key_name : string;
  entry_content_hash : string
}.

(** [self.key().name()[len('hash_'):]] *)
Definition id_hash (self : t) : string := string_drop 5 (key_name self).

Definition create_key (topic entry_id : unicode) : string * string :=
  (FeedRecord.create_key_name topic, get_hash_key_name (Unicode entry_id)).

Definition get_entries_for_topic (topic : unicode) (entry_id_list : list unicode)
    (rows : gmap (string * string) t) : list t :=
  List.flat_map
    (fun entry_id =>
       match rows !! create_key topic entry_id with
       | Some r => [r]
       | None => []
       end) entry_id_list.

Definition create_entry_for_topic (topic entry_id : unicode) (content_hash : string) : t :=
  let key := create_key topic entry_id in
  mk (fst key) (snd key) content_hash.

End FeedEntryRecord.

Module EventToDeliver.

Inductive mode : Type := NORMAL | RETRY.

Record t : Type := mk {
  key : option N;                      (* the id the Datastore gave it *)
  topic : unicode;
  topic_hash : string;
  payload : string;
  last_callback : unicode;
  failed_callbacks : list string;      (* key names of Subscriptions *)
  delivery_mode : mode;
  retry_attempts : nat;
  last_modified : Z;
  totally_failed : bool;
  content_type : option unicode;
  max_failures : option Z
}.

Record store : Type := mk_store {
  rows : gmap N t;
  next_id : N;
  tasks : list Task
}.

(** [self.put()]: a first write allocates the id. *)
Definition put (self : t) (db : store) : t * store :=
  match key self with
  | Some k => (self, mk_store (<[k := self]> (rows db)) (next_id db) (tasks db))
  | None =>
      let k := next_id db in
      let self :=
        mk (Some k) (topic self) (topic_hash self) (payload self)
           (last_callback self) (failed_callbacks self) (delivery_mode self)
           (retry_attempts self) (last_modified self) (totally_failed self)
           (content_type self) (max_failures self) in
      (self, mk_store (<[k := self]> (rows db)) (k + 1)%N (tasks db))
  end.

(** [self.delete()], called on events read from the Datastore. *)
Definition delete (self : t) (db : store) : store :=
  match key self with
  | Some k => mk_store (base.delete k (rows db)) (next_id db) (tasks db)
  | None => db
  end.

Definition enqueue (self : t) (env : environ) (db : store) : store :=
  let target_queue :=
    match delivery_mode self with
    | RETRY => EVENT_RETRIES_QUEUE
    | NORMAL => if from_polling_queue env then POLLING_QUEUE else EVENT_QUEUE
    end in
  mk_store (rows db) (next_id db)
    (tasks db ++
     [{| task_url := "/work/push_events";
         task_eta := Some (last_modified self);
         task_params :=
           [("event_key", Str (match key self with Some k => pretty k | None => "" end))];
         task_queue := target_queue;
         task_transactional := true |}]).

Definition dq : string := String (Ascii.ascii_of_nat 34) EmptyString.
Definition newline : string := String (Ascii.ascii_of_nat 10) EmptyString.

(** ['<?xml version="1.0" encoding="utf-8"?>'] *)
Definition xml_declaration : string :=
  String.concat dq ["<?xml version="; "1.0"; " encoding="; "utf-8"; "?>"].

(** Where the entries are spliced in, and the content type the closing
    tag tells; [None] when an [assert] fails. *)
Definition locate_close (hf : list N) (content_type : option unicode)
    : option (nat * option unicode) :=
  match py_rfind (u "</") hf with
  | None => None
  | Some close_index =>
      let end_tag := List.skipn close_index hf in
      if py_contains (u "rss") end_tag then
        match py_rfind (u "</") (List.firstn close_index hf) with
        | None => None
        | Some close_index => Some (close_index, Some (u "application/rss+xml"))
        end
      else if py_contains (u "feed") end_tag then
        Some (close_index, Some (u "application/atom+xml"))
      else if py_contains (u "rdf") end_tag then
        Some (close_index, Some (u "application/rdf+xml"))
      else Some (close_index, content_type)
  end.

(** [create_event_for_topic]; [None] when it raises ([AssertionError] on
    an envelope with no closing tag, [UnicodeDecodeError] in the join). *)
Definition create_event_for_topic (topic : unicode) (fmt : feed_format)
    (content_type : option unicode) (header_footer : pystr)
    (entry_payloads : list unicode) (now : Z) (max_failures : option Z) : option t :=
  let made : option (pystr * option unicode) :=
    match fmt with
    | ARBITRARY => Some (header_footer, content_type)
    | _ =>
        let hf := codes header_footer in
        match locate_close hf content_type with
        | None => None
        | Some (close_index, content_type) =>
            let payload_list :=
              [Str xml_declaration; same_kind header_footer (List.firstn close_index hf)]
              ++ List.map Unicode entry_payloads
              ++ [same_kind header_footer (List.skipn close_index hf)] in
            match py_join newline payload_list with
            | None => None
            | Some payload => Some (payload, content_type)
            end
        end
    end in
  match made with
  | None => None
  | Some (payload, content_type) =>
      Some (mk None topic (sha1_hash (Unicode topic)) (utf8 payload)
               [] [] NORMAL 0 now false content_type max_failures)
  end.

Definition with_cursor (self : t) (last_callback' : unicode)
    (failed_callbacks' : list string) : t :=
  mk (key self) (topic self) (topic_hash self) (payload self)
     last_callback' failed_callbacks' (delivery_mode self)
     (retry_attempts self) (last_modified self) (totally_failed self)
     (content_type self) (max_failures self).

(** [get_next_subscribers]: the pair it returns, and [self] as mutated. *)
Definition get_next_subscribers (self : t) (chunk_size : option nat)
    (subs : Subscription.store) : (bool * list Subscription.t) * t :=
  let chunk_size :=
    match chunk_size with
    | None => EVENT_SUBSCRIBER_CHUNK_SIZE
    | Some n => n
    end in
  match delivery_mode self with
  | NORMAL =>
      let all_subscribers :=
        Subscription.get_subscribers (topic self) (chunk_size + 1)
                                     (last_callback self) subs in
      let last_callback' :=
        match List.last (List.map Some all_subscribers) None with
        | Some sub => Subscription.callback sub
        | None => []
        end in
      let more_subscribers := (chunk_size <? List.length all_subscribers)%nat in
      let subscription_list := List.firstn chunk_size all_subscribers in
      ((more_subscribers, subscription_list),
       with_cursor self last_callback' (failed_callbacks self))
  | RETRY =>
      let next_chunk := List.firstn chunk_size (failed_callbacks self) in
      let more_subscribers :=
        (List.length next_chunk <? List.length (failed_callbacks self))%nat in
      let '(more_subscribers, next_chunk) :=
        match last_callback self with
        | [] => (more_subscribers, next_chunk)
        | _ :: _ =>
            let final_subscription_key :=
              Subscription.create_key_name (last_callback self) (topic self) in
            match py_index final_subscription_key next_chunk with
            | None => (more_subscribers, next_chunk)
            | Some final_index => (false, List.firstn final_index next_chunk)
            end
        end in
      let subscription_list :=
        List.flat_map
          (fun k => match Subscription.get_by_key_name k subs with
                    | Some sub => [sub]
                    | None => []
                    end) next_chunk in
      let last_callback' :=
        match subscription_list, last_callback self with
        | sub :: _, [] => Subscription.callback sub
        | _, _ => last_callback self
        end in
      ((more_subscribers, subscription_list),
       with_cursor self last_callback'
                   (List.skipn (List.length next_chunk) (failed_callbacks self)))
  end.

(** [update]: [self] as mutated, and the store. The [OverflowError] of a
    date past year 9999 cannot happen on [Z]. *)
Definition update (self : t) (more_callbacks : bool)
    (more_failed_callbacks : list Subscription.t)
    (now : Z) (max_failures : Z) (retry_period : Z) (env : environ)
    (db : store) : t * store :=
  let more_failed_callbacks :=
    py_sorted Subscription.callback_hash more_failed_callbacks in
  let failed :=
    failed_callbacks self ++ List.map Subscription.key_name more_failed_callbacks in
  let self :=
    mk (key self) (topic self) (topic_hash self) (payload self)
       (last_callback self) failed (delivery_mode self)
       (retry_attempts self) now (totally_failed self)
       (content_type self) (EventToDeliver.max_failures self) in
  match more_callbacks, failed with
  | false, [] => (self, delete self db)
  | _, _ =>
      let self :=
        if more_callbacks then self
        else
          let attempts := (retry_attempts self + 1)%nat in
          let max_failures :=
            match EventToDeliver.max_failures self with
            | Some m => m
            | None => max_failures
            end in
          let exhausted := (Z.of_nat attempts >? max_failures)%Z in
          let retry_delay := retry_period * 2 ^ (Z.of_nat attempts - 1) in
          mk (key self) (topic self) (topic_hash self) (payload self)
             []                                        (* last_callback = '' *)
             (failed_callbacks self)
             RETRY
             attempts
             (if exhausted then last_modified self else last_modified self + retry_delay)
             (if exhausted then true else totally_failed self)
             (content_type self) (EventToDeliver.max_failures self) in
      let '(self, db) := put self db in
      let db := if totally_failed self then db else enqueue self env db in
      (self, db)
  end.

End EventToDeliver.

(** ** Event delivery *)

Module PushEventHandler.

(** One [push_event]: the POST to a subscriber's callback. *)
Record request : Type := {
  url : unicode;
  headers : gmap string pystr;
  body : string
}.

(** The headers [post] builds for one subscriber. *)
Definition headers_for (work : EventToDeliver.t) (sub : Subscription.t)
    (payload_utf8 : string) : gmap string pystr :=
  <["X-Hub-Signature" :=
      Str (String.append "sha1="
             (sha1_hmac (py_or (Subscription.secret sub)
                               (py_or (Subscription.verify_token sub) (Str "")))
                        (Str payload_utf8)))]>
  (<["Content-Type" := py_or (EventToDeliver.content_type work) (Str "text/xml")]> ∅).

(** The POSTs of one invocation. [allowed] is the verdict of
    [DELIVERY_SCORER.filter] on a callback URL; a callback it denies is
    taken out of the chunk and is not contacted. *)
Definition pushes (work : EventToDeliver.t) (subscription_list : list Subscription.t)
    (allowed : unicode -> bool) : list (Subscription.t * request) :=
  let payload_utf8 := utf8 (Str (EventToDeliver.payload work)) in
  List.flat_map
    (fun sub : Subscription.t =>
       if allowed (Subscription.callback sub) then
         [(sub, {| url := Subscription.callback sub;
                   headers := headers_for work sub payload_utf8;
                   body := payload_utf8 |})]
       else [])
    subscription_list.

(** A delivery succeeded when its callback ran without exception on a
    2xx response; [None] is a callback the deadline cut off. *)
Definition delivered (result : option fetch_result) : bool :=
  match result with
  | Some (Response status_code _) => (200 <=? status_code)%Z && (status_code <=? 299)%Z
  | _ => false
  end.

(** [post] for an event [work] read from the Datastore: the chunk is
    read, the subscribers the scorer allows are contacted ([respond] is
    what each POST came back with), and the event is updated with those
    among them that were not delivered to. *)
Definition post (work : EventToDeliver.t) (allowed : unicode -> bool)
    (respond : request -> option fetch_result) (now : Z) (env : environ)
    (subs : Subscription.store) (db : EventToDeliver.store)
    : list request * (EventToDeliver.t * EventToDeliver.store) :=
  let '((more_subscribers, subscription_list), work) :=
    EventToDeliver.get_next_subscribers work None subs in
  let sent := pushes work subscription_list allowed in
  let failed_callbacks :=
    List.flat_map
      (fun p : Subscription.t * request =>
         let '(sub, r) := p in if delivered (respond r) then [] else [sub]) sent in
  (List.map snd sent,
   EventToDeliver.update work more_subscribers failed_callbacks now
                         MAX_DELIVERY_FAILURES DELIVERY_RETRY_PERIOD env db).

End PushEventHandler.

(** ** Feed identities *)

Module KnownFeedIdentity.

Record t : Type := mk {
  key_name : string;
  feed_id : unicode;
  topics : list unicode;
  last_update : option Z
}.

Definition create_key (feed_id : unicode) : string :=
  get_hash_key_name (Unicode feed_id).

(** [update]: the entity written and the [KnownFeedIdentity] kind after
    the transaction ([now] is the clock read inside it). *)
Definition update (feed_id topic : unicode) (now : Z)
    (ids : gmap string t) : t * gmap string t :=
  let known_feed :=
    match ids !! create_key feed_id with
    | Some known_feed => known_feed
    | None => mk (get_hash_key_name (Unicode feed_id)) feed_id [] None
    end in
  let topics' :=
    if decide (topic ∈ topics known_feed) then topics known_feed
    else topics known_feed ++ [topic] in
  let known_feed :=
    mk (key_name known_feed) (KnownFeedIdentity.feed_id known_feed) topics' (Some now) in
  (known_feed, <[key_name known_feed := known_feed]> ids).

Definition remove (feed_id topic : unicode) (now : Z)
    (ids : gmap string t) : option t * gmap string t :=
  match ids !! create_key feed_id with
  | None => (None, ids)
  | Some known_feed =>
      match py_remove topic (topics known_feed) with
      | None => (None, ids)
      | Some [] => (None, base.delete (key_name known_feed) ids)
      | Some (topic' :: rest) =>
          let known_feed :=
            mk (key_name known_feed) (KnownFeedIdentity.feed_id known_feed)
               (topic' :: rest) (Some now) in
          (Some known_feed, <[key_name known_feed := known_feed]> ids)
      end
  end.

(** The first loop of [derive_additional_topics] over the [KnownFeed]s
    found: [output_dict], and the lists [topics] and [feed_ids] zipped. *)
Definition split_known (known_feeds : list (option KnownFeed.t))
    : gmap unicode (gset unicode) * list (unicode * unicode) :=
  List.fold_left
    (fun (acc : gmap unicode (gset unicode) * list (unicode * unicode)) feed =>
       let '(output_dict, pairs) := acc in
       match feed with
       | None => acc
       | Some feed =>
           match KnownFeed.feed_id feed with
           | Some fid =>
               match strip fid with
               | _ :: _ => (output_dict, pairs ++ [(KnownFeed.topic feed, fid)])
               | [] =>
                   (<[KnownFeed.topic feed := {[KnownFeed.topic feed]}]> output_dict, pairs)
               end
           | None =>
               (<[KnownFeed.topic feed := {[KnownFeed.topic feed]}]> output_dict, pairs)
           end
       end)
    known_feeds (∅, []).

Definition derive_additional_topics (topics : list unicode)
    (feeds : gmap string KnownFeed.t) (ids : gmap string t)
    : gmap unicode (gset unicode) :=
  let topics := remove_dups topics in
  let known_feeds := List.map (fun t => feeds !! KnownFeed.create_key t) topics in
  let '(output_dict, pairs) := split_known known_feeds in
  List.fold_left
    (fun (output_dict : gmap unicode (gset unicode)) (p : unicode * unicode) =>
       let '(known_topic, f) := p in
       match ids !! create_key f with
       | None => output_dict
       | Some identified =>
           let topic_set : gset unicode :=
             match output_dict !! known_topic with
             | Some topic_set => topic_set
             | None => {[known_topic]}
             end in
           if (25 <? List.length (KnownFeedIdentity.topics identified))%nat then
             <[known_topic := topic_set]> output_dict
           else
             <[known_topic := topic_set ∪ list_to_set (KnownFeedIdentity.topics identified)]>
               output_dict
       end)
    pairs output_dict.

End KnownFeedIdentity.

(** ** Feed canonicalization *)

(** The worker of the [mappings] queue, for a request the
    [work_queue_only] guard lets through. *)
Module RecordFeedHandler.

(** What [feed_identifier.identify(content, feed_type)] comes to: the
    feed id it returns, which may be [None], or an exception. *)
Inductive identified : Type :=
| FeedId (feed_id : option unicode)
| IdentifyError.

(** The loop over [(ATOM, RSS)]: [feed_id] and [parse_failures] when it
    is left. *)
Fixpoint identify_all (order : list feed_format)
    (identify : string -> feed_format -> identified) (content : string)
    (feed_id : option unicode) (parse_failures : nat) : option unicode * nat :=
  match order with
  | [] => (feed_id, parse_failures)
  | feed_type :: order' =>
      match identify content feed_type with
      | FeedId (Some f) => (Some f, parse_failures)
      | FeedId None => identify_all order' identify content None (S parse_failures)
      | IdentifyError => identify_all order' identify content feed_id (S parse_failures)
      end
  end.

(** [post]. [seconds_since_update] is [self.now() - known_feed.update_time]
    for a [KnownFeed] that exists ([update_time] is the stamp the
    Datastore keeps on every write); [response] is what
    [urlfetch.fetch(topic)] gave. *)
Definition post (topic : unicode) (seconds_since_update : Z) (response : fetch_result)
    (identify : string -> feed_format -> identified) (now : Z)
    (feeds : gmap string KnownFeed.t) (ids : gmap string KnownFeedIdentity.t)
    : gmap string KnownFeed.t * gmap string KnownFeedIdentity.t :=
  let found := feeds !! KnownFeed.create_key topic in
  let recent :=
    match found with
    | Some known_feed =>
        match KnownFeed.feed_id known_feed with
        | Some (_ :: _) => (seconds_since_update <? FEED_IDENTITY_UPDATE_PERIOD)%Z
        | _ => false
        end
    | None => false
    end in
  if recent then (feeds, ids)
  else
    let known_feed :=
      match found with
      | Some known_feed => known_feed
      | None => KnownFeed.create topic
      end in
    let put (known_feed : KnownFeed.t) := <[KnownFeed.key_name known_feed := known_feed]> feeds in
    match response with
    | FetchError => (put known_feed, ids)
    | Response status_code content =>
        if negb (status_code =? 200)%Z then (put known_feed, ids)
        else
          let '(feed_id, parse_failures) :=
            identify_all [ATOM; RSS] identify content None 0 in
          match feed_id with
          | Some (c :: f) =>
              if (parse_failures =? 2)%nat then (put known_feed, ids)
              else
                let feed_id := c :: f in
                let ids :=
                  match KnownFeed.feed_id known_feed with
                  | Some (c' :: f') =>
                      if bool_decide (c' :: f' = feed_id) then ids
                      else snd (KnownFeedIdentity.remove (c' :: f') topic now ids)
                  | _ => ids
                  end in
                let ids := snd (KnownFeedIdentity.update feed_id topic now ids) in
                (put (KnownFeed.mk (KnownFeed.key_name known_feed)
                                   (KnownFeed.topic known_feed) (Some feed_id)),
                 ids)
          | _ => (put known_feed, ids)
          end
    end.

End RecordFeedHandler.

(** ** Pulling *)

(** The entity group of the [FeedRecord]s (each with its
    [FeedEntryRecord]s and [EventToDeliver]s), with the task queue. *)
Record feed_store : Type := mk_feed_store {
  feed_records : gmap string FeedRecord.t;
  entry_records : gmap (string * string) FeedEntryRecord.t;
  event_store : EventToDeliver.store
}.

(** What [feed_diff.filter(feed_content, format)] gives: the envelope and
    the entries ([entries_map], in the order [iteritems] yields them), an
    [xml.sax.SAXException] or [feed_diff.Error], or a [LookupError] on an
    unknown character encoding. *)
Inductive filtered : Type :=
| Filtered (header_footer : unicode) (entries_map : list (unicode * unicode))
| ParseError
| EncodingError.

Inductive updates : Type :=
| Updates (header_footer : pystr) (entities_to_save : list FeedEntryRecord.t)
          (entry_payloads : list unicode)
| UpdatesParseError
| UpdatesEncodingError.

Definition find_feed_updates (topic : unicode) (fmt : feed_format) (feed_content : string)
    (filter_feed : string -> feed_format -> filtered)
    (rows : gmap (string * string) FeedEntryRecord.t) : updates :=
  match fmt with
  | ARBITRARY => Updates (Str feed_content) [] []
  | _ =>
      match filter_feed feed_content fmt with
      | ParseError => UpdatesParseError
      | EncodingError => UpdatesEncodingError
      | Filtered header_footer entries_map =>
          let all_keys := List.map fst entries_map in
          let existing_entries :=
            List.flat_map
              (fun key_set => FeedEntryRecord.get_entries_for_topic topic key_set rows)
              (py_slices MAX_FEED_ENTRY_RECORD_LOOKUPS all_keys) in
          let existing_dict : gmap string string :=
            List.fold_left
              (fun (d : gmap string string) e =>
                 <[FeedEntryRecord.id_hash e := FeedEntryRecord.entry_content_hash e]> d)
              existing_entries ∅ in
          let changed :=
            List.filter
              (fun p : unicode * unicode =>
                 let '(entry_id, new_content) := p in
                 match existing_dict !! sha1_hash (Unicode entry_id) with
                 | Some old_content_hash =>
                     negb (String.eqb old_content_hash (sha1_hash (Unicode new_content)))
                 | None => true
                 end)
              entries_map in
          Updates (Unicode header_footer)
            (List.map
               (fun p : unicode * unicode =>
                  FeedEntryRecord.create_entry_for_topic
                    topic (fst p) (sha1_hash (Unicode (snd p)))) changed)
            (List.map snd changed)
      end
  end.

(** What goes into one [db.put]. *)
Inductive entity : Type :=
| FeedRecordE (r : FeedRecord.t)
| EventE (e : EventToDeliver.t)
| EntryE (e : FeedEntryRecord.t).

Definition is_event (e : entity) : bool :=
  match e with EventE _ => true | _ => false end.

(** The closure [txn] of [parse_feed] shares [all_entities] with the loop
    that retries it; the id the Datastore gives the event at its first
    [put] stays on the event object when the transaction is rolled back. *)
Record txn_state : Type := mk_txn {
  all_entities : list (list entity);
  event_key : option N;
  ids : N
}.

(** A [db.put] that goes through gives the event its id, if it holds
    the event and the event has none yet. *)
Definition allocate_id (key : option N) (ids : N) (group : list entity) : option N * N :=
  match key with
  | None => if List.existsb is_event group then (Some ids, (ids + 1)%N) else (None, ids)
  | Some _ => (key, ids)
  end.

(** One run of [txn]: [inl] is a commit, with what the transaction wrote;
    [inr] is the exception of a refused [db.put] with the state it leaves. *)
Fixpoint txn (put_refused : list entity -> bool) (groups : list (list entity))
    (key : option N) (ids : N) (written : list entity)
    : (list entity * txn_state) + txn_state :=
  match groups with
  | [] => inl (written, mk_txn [] key ids)
  | group :: rest =>
      if put_refused group then
        let half := Nat.div (List.length group) 2 in
        inr (mk_txn (List.firstn half group :: List.skipn half group :: rest) key ids)
      else
        let '(key, ids) := allocate_id key ids group in
        txn put_refused rest key ids (written ++ group)
  end.

(** [for i in xrange(PUT_SPLITTING_ATTEMPTS)]: [None] when the loop ends
    without a commit. *)
Fixpoint run_attempts (attempts : nat) (put_refused : list entity -> bool)
    (st : txn_state) : option (list entity * txn_state) :=
  match attempts with
  | O => None
  | S attempts' =>
      match txn put_refused (all_entities st) (event_key st) (ids st) [] with
      | inl committed => Some committed
      | inr st' => run_attempts attempts' put_refused st'
      end
  end.

Definition with_key (e : EventToDeliver.t) (k : option N) : EventToDeliver.t :=
  EventToDeliver.mk k (EventToDeliver.topic e) (EventToDeliver.topic_hash e)
    (EventToDeliver.payload e) (EventToDeliver.last_callback e)
    (EventToDeliver.failed_callbacks e) (EventToDeliver.delivery_mode e)
    (EventToDeliver.retry_attempts e) (EventToDeliver.last_modified e)
    (EventToDeliver.totally_failed e) (EventToDeliver.content_type e)
    (EventToDeliver.max_failures e).

(** The writes of a committed transaction reach the Datastore. *)
Definition apply_write (key : option N) (db : feed_store) (e : entity) : feed_store :=
  match e with
  | FeedRecordE r =>
      mk_feed_store (<[FeedRecord.key_name r := r]> (feed_records db))
                    (entry_records db) (event_store db)
  | EntryE r =>
      mk_feed_store (feed_records db)
                    (<[(FeedEntryRecord.parent r, FeedEntryRecord.key_name r) := r]>
                       (entry_records db))
                    (event_store db)
  | EventE ev =>
      match key with
      | Some k =>
          mk_feed_store (feed_records db) (entry_records db)
            (EventToDeliver.mk_store
               (<[k := with_key ev key]> (EventToDeliver.rows (event_store db)))
               (EventToDeliver.next_id (event_store db))
               (EventToDeliver.tasks (event_store db)))
      | None => db
      end
  end.

Definition commit (written : list entity) (st : txn_state)
    (event_to_deliver : option EventToDeliver.t) (env : environ)
    (db : feed_store) : feed_store :=
  let db := List.fold_left (apply_write (event_key st)) written db in
  let events :=
    EventToDeliver.mk_store (EventToDeliver.rows (event_store db)) (ids st)
                            (EventToDeliver.tasks (event_store db)) in
  let events :=
    match event_to_deliver with
    | Some ev => EventToDeliver.enqueue (with_key ev (event_key st)) env events
    | None => events
    end in
  mk_feed_store (feed_records db) (entry_records db) events.

(** The formats tried in turn. *)
Inductive parsed : Type :=
| Parsed (fmt : feed_format) (header_footer : pystr)
         (entities_to_save : list FeedEntryRecord.t) (entry_payloads : list unicode)
| BadEncoding
| Unparsable.

Fixpoint try_formats (order : list feed_format) (topic : unicode) (content : string)
    (filter_feed : string -> feed_format -> filtered)
    (rows : gmap (string * string) FeedEntryRecord.t) : parsed :=
  match order with
  | [] => Unparsable
  | fmt :: order' =>
      match find_feed_updates topic fmt content filter_feed rows with
      | Updates header_footer entities_to_save entry_payloads =>
          Parsed fmt header_footer entities_to_save entry_payloads
      | UpdatesParseError => try_formats order' topic content filter_feed rows
      | UpdatesEncodingError => BadEncoding
      end
  end.

(** What a call came to: the value returned, or an exception that leaves
    the function. *)
Inductive outcome : Type :=
| Return (b : bool)
| Raise.

(** The order in which [parse_feed] tries the formats:
    ['rss' in (feed_record.format or feed_record.content_type or '')]. *)
Definition parse_order (feed_record : FeedRecord.t) : list feed_format :=
  let hint :=
    match FeedRecord.format feed_record with
    | Some f => u (format_name f)
    | None => default [] (FeedRecord.content_type feed_record)
    end in
  if py_contains (u "rss") hint then [RSS; ATOM; ARBITRARY]
  else [ATOM; RSS; ARBITRARY].

(** [parse_feed]. [put_refused] tells the [db.put]s the Datastore refuses
    with [BadRequestError] or [RequestTooLargeError]; a transaction that
    is not refused commits (contention and timeouts are not modelled). *)
Definition parse_feed (feed_record : FeedRecord.t) (headers : gmap string string)
    (content : string) (true_on_bad_feed : bool)
    (filter_feed : string -> feed_format -> filtered)
    (put_refused : list entity -> bool) (now : Z) (env : environ)
    (db : feed_store) : outcome * feed_store :=
  let order := parse_order feed_record in
  match try_formats order (FeedRecord.topic feed_record) content filter_feed
                    (entry_records db) with
  | BadEncoding => (Return true_on_bad_feed, db)
  | Unparsable => (Return true_on_bad_feed, db)
  | Parsed fmt header_footer entities_to_save entry_payloads =>
      let too_many := (MAX_NEW_FEED_ENTRY_RECORDS <? List.length entities_to_save)%nat in
      let entities_to_save :=
        if too_many then List.firstn MAX_NEW_FEED_ENTRY_RECORDS entities_to_save
        else entities_to_save in
      let entry_payloads :=
        if too_many then List.firstn MAX_NEW_FEED_ENTRY_RECORDS entry_payloads
        else entry_payloads in
      let feed_record :=
        if too_many then feed_record
        else FeedRecord.update feed_record headers (Some header_footer) (Some fmt) in
      let parse_successful := negb too_many in
      let created : option (option EventToDeliver.t) :=
        match fmt, entities_to_save with
        | ATOM, [] | RSS, [] => Some None
        | _, _ =>
            match EventToDeliver.create_event_for_topic
                    (FeedRecord.topic feed_record) fmt
                    (FeedRecord.content_type feed_record)
                    header_footer entry_payloads now None with
            | Some ev => Some (Some ev)
            | None => None
            end
        end in
      match created with
      | None => (Raise, db)
      | Some event_to_deliver =>
          let entities_to_save :=
            FeedRecordE feed_record
            :: match event_to_deliver with
               | Some ev => [EventE ev]
               | None => []
               end
            ++ List.map EntryE entities_to_save in
          let groups := py_slices MAX_FEED_RECORD_SAVES entities_to_save in
          match run_attempts PUT_SPLITTING_ATTEMPTS put_refused
                  (mk_txn groups None (EventToDeliver.next_id (event_store db))) with
          | None => (Return true_on_bad_feed, db)
          | Some (written, st) =>
              (Return parse_successful, commit written st event_to_deliver env db)
          end
      end
  end.

(** [PullFeedHandler], for requests the [work_queue_only] guard lets
    through and with no hook on [pull_feed_async]. *)
Module PullFeedHandler.

(** What a fetch of a feed came to: the exception handed to the
    callback, or the response. *)
Inductive fetch_exception : Type :=
| ResponseTooLargeError
| InvalidURLError
| OtherError.

Inductive pull_response : Type :=
| Failed (exception : fetch_exception)
| Answered (status_code : Z) (headers : gmap string string) (content : string).

(** The kinds the callbacks write. *)
Record state : Type := mk_state {
  fetches : FeedToFetch.store;
  records : feed_store
}.

(** How the fetch of one feed ended: [fetch_success], an exception that
    left [parse_feed], or a recursion deeper than the callback allows. *)
Inductive verdict : Type :=
| Fetched (fetch_success : bool)
| ParseRaised
| TooDeep.

Record pulled : Type := mk_pulled {
  requests : list (pystr * gmap string pystr);
  ended : verdict;
  after : state
}.

(** One [pull_feed_async] with its [callback], and the fetches the
    callback issues in turn when it is redirected. [web] answers a
    request for a URL with given headers; [fuel] bounds the recursion. *)
Fixpoint pull (fuel : nat) (web : pystr -> gmap string pystr -> pull_response)
    (filter_feed : string -> feed_format -> filtered)
    (put_refused : list entity -> bool) (now : Z) (env : environ)
    (feed_record : FeedRecord.t) (subscriber_count : option Z)
    (work : FeedToFetch.t) (fetch_url : pystr) (attempts : nat)
    (st : state) : pulled :=
  let request_headers := FeedRecord.get_request_headers feed_record subscriber_count in
  let request := (fetch_url, request_headers) in
  let done (st : state) :=
    mk_state (snd (FeedToFetch.done work (fetches st))) (records st) in
  let fetch_failed (st : state) :=
    mk_state (snd (FeedToFetch.fetch_failed work MAX_FEED_PULL_FAILURES
                     FEED_PULL_RETRY_PERIOD now env (fetches st)))
             (records st) in
  match web fetch_url request_headers with
  | Failed ResponseTooLargeError => mk_pulled [request] (Fetched false) (done st)
  | Failed InvalidURLError => mk_pulled [request] (Fetched false) (done st)
  | Failed OtherError => mk_pulled [request] (Fetched false) (fetch_failed st)
  | Answered status_code headers content =>
      if (status_code =? 200)%Z then
        match parse_feed feed_record headers content true filter_feed put_refused
                         now env (records st) with
        | (Return true, records') =>
            mk_pulled [request] (Fetched true) (done (mk_state (fetches st) records'))
        | (Return false, records') =>
            mk_pulled [request] (Fetched false)
                      (fetch_failed (mk_state (fetches st) records'))
        | (Raise, records') =>
            mk_pulled [request] ParseRaised (mk_state (fetches st) records')
        end
      else
        match (if bool_decide (status_code ∈ [301; 302; 303; 307]) then headers !! "Location"
               else None) with
        | Some location =>
            if (MAX_REDIRECTS <=? attempts)%nat then
              mk_pulled [request] (Fetched false) (fetch_failed st)
            else
              match fuel with
              | S fuel' =>
                  let r :=
                    pull fuel' web filter_feed put_refused now env feed_record
                         subscriber_count work (Str location) (attempts + 1) st in
                  mk_pulled (request :: requests r) (ended r) (after r)
              | O => mk_pulled [request] TooDeep st
              end
        | None =>
            if (status_code =? 304)%Z then mk_pulled [request] (Fetched true) (done st)
            else mk_pulled [request] (Fetched false) (fetch_failed st)
        end
  end.

(** The first loop of [_handle_fetches]: the feeds the scorer allows and
    that have subscribers are kept, the others are [done()]. *)
Definition ready (feed_list : list FeedToFetch.t) (allow : unicode -> bool)
    (subs : Subscription.store) (db : FeedToFetch.store)
    : list FeedToFetch.t * FeedToFetch.store :=
  List.fold_left
    (fun (acc : list FeedToFetch.t * FeedToFetch.store) to_fetch =>
       let '(ready_feed_list, db) := acc in
       if negb (allow (FeedToFetch.topic to_fetch)) then
         (ready_feed_list, snd (FeedToFetch.done to_fetch db))
       else if negb (Subscription.has_subscribers (FeedToFetch.topic to_fetch) subs) then
         (ready_feed_list, snd (FeedToFetch.done to_fetch db))
       else (ready_feed_list ++ [to_fetch], db))
    feed_list ([], db).

(** The fetches of the feeds that are ready, their callbacks run in the
    order the fetches were issued; an exception ends the request. *)
Fixpoint pull_all (web : pystr -> gmap string pystr -> pull_response)
    (filter_feed : string -> feed_format -> filtered)
    (put_refused : list entity -> bool) (now : Z) (env : environ)
    (jobs : list (FeedToFetch.t * FeedRecord.t * KnownFeedStats.t))
    (st : state) : list pulled :=
  match jobs with
  | [] => []
  | (work, feed_record, feed_stats) :: jobs' =>
      let r :=
        pull MAX_REDIRECTS web filter_feed put_refused now env feed_record
             (KnownFeedStats.subscriber_count feed_stats) work
             (Unicode (FeedToFetch.topic work)) 1 st in
      match ended r with
      | Fetched _ => r :: pull_all web filter_feed put_refused now env jobs' (after r)
      | _ => [r]
      end
  end.

(** [_handle_fetches(feed_list)]: what each fetch came to, and the
    Datastore; [None] when [KnownFeedStats.get_or_create_all] raises. *)
Definition _handle_fetches (feed_list : list FeedToFetch.t) (allow : unicode -> bool)
    (web : pystr -> gmap string pystr -> pull_response)
    (filter_feed : string -> feed_format -> filtered)
    (put_refused : list entity -> bool) (now : Z) (env : environ)
    (subs : Subscription.store) (stats : gmap string KnownFeedStats.t)
    (st : state) : option (list pulled * state) :=
  let '(ready_feed_list, db) := ready feed_list allow subs (fetches st) in
  let st := mk_state db (records st) in
  match ready_feed_list with
  | [] => Some ([], st)
  | _ :: _ =>
      let topic_list := List.map FeedToFetch.topic ready_feed_list in
      let feed_record_list :=
        FeedRecord.get_or_create_all topic_list (feed_records (records st)) in
      match KnownFeedStats.get_or_create_all topic_list stats with
      | None => None
      | Some feed_stats_list =>
          let jobs :=
            List.map (fun p : FeedToFetch.t * (FeedRecord.t * KnownFeedStats.t) =>
                        (fst p, fst (snd p), snd (snd p)))
                     (zip ready_feed_list (zip feed_record_list feed_stats_list)) in
          let results := pull_all web filter_feed put_refused now env jobs st in
          Some (results, List.last (List.map after results) st)
      end
  end.

(** [post]: the task names a topic, or ([topic] empty) the work comes
    from the fork-join queue, [work_list] being what [pop_request] gives. *)
Definition post (topic : unicode) (work_list : list FeedToFetch.t)
    (allow : unicode -> bool)
    (web : pystr -> gmap string pystr -> pull_response)
    (filter_feed : string -> feed_format -> filtered)
    (put_refused : list entity -> bool) (now : Z) (env : environ)
    (subs : Subscription.store) (stats : gmap string KnownFeedStats.t)
    (st : state) : option (list pulled * state) :=
  match topic with
  | _ :: _ =>
      match FeedToFetch.get_by_topic topic (fetches st) with
      | None => Some ([], st)
      | Some work =>
          _handle_fetches [work] allow web filter_feed put_refused now env subs stats st
      end
  | [] =>
      _handle_fetches work_list allow web filter_feed put_refused now env subs stats st
  end.

End PullFeedHandler.

(** [take_polling_action(topic_list, poll_type)]: the Datastore and task
    queue, and the calls on the fork-join queue. *)
Definition take_polling_action (topic_list : list unicode) (poll_type : unicode)
    (env : environ) (next_index : Z) (now : Z) (db : FeedToFetch.store)
    : FeedToFetch.store * list FeedToFetch.fork_join_call :=
  if bool_decide (poll_type = u "record") then
    (FeedToFetch.mk_store (FeedToFetch.rows db)
       (FeedToFetch.tasks db ++ List.map KnownFeed.record topic_list),
     [])
  else
    let '(_, db, calls) :=
      FeedToFetch.insert topic_list [] false env next_index now db in
    (db, calls).

(** ** Publishing handlers *)

Module PublishHandlerBase.

(** [set(normalize_iri(u) for u in urls)], each result read as text (a
    byte string that [normalize_iri] returns is ASCII and is the same key
    as the text of the same characters). *)
Fixpoint normalize_all (urls : list unicode) : option (list unicode) :=
  match urls with
  | [] => Some []
  | url :: urls' =>
      match normalize_iri (Unicode url), normalize_all urls' with
      | Some normalized, Some rest => Some (codes normalized :: rest)
      | _, _ => None
      end
  end.

(** [receive_publish(urls, success_code, param_name)] with no hook on
    [preprocess_urls] and [derive_sources]: the status set on the
    response and the message returned, with the Datastore and the calls
    on the fork-join queue. [urls] is gone through in the order given;
    [None] is an exception that leaves the function. *)
Definition receive_publish (urlparse : unicode -> url_parts)
    (server_software : option string)
    (urls : list unicode) (success_code : Z) (param_name : string)
    (env : environ) (next_index : Z) (now : Z)
    (feeds : gmap string KnownFeed.t) (ids : gmap string KnownFeedIdentity.t)
    (db : FeedToFetch.store)
    : option ((Z * unicode) * FeedToFetch.store * list FeedToFetch.fork_join_call) :=
  match List.find (fun url => negb (is_valid_url urlparse server_software url)) urls with
  | Some url => Some ((400, u param_name ++ u " invalid: " ++ url), db, [])
  | None =>
      match normalize_all urls with
      | None => None
      | Some urls =>
          let topic_map := KnownFeedIdentity.derive_additional_topics urls feeds ids in
          let urls : gset unicode := union_list (List.map snd (map_to_list topic_map)) in
          let '(_, db, calls) :=
            FeedToFetch.insert (elements urls) [] true env next_index now db in
          Some ((success_code, []), db, calls)
      end
  end.

End PublishHandlerBase.

(** ** Hook system *)

(** [HookManager] for the hooks of functions of one signature: [A] is
    what a hooked function is called with, [R] what it returns. A hooked
    function is known by its name. *)
Module HookManager.

Section Hooks.

Context {A R : Type}.

(** A [Hook]: [inspect] gives its verdict and the arguments as it leaves
    them (it may modify them in place), [call] is [__call__]. *)
Record Hook : Type := {
  inspect : A -> bool * A;
  call : A -> R
}.

(** [self._mapping]: hooked functions to their [(filename, Hook)] lists. *)
Definition t : Type := gmap string (list (string * Hook)).







End Hooks.

End HookManager.

(** ** Vocabulary of the statements *)

(** Every row of a kind is stored under its own key, as the Datastore
    keeps it. *)
Definition subscriptions_keyed (db : Subscription.store) : Prop :=
  forall k sub, Subscription.rows db !! k = Some sub -> Subscription.key_name sub = k.

Definition fetches_keyed (db : FeedToFetch.store) : Prop :=
  forall k f, FeedToFetch.rows db !! k = Some f -> FeedToFetch.key_name f = k.

(** A task was added at the end of the queue, due at [due]. *)
Definition scheduled (before after : list Task) (due : Z) : Prop :=
  exists k, after = before ++ [k] /\ task_eta k = Some due.

(** The key a delivery is signed with, in the words of the protocol: the
    subscription's secret when it has one, else its verify token when it
    has one, else the empty string. *)
Definition signature_key (sub : Subscription.t) : unicode :=
  match Subscription.secret sub with
  | Some (c :: t) => c :: t
  | _ =>
      match Subscription.verify_token sub with
      | Some (c :: t) => c :: t
      | _ => []
      end
  end.

(** Order of two subscriptions by [callback_hash]. *)
Definition hash_le (a b : Subscription.t) : Prop :=
  String.leb (Subscription.callback_hash a) (Subscription.callback_hash b) = true.



Definition identities_keyed (ids : gmap string KnownFeedIdentity.t) : Prop :=
  forall k i, ids !! k = Some i -> KnownFeedIdentity.key_name i = k.

(** The aliases recorded under a feed id. *)
Definition aliases (ids : gmap string KnownFeedIdentity.t) (feed_id : unicode)
    : list unicode :=
  match ids !! KnownFeedIdentity.create_key feed_id with
  | Some i => KnownFeedIdentity.topics i
  | None => []
  end.

(** The Datastore key of an entry record. *)
Definition entry_key (r : FeedEntryRecord.t) : string * string :=
  (FeedEntryRecord.parent r, FeedEntryRecord.key_name r).

(** The record [find_feed_updates] makes for an entry of the feed, and
    the hash of its id. *)
Definition entry_record (topic : unicode) (p : unicode * unicode) : FeedEntryRecord.t :=
  FeedEntryRecord.create_entry_for_topic topic (fst p) (sha1_hash (Unicode (snd p))).

Definition entry_id_hash (p : unicode * unicode) : string :=
  sha1_hash (Unicode (fst p)).

(** The format [parse_feed] tries first. *)
Definition first_format (feed_record : FeedRecord.t) : feed_format :=
  List.hd ATOM (parse_order feed_record).

(** The rows a query ranges over. *)
Definition selected (topic starting_at_callback : unicode) (sub : Subscription.t) : bool :=
  String.eqb (Subscription.topic_hash sub) (sha1_hash (Unicode topic))
  && match Subscription.subscription_state sub with
     | Subscription.STATE_VERIFIED => true
     | _ => false
     end
  && match starting_at_callback with
     | [] => true
     | _ :: _ =>
         String.leb (sha1_hash (Unicode starting_at_callback))
                    (Subscription.callback_hash sub)
     end.

(** What every row of the kind satisfies once written by [insert] or
    [request_insert]: its [callback_hash] is the hash of its callback. *)
Definition callbacks_hashed (db : Subscription.store) : Prop :=
  forall k sub, Subscription.rows db !! k = Some sub ->
    Subscription.callback_hash sub = sha1_hash (Unicode (Subscription.callback sub)).

(** The digits of a hexadecimal digest. *)
Definition hex_digits : list ascii := list_ascii_of_string "0123456789abcdef".

(** The topics for which a [KnownFeed] is found. *)
Definition known_topic (topics : list unicode) (feeds : gmap string KnownFeed.t)
    (k : unicode) : Prop :=
  exists t feed,
    t ∈ topics /\ feeds !! KnownFeed.create_key t = Some feed
    /\ KnownFeed.topic feed = k.

(** The code units [normalize_iri] makes of text. *)
Definition escaped (t : unicode) : list N :=
  List.flat_map (fun c => codes (chr_or_escape c)) t.

(** The mode and the secret the worker of the [subscriptions] queue
    confirms with. *)
Definition mode_of (next_state : Subscription.state) : string :=
  match next_state with
  | Subscription.STATE_TO_DELETE => "unsubscribe"
  | _ => "subscribe"
  end.

Definition secret_of (secret : unicode) : option unicode :=
  match secret with [] => None | _ :: _ => Some secret end.

(** A [FeedToFetch] as [insert] makes it. *)
Definition fresh_fetch (now : Z) (work_index : option Z) (k : string)
    (f : FeedToFetch.t) : Prop :=
  FeedToFetch.key_name f = k /\ FeedToFetch.fetching_failures f = 0%nat
  /\ FeedToFetch.totally_failed f = false /\ FeedToFetch.eta f = now
  /\ FeedToFetch.work_index f = work_index.

(** A web on which every URL redirects. *)
Definition redirects_for_ever (web : pystr -> gmap string pystr -> PullFeedHandler.pull_response)
    : Prop :=
  forall url request_headers,
    exists headers content location,
      web url request_headers = PullFeedHandler.Answered 302 headers content
      /\ headers !! "Location" = Some location.

(** The text of a network location after its first colon. *)
Fixpoint after_colon (t : unicode) : unicode :=
  match t with
  | [] => []
  | c :: t' => if (c =? 58)%N then t' else after_colon t'
  end.

(** The document of a feed event: the XML declaration, the envelope up to
    its closing tag, the entries in their order and the closing tag, one
    to a line. *)
Definition spliced (header_footer : unicode) (close_index : nat)
    (entry_payloads : list unicode) : unicode :=
  intersperse (u EventToDeliver.newline)
    ([u EventToDeliver.xml_declaration; List.firstn close_index header_footer]
     ++ entry_payloads ++ [List.skipn close_index header_footer]).



(** The two passes of [RecordFeedHandler.post] over a document: it is
    identified as Atom first, and as RSS when that pass found no feed id
    or raised. *)
Definition passes_on (found : RecordFeedHandler.identified) : Prop :=
  found = RecordFeedHandler.FeedId None \/ found = RecordFeedHandler.IdentifyError.

Definition finds_feed_id (identify : string -> feed_format -> RecordFeedHandler.identified)
    (content : string) (feed_id : unicode) : Prop :=
  identify content ATOM = RecordFeedHandler.FeedId (Some feed_id)
  \/ (passes_on (identify content ATOM)
      /\ identify content RSS = RecordFeedHandler.FeedId (Some feed_id)).

(** No pass finds a feed id, or the one found is empty. *)
Definition finds_no_feed_id
    (identify : string -> feed_format -> RecordFeedHandler.identified)
    (content : string) : Prop :=
  finds_feed_id identify content []
  \/ (passes_on (identify content ATOM) /\ passes_on (identify content RSS)).

(** ** Sample data *)

Definition sample_fetch (eta : Z) : FeedToFetch.t :=
  FeedToFetch.mk (get_hash_key_name (Unicode (u "http://y.test/f")))
                 (u "http://y.test/f") eta 0 false [] [] None.

Definition sample_fetches (eta : Z) : FeedToFetch.store :=
  FeedToFetch.put (sample_fetch eta) (FeedToFetch.mk_store ∅ []).

Definition sample_topic : unicode := u "http://y.test/f".
Definition sample_callback : unicode := u "http://x.test/cb".

Definition no_subscriptions : Subscription.store := Subscription.mk_store ∅ [].

(** A store with one verified subscription, written by [insert]. *)
Definition one_subscription : Subscription.store :=
  snd (Subscription.insert sample_callback sample_topic (u "tok") None 432000 1000
                           no_subscriptions).

Definition sample_subscription (failures : nat) : Subscription.t :=
  Subscription.mk (Subscription.create_key_name sample_callback sample_topic)
    sample_callback (sha1_hash (Unicode sample_callback))
    sample_topic (sha1_hash (Unicode sample_topic))
    432000 433000 1000 failures (Some (u "tok")) None None
    Subscription.STATE_NOT_VERIFIED.

Definition sample_event (mode : EventToDeliver.mode) (attempts : nat)
    (failed : list string) : EventToDeliver.t :=
  EventToDeliver.mk (Some 7%N) sample_topic (sha1_hash (Unicode sample_topic))
    "<feed/>" [] failed mode attempts 900 false None None.

Definition no_events : EventToDeliver.store := EventToDeliver.mk_store ∅ 8 [].

(** Subscribers [http://s.test/0] ... [http://s.test/(n-1)] of the sample
    topic, every one of which answers 500. *)
Definition crowd (n : nat) : Subscription.store :=
  List.fold_left
    (fun db i =>
       snd (Subscription.insert (u (String.append "http://s.test/" (pretty i)))
                                sample_topic (u "tok") None 432000 1000 db))
    (List.seq 0 n) no_subscriptions.



Definition sample_feed_id : unicode := u "tag:y.test,2026:feed".
Definition sample_alias : unicode := u "http://y.test/atom".

Definition one_known_feed : gmap string KnownFeed.t :=
  {[ KnownFeed.create_key sample_topic :=
       KnownFeed.mk (KnownFeed.create_key sample_topic) sample_topic
                    (Some sample_feed_id) ]}.

(** The identities after [update(F, T1)] and [update(F, T2)] on an empty
    Datastore. *)
Definition two_aliases : gmap string KnownFeedIdentity.t :=
  snd (KnownFeedIdentity.update sample_feed_id sample_alias 20
         (snd (KnownFeedIdentity.update sample_feed_id sample_topic 10 ∅))).

Definition fresh_record : FeedRecord.t :=
  FeedRecord.mk (FeedRecord.create_key_name sample_topic) sample_topic
                None None None None None.

Definition fresh_feed_store : feed_store :=
  mk_feed_store ∅ ∅ (EventToDeliver.mk_store ∅ 1 []).

(** An Atom feed with the entries [tag:y.test,1] ... [tag:y.test,n]. *)
Definition sample_entry (i : nat) : unicode * unicode :=
  (u (String.append "tag:y.test," (pretty i)),
   u (String.concat "" ["<entry><id>tag:y.test,"; pretty i; "</id></entry>"])).

Definition atom_feed (n : nat) (content : string) (fmt : feed_format) : filtered :=
  match fmt with
  | ATOM => Filtered (u "<feed></feed>") (List.map sample_entry (List.seq 1 n))
  | _ => ParseError
  end.

(** Two Datastores: one refuses a [put] whose entities hold more than
    [limit] bytes of envelope, payload and hashes, the other a [put] of
    more than [limit] entities. *)
Definition entity_size (e : entity) : nat :=
  match e with
  | FeedRecordE r =>
      match FeedRecord.header_footer r with
      | Some h => List.length (codes h)
      | None => 0
      end
  | EventE ev => String.length (EventToDeliver.payload ev)
  | EntryE r => String.length (FeedEntryRecord.entry_content_hash r)
  end.

Definition over_size (limit : nat) (group : list entity) : bool :=
  (limit <? list_sum (List.map entity_size group))%nat.

Definition over_count (limit : nat) (group : list entity) : bool :=
  (limit <? List.length group)%nat.

Definition burst : list (unicode * unicode) := List.map sample_entry (List.seq 1 250).



(** A web that sends every request back to the same URL. *)
Definition looping_web (url : pystr) (request_headers : gmap string pystr)
    : PullFeedHandler.pull_response :=
  PullFeedHandler.Answered 302 {[ "Location" := "http://y.test/f" ]} "".

(** A parser for the sample URLs: the scheme is [http], the network
    location is given. *)
Definition sample_urlparse (netloc : string) (url : unicode) : url_parts :=
  {| scheme := u "http"; netloc := u netloc; fragment := [] |}.

(** The Datastore after a first fetch of the sample feed with two entries. *)
Definition fetched_once : feed_store :=
  snd (parse_feed fresh_record ∅ "body" true (atom_feed 2) (fun _ => false) 5000 None
                  fresh_feed_store).

(** The row of [one_subscription]. *)
Definition stored_subscription : Subscription.t :=
  Subscription.mk (Subscription.create_key_name sample_callback sample_topic)
    sample_callback (sha1_hash (Unicode sample_callback))
    sample_topic (sha1_hash (Unicode sample_topic))
    432000 433000 1000 0 (Some (u "tok")) None None Subscription.STATE_VERIFIED.

(** A store whose one subscription has already failed four confirmations. *)
Definition failing_subscription : Subscription.store :=
  Subscription.put (sample_subscription 4) no_subscriptions.

Definition new_feed_id : unicode := u "tag:y.test,2026:new".

(** An identification that fails on Atom and finds a feed id in RSS. *)
Definition identifies_anew (content : string) (fmt : feed_format)
    : RecordFeedHandler.identified :=
  match fmt with
  | RSS => RecordFeedHandler.FeedId (Some new_feed_id)
  | _ => RecordFeedHandler.IdentifyError
  end.

(** The document of the sample feed with the entries numbered in [l]. *)
Definition sample_document (l : list nat) : string :=
  String.concat EventToDeliver.newline
    ([EventToDeliver.xml_declaration; "<feed>"]
     ++ List.map (fun i => String.concat "" ["<entry><id>tag:y.test,"; pretty i;
                                             "</id></entry>"]) l
     ++ ["</feed>"]).

(** Two fetches in a row of the sample feed with 250 entries, all new. *)
Definition first_fetch : outcome * feed_store :=
  parse_feed fresh_record ∅ "body" true (atom_feed 250) (fun _ => false) 5000 None
             fresh_feed_store.

Definition second_fetch : outcome * feed_store :=
  parse_feed fresh_record ∅ "body" true (atom_feed 250) (fun _ => false) 6000 None
             (snd first_fetch).

(** * Properties *)

(** ** Reference vectors for the hash functions (FIPS 180, RFC 2202 style) *)

Example sha1_abc : SHA1.hexdigest "abc" = "a9993e364706816aba3e25717850c26c9cd0d89d".
Proof. vm_compute. reflexivity. Qed.

Example sha1_empty : SHA1.hexdigest "" = "da39a3ee5e6b4b0d3255bfef95601890afd80709".
Proof. vm_compute. reflexivity. Qed.

Example sha1_two_blocks :
  SHA1.hexdigest "abcdbcdecdefdefgefghfghighijhijkijkljklmklmnlmnomnopnopq"
  = "84983e441c3bd26ebaae4aa1f95129e5e54670f1".
Proof. vm_compute. reflexivity. Qed.

Example hmac_fox :
  SHA1.hmac_hexdigest "key" "The quick brown fox jumps over the lazy dog"
  = "de7c9b85b8b78aa6bc8a7a36f70a90701c9db4d9".
Proof. vm_compute. reflexivity. Qed.

Example hmac_empty :
  SHA1.hmac_hexdigest "" "" = "fbdb1d1b18aa6c08324b7d64b71fb76370690e1d".
Proof. vm_compute. reflexivity. Qed.

Example utf8_two_bytes : utf8_encode [0xE9%N] = string_of_bytes [0xC3%N; 0xA9%N].
Proof. reflexivity. Qed.

Example utf8_three_bytes : utf8_encode [0x20AC%N] = string_of_bytes [0xE2%N; 0x82%N; 0xAC%N].
Proof. reflexivity. Qed.

(** ** FeedToFetch.done *)

(** C4. [done()] deletes the stored [FeedToFetch] exactly when a row exists
    under the key of [self] and its [eta] equals that of [self]; it returns
    [True] exactly then, and otherwise returns [False] and leaves the
    Datastore as it was. *)
Theorem done_deletes_iff_eta_unchanged (self : FeedToFetch.t) (db : FeedToFetch.store) :
  fetches_keyed db ->
  let r := FeedToFetch.done self db in
  (fst r = true <->
   exists other,
     FeedToFetch.rows db !! FeedToFetch.key_name self = Some other
     /\ FeedToFetch.eta other = FeedToFetch.eta self)
  /\ (fst r = true ->
      FeedToFetch.rows (snd r) = base.delete (FeedToFetch.key_name self) (FeedToFetch.rows db)
      /\ FeedToFetch.tasks (snd r) = FeedToFetch.tasks db)
  /\ (fst r = false -> snd r = db).
Proof.
  intros Hkeyed. cbv zeta. unfold FeedToFetch.done.
  destruct (FeedToFetch.rows db !! FeedToFetch.key_name self) as [other|] eqn:Hrow.
  - pose proof (Hkeyed _ _ Hrow) as Hkey.
    destruct (Z.eqb_spec (FeedToFetch.eta other) (FeedToFetch.eta self)) as [Heta|Heta]; simpl.
    + repeat split; try congruence; eauto.
    + repeat split; try congruence.
      intros (other' & Hsome & Heq). congruence.
  - simpl. repeat split; try congruence.
    intros (other' & Hsome & _). congruence.
Qed.

Lemma sample_fetches_keyed (eta : Z) : fetches_keyed (sample_fetches eta).
Proof.
  intros k f. unfold sample_fetches, FeedToFetch.put; simpl.
  intros H. apply lookup_insert_Some in H as [[<- <-]|[_ H]]; [reflexivity|].
  rewrite lookup_empty in H. discriminate.
Defined.

Lemma done_deletes_iff_eta_unchanged_witness :
  fst (FeedToFetch.done (sample_fetch 10) (sample_fetches 10)) = true
  /\ fst (FeedToFetch.done (sample_fetch 10) (sample_fetches 25)) = false.
Proof.
  pose proof (done_deletes_iff_eta_unchanged (sample_fetch 10) (sample_fetches 10)
                (sample_fetches_keyed 10)) as [H _].
  split.
  - apply H. exists (sample_fetch 10). split; [|reflexivity].
    unfold sample_fetches, FeedToFetch.put; simpl. apply lookup_insert_eq.
  - vm_compute. reflexivity.
Defined.

(** ** Subscription *)

Lemma put_keyed (sub : Subscription.t) (db : Subscription.store) :
  subscriptions_keyed db -> subscriptions_keyed (Subscription.put sub db).
Proof.
  intros Hdb k s. unfold Subscription.put; simpl. intros H.
  apply lookup_insert_Some in H as [[<- <-]|[_ H]]; [reflexivity|].
  exact (Hdb _ _ H).
Defined.

Lemma no_subscriptions_keyed : subscriptions_keyed no_subscriptions.
Proof. intros k s H. simpl in H. rewrite lookup_empty in H. discriminate. Defined.

Lemma one_subscription_keyed : subscriptions_keyed one_subscription.
Proof.
  unfold one_subscription, Subscription.insert, Subscription.get_by_key_name.
  simpl. rewrite lookup_empty. simpl.
  apply put_keyed, no_subscriptions_keyed.
Defined.



(** C10. When [confirm_failures] has reached [max_failures],
    [confirm_failed] returns [False] and the instance, the rows and the
    task queue are what they were. *)
Theorem confirm_failed_gives_up_untouched
    (self : Subscription.t) (next_state : Subscription.state) (verify_token : unicode)
    (auto_reconfirm : bool) (secret : option unicode)
    (max_failures retry_period now : Z) (db : Subscription.store) :
  max_failures <= Z.of_nat (Subscription.confirm_failures self) ->
  Subscription.confirm_failed self next_state verify_token auto_reconfirm secret
                              max_failures retry_period now db
  = (false, self, db).
Proof.
  intros Hmax. unfold Subscription.confirm_failed.
  destruct (Z.geb_spec (Z.of_nat (Subscription.confirm_failures self)) max_failures);
    [reflexivity | lia].
Qed.

Lemma confirm_failed_gives_up_untouched_witness :
  Subscription.confirm_failed (sample_subscription 4) Subscription.STATE_VERIFIED
    (u "tok") true None MAX_SUBSCRIPTION_CONFIRM_FAILURES SUBSCRIPTION_RETRY_PERIOD 5000
    one_subscription
  = (false, sample_subscription 4, one_subscription).
Proof.
  apply (confirm_failed_gives_up_untouched (sample_subscription 4)).
  unfold MAX_SUBSCRIPTION_CONFIRM_FAILURES. simpl. lia.
Defined.

(** ** confirm_subscription *)

Lemma archive_lookup (callback topic : unicode) (db : Subscription.store)
    (old : Subscription.t) :
  subscriptions_keyed db ->
  Subscription.rows db !! Subscription.create_key_name callback topic = Some old ->
  exists sub,
    Subscription.rows (Subscription.archive callback topic db)
      !! Subscription.create_key_name callback topic = Some sub
    /\ Subscription.subscription_state sub = Subscription.STATE_TO_DELETE
    /\ Subscription.confirm_failures sub = 0%nat.
Proof.
  intros Hkeyed Hold. unfold Subscription.archive, Subscription.get_by_key_name.
  rewrite Hold. unfold Subscription.put; simpl.
  rewrite (Hkeyed _ _ Hold). eexists. split; [apply lookup_insert_eq|].
  split; reflexivity.
Qed.

Lemma remove_lookup (callback topic : unicode) (db : Subscription.store) :
  subscriptions_keyed db ->
  Subscription.rows (snd (Subscription.remove callback topic db))
    !! Subscription.create_key_name callback topic = None.
Proof.
  intros Hkeyed. unfold Subscription.remove, Subscription.get_by_key_name.
  destruct (Subscription.rows db !! Subscription.create_key_name callback topic)
    as [old|] eqn:Hold; simpl; [|exact Hold].
  rewrite (Hkeyed _ _ Hold). apply lookup_delete_eq.
Qed.

Lemma insert_lookup (callback topic verify_token : unicode) (secret : option unicode)
    (lease now : Z) (db : Subscription.store) :
  subscriptions_keyed db ->
  exists sub,
    Subscription.rows (snd (Subscription.insert callback topic verify_token secret lease now db))
      !! Subscription.create_key_name callback topic = Some sub
    /\ Subscription.subscription_state sub = Subscription.STATE_VERIFIED
    /\ Subscription.expiration_time sub = now + lease.
Proof.
  intros Hkeyed. unfold Subscription.insert, Subscription.get_by_key_name.
  destruct (Subscription.rows db !! Subscription.create_key_name callback topic)
    as [old|] eqn:Hold; unfold Subscription.put; simpl.
  - rewrite (Hkeyed _ _ Hold). eexists. split; [apply lookup_insert_eq|].
    split; reflexivity.
  - eexists. split; [apply lookup_insert_eq|]. split; reflexivity.
Qed.

Lemma archive_frame (callback topic : unicode) (db : Subscription.store) :
  subscriptions_keyed db ->
  let key := Subscription.create_key_name callback topic in
  (Subscription.rows db !! key = None -> Subscription.archive callback topic db = db)
  /\ (forall k, k <> key ->
        Subscription.rows (Subscription.archive callback topic db) !! k
        = Subscription.rows db !! k)
  /\ Subscription.tasks (Subscription.archive callback topic db) = Subscription.tasks db.
Proof.
  intros Hkeyed. cbv zeta. unfold Subscription.archive, Subscription.get_by_key_name.
  destruct (Subscription.rows db !! Subscription.create_key_name callback topic)
    as [old|] eqn:Hold.
  - split; [discriminate|]. unfold Subscription.put; cbn.
    rewrite (Hkeyed _ _ Hold). split; [|reflexivity].
    intros k Hk. apply lookup_insert_ne. congruence.
  - repeat split.
Qed.

(** C3. [confirm_subscription] returns [True] exactly when the
    verification GET came back 2xx with the challenge as its body, or the
    mode is ['subscribe'] and it came back 404. In the first case a
    subscribe leaves the row verified (expiring after the capped lease) and
    any other mode leaves no row. In the second the row, when there is one,
    is left in state [to_delete], and when there is none the Datastore is
    as it was; no other row and no task changes. Whenever [False] is
    returned (a fetch error among the cases) the Datastore and the queue
    are unchanged. *)
Theorem confirm_subscription_outcome
    (mode : string) (topic callback verify_token : unicode) (secret : option unicode)
    (lease : Z) (record_topic : bool) (challenge : string) (response : fetch_result)
    (now : Z) (db : Subscription.store) :
  subscriptions_keyed db ->
  let key := Subscription.create_key_name callback topic in
  let r := confirm_subscription mode topic callback verify_token secret lease
                                record_topic challenge response now db in
  (fst r = true <->
   exists status content,
     response = Response status content
     /\ ((200 <= status < 300 /\ content = challenge)
         \/ (mode = "subscribe" /\ status = 404)))
  /\ (forall status,
        response = Response status challenge -> 200 <= status < 300 ->
        mode = "subscribe" ->
        exists sub,
          Subscription.rows (snd r) !! key = Some sub
          /\ Subscription.subscription_state sub = Subscription.STATE_VERIFIED
          /\ Subscription.expiration_time sub = now + Z.min lease MAX_LEASE_SECONDS)
  /\ (forall status,
        response = Response status challenge -> 200 <= status < 300 ->
        mode <> "subscribe" ->
        Subscription.rows (snd r) !! key = None)
  /\ (forall content,
        response = Response 404 content -> mode = "subscribe" ->
        (forall old,
           Subscription.rows db !! key = Some old ->
           exists sub,
             Subscription.rows (snd r) !! key = Some sub
             /\ Subscription.subscription_state sub = Subscription.STATE_TO_DELETE)
        /\ (Subscription.rows db !! key = None -> snd r = db)
        /\ (forall k, k <> key ->
              Subscription.rows (snd r) !! k = Subscription.rows db !! k)
        /\ Subscription.tasks (snd r) = Subscription.tasks db)
  /\ (fst r = false -> snd r = db).
Proof.
  intros Hkeyed. cbv zeta. unfold confirm_subscription.
  destruct response as [|status content].
  { cbn. repeat split; try discriminate.
    intros (s & c & H & _). discriminate. }
  destruct ((200 <=? status)%Z && (status <? 300)%Z && String.eqb content challenge)
    eqn:Hok.
  - (* 2xx with the challenge echoed *)
    apply andb_prop in Hok as [Hr Hbody]. apply andb_prop in Hr as [Hlo Hhi].
    apply Z.leb_le in Hlo. apply Z.ltb_lt in Hhi. apply String.eqb_eq in Hbody.
    subst content.
    destruct (String.eqb_spec mode "subscribe") as [Hmode|Hmode].
    + pose proof (insert_lookup callback topic verify_token secret
                    (Z.min lease MAX_LEASE_SECONDS) now db Hkeyed) as Hl.
      destruct (Subscription.insert _ _ _ _ _ _ _) as [isnew db'].
      cbn [fst snd] in *.
      split; [split; [intros _; exists status, challenge; split; [reflexivity|left; split; [lia|reflexivity]]|reflexivity]|].
      split; [intros s Heq _ _; destruct record_topic; exact Hl|].
      split; [intros s _ _ Hm; contradiction|].
      split; [intros c Heq; injection Heq as -> _; lia|].
      discriminate.
    + pose proof (remove_lookup callback topic db Hkeyed) as Hl.
      destruct (Subscription.remove _ _ _) as [gone db'].
      cbn [fst snd] in *.
      split; [split; [intros _; exists status, challenge; split; [reflexivity|left; split; [lia|reflexivity]]|reflexivity]|].
      split; [intros s _ _ Hm; contradiction|].
      split; [intros s _ _ _; exact Hl|].
      split; [intros c _ Hm; contradiction|].
      discriminate.
  - destruct (String.eqb_spec mode "subscribe") as [Hmode|Hmode];
      destruct (Z.eqb_spec status 404) as [H404|H404]; cbn [andb fst snd].
    + (* subscribe answered 404 *)
      subst status. cbn in Hok.
      split; [split; [intros _; exists 404, content; split; [reflexivity|right; split; [assumption|reflexivity]]|reflexivity]|].
      split; [intros s Heq Hrange; injection Heq as <- _; lia|].
      split; [intros s Heq Hrange; injection Heq as <- _; lia|].
      split.
      { intros c _ _.
        destruct (archive_frame callback topic db Hkeyed) as (Hnone & Hother & Htasks).
        split; [|split; [exact Hnone|split; [exact Hother|exact Htasks]]].
        intros old Hold.
        destruct (archive_lookup callback topic db old Hkeyed Hold)
          as (sub & Hsub & Hst & _).
        exists sub. split; assumption. }
      discriminate.
    + split; [split; [discriminate|]|].
      { intros (s & c & Heq & [[Hr Hc]|[_ Hs]]); injection Heq as <- <-; [|lia].
        subst content. rewrite String.eqb_refl in Hok.
        destruct Hr as [Hlo Hhi]. apply Z.leb_le in Hlo. apply Z.ltb_lt in Hhi.
        rewrite Hlo, Hhi in Hok. discriminate. }
      split; [intros s Heq [Hlo Hhi]; injection Heq as <- <-;
              apply Z.leb_le in Hlo; apply Z.ltb_lt in Hhi;
              rewrite Hlo, Hhi, String.eqb_refl in Hok; discriminate|].
      split; [intros s _ _ Hm; contradiction|].
      split; [intros c Heq; injection Heq as -> _; contradiction|].
      reflexivity.
    + split; [split; [discriminate|]|].
      { intros (s & c & Heq & [[Hr Hc]|[Hm _]]); injection Heq as <- <-; [|contradiction].
        subst content. rewrite String.eqb_refl in Hok.
        destruct Hr as [Hlo Hhi]. apply Z.leb_le in Hlo. apply Z.ltb_lt in Hhi.
        rewrite Hlo, Hhi in Hok. discriminate. }
      split; [intros s _ _ Hm; contradiction|].
      split; [intros s Heq [Hlo Hhi]; injection Heq as <- <-;
              apply Z.leb_le in Hlo; apply Z.ltb_lt in Hhi;
              rewrite Hlo, Hhi, String.eqb_refl in Hok; discriminate|].
      split; [intros c _ Hm; contradiction|].
      reflexivity.
    + split; [split; [discriminate|]|].
      { intros (s & c & Heq & [[Hr Hc]|[Hm _]]); injection Heq as <- <-; [|contradiction].
        subst content. rewrite String.eqb_refl in Hok.
        destruct Hr as [Hlo Hhi]. apply Z.leb_le in Hlo. apply Z.ltb_lt in Hhi.
        rewrite Hlo, Hhi in Hok. discriminate. }
      split; [intros s _ _ Hm; contradiction|].
      split; [intros s Heq [Hlo Hhi]; injection Heq as <- <-;
              apply Z.leb_le in Hlo; apply Z.ltb_lt in Hhi;
              rewrite Hlo, Hhi, String.eqb_refl in Hok; discriminate|].
      split; [intros c _ Hm; contradiction|].
      reflexivity.
Qed.

Lemma confirm_subscription_outcome_witness :
  fst (confirm_subscription "subscribe" sample_topic sample_callback (u "tok") None
         432000 true "challenge" (Response 204 "challenge") 2000 one_subscription) = true
  /\ fst (confirm_subscription "subscribe" sample_topic sample_callback (u "tok") None
            432000 true "challenge" (Response 404 "gone") 2000 one_subscription) = true
  /\ fst (confirm_subscription "unsubscribe" sample_topic sample_callback (u "tok") None
            432000 true "challenge" (Response 404 "gone") 2000 one_subscription) = false
  /\ snd (confirm_subscription "subscribe" sample_topic sample_callback (u "tok") None
            432000 true "challenge" (Response 404 "gone") 2000 no_subscriptions)
     = no_subscriptions.
Proof.
  split; [|split; [|split]].
  - apply (proj1 (confirm_subscription_outcome "subscribe" sample_topic sample_callback
                    (u "tok") None 432000 true "challenge" (Response 204 "challenge")
                    2000 one_subscription one_subscription_keyed)).
    exists 204, "challenge". split; [reflexivity|]. left. split; [lia|reflexivity].
  - apply (proj1 (confirm_subscription_outcome "subscribe" sample_topic sample_callback
                    (u "tok") None 432000 true "challenge" (Response 404 "gone")
                    2000 one_subscription one_subscription_keyed)).
    exists 404, "gone". split; [reflexivity|]. right. split; reflexivity.
  - reflexivity.
  - destruct (confirm_subscription_outcome "subscribe" sample_topic sample_callback
                (u "tok") None 432000 true "challenge" (Response 404 "gone")
                2000 no_subscriptions no_subscriptions_keyed)
      as (_ & _ & _ & H404 & _).
    destruct (H404 "gone" eq_refl eq_refl) as (_ & Hnone & _).
    apply Hnone. apply lookup_empty.
Defined.

(** ** Retry schedules *)

(** C2, as the code has it. With [n] failures recorded so far and the
    default limits (4 failures, 30 s), each retry flow schedules the next
    attempt at [now + 30 * 2^n] when [n < 4], and gives up when [n >= 4]:
    [confirm_failed] returns [False] and changes nothing, [fetch_failed] and
    [update] set [totally_failed] and enqueue nothing. For [update] the
    failure is reported by a call with [more_callbacks] false while
    callbacks have failed; the limit is the event's own [max_failures] when
    it has one, and an event that had already totally failed is written
    but not enqueued. A call with [more_callbacks] true counts no failure
    and enqueues the event again at [now]; a call with [more_callbacks]
    false and no failed callback deletes the event. *)
Theorem retry_backoff_schedule (n : nat) (now : Z) :
  (forall self next_state verify_token auto_reconfirm secret db,
      Subscription.confirm_failures self = n ->
      let '(again, self', db') :=
        Subscription.confirm_failed self next_state verify_token auto_reconfirm secret
          MAX_SUBSCRIPTION_CONFIRM_FAILURES SUBSCRIPTION_RETRY_PERIOD now db in
      if (n <? 4)%nat then
        again = true
        /\ Subscription.eta self' = now + 30 * 2 ^ Z.of_nat n
        /\ Subscription.confirm_failures self' = S n
        /\ scheduled (Subscription.tasks db) (Subscription.tasks db')
                     (now + 30 * 2 ^ Z.of_nat n)
      else again = false /\ self' = self /\ db' = db)
  /\ (forall self env db,
        FeedToFetch.fetching_failures self = n ->
        let '(self', db') :=
          FeedToFetch.fetch_failed self MAX_FEED_PULL_FAILURES FEED_PULL_RETRY_PERIOD
                                   now env db in
        if (n <? 4)%nat then
          FeedToFetch.totally_failed self' = FeedToFetch.totally_failed self
          /\ FeedToFetch.eta self' = now + 30 * 2 ^ Z.of_nat n
          /\ FeedToFetch.fetching_failures self' = S n
          /\ scheduled (FeedToFetch.tasks db) (FeedToFetch.tasks db')
                       (now + 30 * 2 ^ Z.of_nat n)
        else
          FeedToFetch.totally_failed self' = true
          /\ FeedToFetch.eta self' = FeedToFetch.eta self
          /\ FeedToFetch.tasks db' = FeedToFetch.tasks db)
  /\ (forall self more_callbacks failed env db,
        EventToDeliver.retry_attempts self = n ->
        let limit := default MAX_DELIVERY_FAILURES (EventToDeliver.max_failures self) in
        let outstanding :=
          EventToDeliver.failed_callbacks self
          ++ List.map Subscription.key_name
               (py_sorted Subscription.callback_hash failed) in
        let '(self', db') :=
          EventToDeliver.update self more_callbacks failed now
            MAX_DELIVERY_FAILURES DELIVERY_RETRY_PERIOD env db in
        match more_callbacks, outstanding with
        | true, _ =>
            EventToDeliver.retry_attempts self' = n
            /\ EventToDeliver.totally_failed self' = EventToDeliver.totally_failed self
            /\ EventToDeliver.delivery_mode self' = EventToDeliver.delivery_mode self
            /\ EventToDeliver.last_modified self' = now
            /\ (if EventToDeliver.totally_failed self
                then EventToDeliver.tasks db' = EventToDeliver.tasks db
                else scheduled (EventToDeliver.tasks db) (EventToDeliver.tasks db') now)
        | false, [] =>
            EventToDeliver.retry_attempts self' = n
            /\ EventToDeliver.tasks db' = EventToDeliver.tasks db
            /\ (forall k, EventToDeliver.key self = Some k ->
                          EventToDeliver.rows db' !! k = None)
        | false, _ :: _ =>
            EventToDeliver.retry_attempts self' = S n
            /\ EventToDeliver.delivery_mode self' = EventToDeliver.RETRY
            /\ (if (Z.of_nat n <? limit)%Z then
                  EventToDeliver.totally_failed self' = EventToDeliver.totally_failed self
                  /\ EventToDeliver.last_modified self' = now + 30 * 2 ^ Z.of_nat n
                  /\ (if EventToDeliver.totally_failed self
                      then EventToDeliver.tasks db' = EventToDeliver.tasks db
                      else scheduled (EventToDeliver.tasks db) (EventToDeliver.tasks db')
                                     (now + 30 * 2 ^ Z.of_nat n))
                else
                  EventToDeliver.totally_failed self' = true
                  /\ EventToDeliver.tasks db' = EventToDeliver.tasks db)
        end).
Proof.
  split; [|split].
  - intros self next_state verify_token auto_reconfirm secret db Hn.
    unfold Subscription.confirm_failed, MAX_SUBSCRIPTION_CONFIRM_FAILURES,
      SUBSCRIPTION_RETRY_PERIOD.
    rewrite Hn.
    destruct (Nat.ltb_spec n 4) as [Hlt|Hge];
      destruct (Z.geb_spec (Z.of_nat n) 4) as [Hz|Hz]; try lia.
    + cbn. rewrite Nat.add_1_r. repeat split.
      unfold scheduled. eexists. split; reflexivity.
    + repeat split.
  - intros self env db Hn.
    unfold FeedToFetch.fetch_failed, MAX_FEED_PULL_FAILURES, FEED_PULL_RETRY_PERIOD.
    rewrite Hn.
    destruct (Nat.ltb_spec n 4) as [Hlt|Hge];
      destruct (Z.geb_spec (Z.of_nat n) 4) as [Hz|Hz]; try lia.
    + cbn. rewrite Nat.add_1_r. repeat split.
      unfold scheduled. eexists. split; reflexivity.
    + repeat split.
  - intros self more_callbacks failed env db Hn. cbv zeta.
    unfold EventToDeliver.update, DELIVERY_RETRY_PERIOD.
    destruct (EventToDeliver.failed_callbacks self
              ++ List.map Subscription.key_name
                   (py_sorted Subscription.callback_hash failed)) as [|k ks] eqn:Hfailed;
      destruct more_callbacks;
      cbn [EventToDeliver.max_failures EventToDeliver.retry_attempts
           EventToDeliver.last_modified EventToDeliver.totally_failed
           EventToDeliver.key EventToDeliver.failed_callbacks
           EventToDeliver.delivery_mode].
    + (* the round goes on, nothing has failed so far *)
      unfold EventToDeliver.put; cbn [EventToDeliver.key].
      destruct (EventToDeliver.key self), (EventToDeliver.totally_failed self); cbn;
        repeat split; try exact Hn; unfold scheduled; eexists; split; reflexivity.
    + (* the event is done *)
      unfold EventToDeliver.delete; cbn [EventToDeliver.key].
      destruct (EventToDeliver.key self) as [k0|]; cbn;
        (split; [exact Hn|split; [reflexivity|]]).
      * intros k1 [= <-]. apply lookup_delete_eq.
      * intros k1 Hk. discriminate Hk.
    + (* the round goes on *)
      unfold EventToDeliver.put; cbn [EventToDeliver.key].
      destruct (EventToDeliver.key self), (EventToDeliver.totally_failed self); cbn;
        repeat split; try exact Hn; unfold scheduled; eexists; split; reflexivity.
    + (* the round is over and callbacks have failed *)
      rewrite Hn.
      replace (Z.of_nat (n + 1) - 1) with (Z.of_nat n) by lia.
      set (limit := match EventToDeliver.max_failures self with
                    | Some m => m
                    | None => MAX_DELIVERY_FAILURES
                    end).
      change (default MAX_DELIVERY_FAILURES (EventToDeliver.max_failures self))
        with limit.
      destruct (Z.ltb_spec (Z.of_nat n) limit) as [Hlt|Hge];
        destruct (Z.gtb_spec (Z.of_nat (n + 1)) limit) as [Hz|Hz]; try lia.
      * unfold EventToDeliver.put; cbn [EventToDeliver.key].
        destruct (EventToDeliver.key self), (EventToDeliver.totally_failed self); cbn;
          repeat split; try apply Nat.add_1_r; unfold scheduled; eexists; split;
          reflexivity.
      * unfold EventToDeliver.put; cbn [EventToDeliver.key].
        destruct (EventToDeliver.key self); cbn; repeat split; apply Nat.add_1_r.
Qed.

Lemma retry_backoff_schedule_witness :
  fst (fst (Subscription.confirm_failed (sample_subscription 3) Subscription.STATE_VERIFIED
              (u "tok") false None MAX_SUBSCRIPTION_CONFIRM_FAILURES
              SUBSCRIPTION_RETRY_PERIOD 5000 one_subscription)) = true
  /\ EventToDeliver.last_modified
       (fst (EventToDeliver.update (sample_event EventToDeliver.NORMAL 2 ["hash_a"]) false []
               5000 MAX_DELIVERY_FAILURES DELIVERY_RETRY_PERIOD None no_events))
     = 5120.
Proof.
  destruct (retry_backoff_schedule 3 5000) as (Hsub & _ & _).
  destruct (retry_backoff_schedule 2 5000) as (_ & _ & Hevent).
  split.
  - specialize (Hsub (sample_subscription 3) Subscription.STATE_VERIFIED (u "tok") false
                     None one_subscription eq_refl).
    destruct (Subscription.confirm_failed _ _ _ _ _ _ _ _ _) as [[again self'] db'].
    exact (proj1 Hsub).
  - specialize (Hevent (sample_event EventToDeliver.NORMAL 2 ["hash_a"]) false [] None
                       no_events eq_refl).
    cbv zeta in Hevent.
    destruct (EventToDeliver.update _ _ _ _ _ _ _ _) as [self' db'].
    simpl in Hevent. apply Hevent.
Defined.

(** C2 as the specification words it has a retry at [n = 4] too; at four
    recorded failures every flow has given up. *)
Lemma no_retry_at_four_failures :
  Subscription.confirm_failed (sample_subscription 4) Subscription.STATE_VERIFIED
    (u "tok") false None MAX_SUBSCRIPTION_CONFIRM_FAILURES SUBSCRIPTION_RETRY_PERIOD 5000
    one_subscription
  = (false, sample_subscription 4, one_subscription)
  /\ (let '(self', db') :=
        FeedToFetch.fetch_failed
          (FeedToFetch.mk (get_hash_key_name (Unicode sample_topic)) sample_topic 900 4
                          false [] [] None)
          MAX_FEED_PULL_FAILURES FEED_PULL_RETRY_PERIOD 5000 None
          (FeedToFetch.mk_store ∅ []) in
      (FeedToFetch.totally_failed self', FeedToFetch.tasks db') = (true, []))
  /\ (let '(self', db') :=
        EventToDeliver.update (sample_event EventToDeliver.RETRY 4 ["hash_a"]) false []
          5000 MAX_DELIVERY_FAILURES DELIVERY_RETRY_PERIOD None no_events in
      (EventToDeliver.totally_failed self', EventToDeliver.tasks db') = (true, [])).
Proof. repeat split. Qed.

(** ** Event delivery *)

Lemma signing_key_encoded (sub : Subscription.t) :
  utf8 (py_or (Subscription.secret sub)
              (py_or (Subscription.verify_token sub) (Str "")))
  = utf8_encode (signature_key sub).
Proof.
  unfold signature_key, py_or.
  destruct (Subscription.secret sub) as [[|c t]|];
    destruct (Subscription.verify_token sub) as [[|c' t']|]; reflexivity.
Qed.

Lemma get_next_subscribers_payload (work : EventToDeliver.t) (chunk_size : option nat)
    (subs : Subscription.store) :
  EventToDeliver.payload (snd (EventToDeliver.get_next_subscribers work chunk_size subs))
  = EventToDeliver.payload work.
Proof.
  unfold EventToDeliver.get_next_subscribers.
  destruct (EventToDeliver.delivery_mode work); [reflexivity|].
  destruct (EventToDeliver.last_callback work) as [|c t]; [reflexivity|].
  destruct (py_index _ _); reflexivity.
Qed.

(** C8. Every POST that [PushEventHandler.post] sends goes to a
    subscriber's callback with the event payload as its body and the
    header [X-Hub-Signature] equal to ['sha1='] followed by the hex
    HMAC-SHA1 of that payload under the UTF-8 encoding of the subscriber's
    secret, else of its verify token, else under the empty key. *)
Theorem delivery_is_signed
    (work : EventToDeliver.t) (allowed : unicode -> bool)
    (respond : PushEventHandler.request -> option fetch_result) (now : Z)
    (env : environ) (subs : Subscription.store) (db : EventToDeliver.store)
    (req : PushEventHandler.request) :
  List.In req (fst (PushEventHandler.post work allowed respond now env subs db)) ->
  exists sub,
    List.In sub (snd (fst (EventToDeliver.get_next_subscribers work None subs)))
    /\ PushEventHandler.url req = Subscription.callback sub
    /\ PushEventHandler.body req = EventToDeliver.payload work
    /\ PushEventHandler.headers req !! "X-Hub-Signature"
       = Some (Str (String.append "sha1="
                      (SHA1.hmac_hexdigest (utf8_encode (signature_key sub))
                                           (EventToDeliver.payload work)))).
Proof.
  unfold PushEventHandler.post.
  pose proof (get_next_subscribers_payload work None subs) as Hpayload.
  destruct (EventToDeliver.get_next_subscribers work None subs)
    as [[more_subscribers subscription_list] work'].
  cbn [fst snd] in *. intros Hin.
  apply List.in_map_iff in Hin as ([sub r] & <- & Hin).
  unfold PushEventHandler.pushes in Hin.
  apply List.in_flat_map in Hin as (sub' & Hchunk & Hin).
  destruct (allowed (Subscription.callback sub')); [|contradiction].
  destruct Hin as [Heq|[]]. injection Heq as <- <-.
  exists sub'. cbn [PushEventHandler.url PushEventHandler.body PushEventHandler.headers snd utf8].
  split; [exact Hchunk|]. split; [reflexivity|]. split; [exact Hpayload|].
  unfold PushEventHandler.headers_for. rewrite lookup_insert_eq.
  unfold sha1_hmac. rewrite signing_key_encoded. cbn [utf8]. rewrite Hpayload.
  reflexivity.
Qed.

Lemma delivery_is_signed_witness :
  exists req sub,
    List.In req
      (fst (PushEventHandler.post (sample_event EventToDeliver.NORMAL 0 [])
           (fun _ => true)
              (fun _ => Some (Response 200 "")) 5000 None one_subscription no_events))
    /\ PushEventHandler.url req = Subscription.callback sub
    /\ PushEventHandler.body req
       = EventToDeliver.payload (sample_event EventToDeliver.NORMAL 0 [])
    /\ PushEventHandler.headers req !! "X-Hub-Signature"
       = Some (Str (String.append "sha1="
                      (SHA1.hmac_hexdigest
                         (utf8_encode (signature_key sub))
                         (EventToDeliver.payload (sample_event EventToDeliver.NORMAL 0 []))))).
Proof.
  assert (Hsent :
    exists req,
      fst (PushEventHandler.post (sample_event EventToDeliver.NORMAL 0 [])
           (fun _ => true)
             (fun _ => Some (Response 200 "")) 5000 None one_subscription no_events)
      = [req]).
  { eexists. vm_compute. reflexivity. }
  destruct Hsent as [req Hreq].
  assert (Hin : List.In req
            (fst (PushEventHandler.post (sample_event EventToDeliver.NORMAL 0 [])
           (fun _ => true)
                    (fun _ => Some (Response 200 "")) 5000 None one_subscription
                    no_events))).
  { rewrite Hreq. left. reflexivity. }
  destruct (delivery_is_signed _ _ _ _ _ _ _ _ Hin) as (sub & _ & Hurl & Hbody & Hsig).
  exists req, sub. exact (conj Hin (conj Hurl (conj Hbody Hsig))).
Defined.

(** ** The list of failed callbacks *)

Section SortedByKey.

Context {A : Type} (key : A -> string).

Let le (a b : A) : Prop := String.leb (key a) (key b) = true.

Lemma insert_by_permutation (x : A) (l : list A) :
  Permutation (insert_by key x l) (x :: l).
Proof.
  induction l as [|y l IH]; simpl; [reflexivity|].
  destruct (String.leb (key x) (key y)); [reflexivity|].
  rewrite IH. apply perm_swap.
Qed.

Lemma insert_by_hd (x y : A) (l : list A) :
  le y x -> HdRel le y l -> HdRel le y (insert_by key x l).
Proof.
  intros Hyx Hhd. destruct l as [|z l]; simpl; [constructor; exact Hyx|].
  destruct (String.leb (key x) (key z)); constructor; [exact Hyx|].
  inversion Hhd; assumption.
Qed.

Lemma insert_by_sorted (x : A) (l : list A) :
  Sorted le l -> Sorted le (insert_by key x l).
Proof.
  induction l as [|y l IH]; simpl; intros Hs.
  - repeat constructor.
  - destruct (String.leb (key x) (key y)) eqn:Hxy.
    + constructor; [exact Hs|]. constructor. exact Hxy.
    + inversion Hs as [|? ? Hl Hhd]; subst.
      constructor; [apply IH; exact Hl|].
      apply insert_by_hd; [|exact Hhd].
      destruct (String.leb_total (key x) (key y)) as [H|H]; [congruence|exact H].
Qed.

Lemma py_sorted_permutation (l : list A) : Permutation (py_sorted key l) l.
Proof.
  induction l as [|x l IH]; simpl; [reflexivity|].
  rewrite insert_by_permutation. constructor. exact IH.
Qed.

Lemma py_sorted_sorted (l : list A) : Sorted le (py_sorted key l).
Proof.
  induction l as [|x l IH]; simpl; [constructor|].
  apply insert_by_sorted, IH.
Qed.

Lemma sorted_app (l1 l2 : list A) :
  Sorted le l1 -> Sorted le l2 ->
  (forall a b, List.In a l1 -> List.In b l2 -> le a b) ->
  Sorted le (l1 ++ l2).
Proof.
  induction l1 as [|a l1 IH]; simpl; intros H1 H2 Hcross; [exact H2|].
  inversion H1 as [|? ? Hl Hhd]; subst.
  constructor.
  - apply IH; [exact Hl|exact H2|]. intros x y Hx Hy. apply Hcross; [right|]; assumption.
  - destruct l1 as [|a' l1]; simpl.
    + destruct l2 as [|b l2]; constructor.
      apply Hcross; left; reflexivity.
    + constructor. inversion Hhd; assumption.
Qed.

End SortedByKey.

Lemma update_failed_callbacks (self : EventToDeliver.t) (more_callbacks : bool)
    (failed : list Subscription.t) (now max_failures retry_period : Z)
    (env : environ) (db : EventToDeliver.store) :
  EventToDeliver.failed_callbacks
    (fst (EventToDeliver.update self more_callbacks failed now max_failures
                                retry_period env db))
  = EventToDeliver.failed_callbacks self
    ++ List.map Subscription.key_name (py_sorted Subscription.callback_hash failed).
Proof.
  unfold EventToDeliver.update.
  destruct more_callbacks;
    destruct (EventToDeliver.failed_callbacks self
              ++ List.map Subscription.key_name
                   (py_sorted Subscription.callback_hash failed)) as [|k ks] eqn:Hfailed;
    cbn [EventToDeliver.failed_callbacks EventToDeliver.key fst];
    try reflexivity;
    unfold EventToDeliver.put; cbn [EventToDeliver.key];
    destruct (EventToDeliver.key self); cbn [EventToDeliver.totally_failed];
    repeat match goal with
           | |- context [if ?b then _ else _] => destruct b
           end; reflexivity.
Qed.

(** [update] sorts the callbacks that just failed by [callback_hash] and
    appends them, as one run, behind the entries already in
    [failed_callbacks]. When those entries are the keys of subscriptions in
    ascending order of hash, none of them above a new failure, as in normal
    mode where the chunks come in ascending order, the whole list is in
    ascending order. *)
Lemma update_appends_sorted_run
    (self : EventToDeliver.t) (more_callbacks : bool) (failed : list Subscription.t)
    (now max_failures retry_period : Z) (env : environ) (db : EventToDeliver.store)
    (before : list Subscription.t) :
  EventToDeliver.failed_callbacks self = List.map Subscription.key_name before ->
  Sorted hash_le before ->
  (forall a b, List.In a before -> List.In b failed -> hash_le a b) ->
  exists run,
    Permutation run failed
    /\ Sorted hash_le (before ++ run)
    /\ EventToDeliver.failed_callbacks
         (fst (EventToDeliver.update self more_callbacks failed now max_failures
                                     retry_period env db))
       = List.map Subscription.key_name (before ++ run).
Proof.
  intros Hbefore Hsorted Hcross. rewrite update_failed_callbacks.
  exists (py_sorted Subscription.callback_hash failed).
  split; [apply py_sorted_permutation|]. split.
  - apply sorted_app; [exact Hsorted|apply py_sorted_sorted|].
    intros a b Ha Hb. apply Hcross; [exact Ha|].
    apply (Permutation_in b (py_sorted_permutation Subscription.callback_hash failed)).
    exact Hb.
  - rewrite Hbefore, List.map_app. reflexivity.
Qed.


(** ** Feed identities *)

Lemma update_keyed (feed_id topic : unicode) (now : Z)
    (ids : gmap string KnownFeedIdentity.t) :
  identities_keyed ids ->
  identities_keyed (snd (KnownFeedIdentity.update feed_id topic now ids)).
Proof.
  intros Hkeyed k i. unfold KnownFeedIdentity.update. cbn [snd KnownFeedIdentity.key_name].
  intros H. apply lookup_insert_Some in H as [[<- <-]|[_ H]]; [reflexivity|].
  exact (Hkeyed _ _ H).
Qed.

Lemma update_aliases (feed_id topic : unicode) (now : Z)
    (ids : gmap string KnownFeedIdentity.t) :
  identities_keyed ids ->
  exists i,
    snd (KnownFeedIdentity.update feed_id topic now ids)
      !! KnownFeedIdentity.create_key feed_id = Some i
    /\ KnownFeedIdentity.topics i
       = if decide (topic ∈ aliases ids feed_id) then aliases ids feed_id
         else aliases ids feed_id ++ [topic].
Proof.
  intros Hkeyed. unfold KnownFeedIdentity.update, aliases.
  destruct (ids !! KnownFeedIdentity.create_key feed_id) as [old|] eqn:Hold;
    cbn [snd KnownFeedIdentity.key_name KnownFeedIdentity.topics].
  - rewrite (Hkeyed _ _ Hold). eexists. split; [apply lookup_insert_eq|reflexivity].
  - eexists. split; [apply lookup_insert_eq|reflexivity].
Qed.

Lemma py_remove_spec (x : unicode) (l : list unicode) :
  NoDup l -> x ∈ l ->
  exists l',
    py_remove x l = Some l'
    /\ (x ∉ l')
    /\ (forall y, y <> x -> y ∈ l -> y ∈ l')
    /\ (List.length l' < List.length l)%nat.
Proof.
  induction l as [|y l IH]; intros Hnd Hin; [inversion Hin|].
  apply NoDup_cons in Hnd as [Hy Hnd]. simpl.
  destruct (decide (y = x)) as [->|Hne].
  - exists l. repeat split; [exact Hy| |simpl; lia].
    intros z Hz Hzin. apply elem_of_cons in Hzin as [->|Hzin]; [contradiction|exact Hzin].
  - apply elem_of_cons in Hin as [->|Hin]; [contradiction|].
    destruct (IH Hnd Hin) as (l' & -> & Hnot & Hkeep & Hlen).
    exists (y :: l'). repeat split.
    + intros Hx. apply elem_of_cons in Hx as [->|Hx]; contradiction.
    + intros z Hz Hzin. apply elem_of_cons in Hzin as [->|Hzin];
        [apply elem_of_cons; left; reflexivity
        |apply elem_of_cons; right; apply Hkeep; assumption].
    + simpl. lia.
Qed.

Lemma remove_dups_single (x : unicode) : remove_dups [x] = [x].
Proof.
  simpl. destruct (decide_rel elem_of x []) as [H|_]; [inversion H|reflexivity].
Qed.

(** What [derive_additional_topics] gives for one topic whose [KnownFeed]
    carries a feed id that has an identity record. *)
Lemma derive_single (topic feed_id : unicode) (feeds : gmap string KnownFeed.t)
    (ids : gmap string KnownFeedIdentity.t) (feed : KnownFeed.t)
    (identified : KnownFeedIdentity.t) :
  feeds !! KnownFeed.create_key topic = Some feed ->
  KnownFeed.topic feed = topic ->
  KnownFeed.feed_id feed = Some feed_id ->
  strip feed_id <> [] ->
  ids !! KnownFeedIdentity.create_key feed_id = Some identified ->
  KnownFeedIdentity.derive_additional_topics [topic] feeds ids !! topic
  = Some (if (25 <? List.length (KnownFeedIdentity.topics identified))%nat
          then {[topic]}
          else {[topic]} ∪ list_to_set (KnownFeedIdentity.topics identified)).
Proof.
  intros Hfeed Htopic Hid Hstrip Hident.
  unfold KnownFeedIdentity.derive_additional_topics.
  rewrite remove_dups_single. cbn [List.map]. rewrite Hfeed.
  unfold KnownFeedIdentity.split_known. cbn [List.fold_left]. rewrite Hid, Htopic.
  destruct (strip feed_id) as [|c t] eqn:Hs; [contradiction|].
  cbn [List.fold_left app]. rewrite Hident, lookup_empty.
  destruct (25 <? List.length (KnownFeedIdentity.topics identified))%nat;
    apply lookup_insert_eq.
Qed.

(** C7, as the code has it. Let [KnownFeed(T1)] exist with the feed id
    [F] (not blank). After [update(F, T1)] and [update(F, T2)], as long as
    [F] then lists at most 25 topics, [derive_additional_topics({T1})] maps
    [T1] to a set holding [T1] and [T2]; after [remove(F, T2)], for
    [T2 <> T1], it maps [T1] to a set without [T2]; and removing the last
    topic of an identity deletes the identity. *)
Theorem alias_expansion_round_trip
    (F T1 T2 : unicode) (now1 now2 now3 : Z)
    (feeds : gmap string KnownFeed.t) (ids : gmap string KnownFeedIdentity.t)
    (feed : KnownFeed.t) :
  feeds !! KnownFeed.create_key T1 = Some feed ->
  KnownFeed.topic feed = T1 ->
  KnownFeed.feed_id feed = Some F ->
  strip F <> [] ->
  identities_keyed ids ->
  NoDup (aliases ids F) ->
  T1 <> T2 ->
  let ids2 :=
    snd (KnownFeedIdentity.update F T2 now2
           (snd (KnownFeedIdentity.update F T1 now1 ids))) in
  let ids3 := snd (KnownFeedIdentity.remove F T2 now3 ids2) in
  (List.length (aliases ids2 F) <= 25)%nat ->
  (exists s,
      KnownFeedIdentity.derive_additional_topics [T1] feeds ids2 !! T1 = Some s
      /\ (T1 ∈ s) /\ (T2 ∈ s))
  /\ (exists s,
        KnownFeedIdentity.derive_additional_topics [T1] feeds ids3 !! T1 = Some s
        /\ (T1 ∈ s) /\ (T2 ∉ s))
  /\ (forall T now (only : gmap string KnownFeedIdentity.t),
        identities_keyed only -> aliases only F = [T] ->
        snd (KnownFeedIdentity.remove F T now only) !! KnownFeedIdentity.create_key F
        = None).
Proof.
  intros Hfeed Htopic Hid Hstrip Hkeyed Hnd Hne. cbv zeta.
  set (ids1 := snd (KnownFeedIdentity.update F T1 now1 ids)).
  set (ids2 := snd (KnownFeedIdentity.update F T2 now2 ids1)).
  intros Hcap.
  pose proof (update_keyed F T1 now1 ids Hkeyed) as Hkeyed1. fold ids1 in Hkeyed1.
  pose proof (update_keyed F T2 now2 ids1 Hkeyed1) as Hkeyed2. fold ids2 in Hkeyed2.
  destruct (update_aliases F T1 now1 ids Hkeyed) as (i1 & Hi1 & Ht1). fold ids1 in Hi1.
  destruct (update_aliases F T2 now2 ids1 Hkeyed1) as (i2 & Hi2 & Ht2). fold ids2 in Hi2.
  assert (Ha1 : aliases ids1 F = KnownFeedIdentity.topics i1)
    by (unfold aliases; rewrite Hi1; reflexivity).
  assert (Ha2 : aliases ids2 F = KnownFeedIdentity.topics i2)
    by (unfold aliases; rewrite Hi2; reflexivity).
  rewrite Ha1 in Ht2. rewrite Ha2 in Hcap.
  assert (HT1 : T1 ∈ KnownFeedIdentity.topics i1).
  { rewrite Ht1. destruct (decide (T1 ∈ aliases ids F)); [assumption|].
    apply elem_of_app. right. apply elem_of_cons; left; reflexivity. }
  assert (Hnd1 : NoDup (KnownFeedIdentity.topics i1)).
  { rewrite Ht1. destruct (decide (T1 ∈ aliases ids F)) as [|Hout]; [exact Hnd|].
    apply NoDup_app. split; [exact Hnd|]. split; [|apply NoDup_singleton].
    intros x Hx Hx'. apply list_elem_of_singleton in Hx'. subst. contradiction. }
  assert (HT12 : (T1 ∈ KnownFeedIdentity.topics i2) /\ (T2 ∈ KnownFeedIdentity.topics i2)
                 /\ NoDup (KnownFeedIdentity.topics i2)).
  { rewrite Ht2. destruct (decide (T2 ∈ KnownFeedIdentity.topics i1)) as [Hin|Hout].
    - repeat split; assumption.
    - split; [apply elem_of_app; left; exact HT1|].
      split; [apply elem_of_app; right; apply elem_of_cons; left; reflexivity|].
      apply NoDup_app. split; [exact Hnd1|]. split; [|apply NoDup_singleton].
      intros x Hx Hx'. apply list_elem_of_singleton in Hx'. subst. contradiction. }
  destruct HT12 as (HT1' & HT2' & Hnd2).
  split; [|split].
  - eexists. split; [exact (derive_single T1 F feeds ids2 feed i2 Hfeed Htopic Hid Hstrip Hi2)|].
    destruct (Nat.ltb_spec 25 (List.length (KnownFeedIdentity.topics i2))); [lia|].
    split; apply elem_of_union; [left; apply elem_of_singleton; reflexivity|].
    right. apply elem_of_list_to_set. exact HT2'.
  - destruct (py_remove_spec T2 (KnownFeedIdentity.topics i2) Hnd2 HT2')
      as (rest & Hrem & Hgone & Hkept & Hlen).
    assert (HT1r : T1 ∈ rest) by (apply Hkept; assumption).
    assert (Hi3 : exists i3,
               snd (KnownFeedIdentity.remove F T2 now3 ids2)
                 !! KnownFeedIdentity.create_key F = Some i3
               /\ KnownFeedIdentity.topics i3 = rest).
    { unfold KnownFeedIdentity.remove. rewrite Hi2, Hrem.
      destruct rest as [|t rest]; [inversion HT1r|].
      cbn [snd KnownFeedIdentity.key_name]. rewrite (Hkeyed2 _ _ Hi2).
      eexists. split; [apply lookup_insert_eq|reflexivity]. }
    destruct Hi3 as (i3 & Hi3 & Ht3).
    eexists. split; [exact (derive_single T1 F feeds _ feed i3 Hfeed Htopic Hid Hstrip Hi3)|].
    rewrite Ht3.
    destruct (Nat.ltb_spec 25 (List.length rest)); [lia|].
    split; [apply elem_of_union; left; apply elem_of_singleton; reflexivity|].
    intros Hin. apply elem_of_union in Hin as [Hin|Hin].
    + apply elem_of_singleton in Hin. congruence.
    + apply elem_of_list_to_set in Hin. contradiction.
  - intros T now only Honly Hlast. unfold aliases in Hlast.
    unfold KnownFeedIdentity.remove.
    destruct (only !! KnownFeedIdentity.create_key F) as [i|] eqn:Hi; [|exact Hi].
    rewrite Hlast. simpl. destruct (decide (T = T)); [|contradiction].
    cbn [snd]. rewrite (Honly _ _ Hi). apply lookup_delete_eq.
Qed.

Lemma alias_expansion_round_trip_witness :
  exists s,
    KnownFeedIdentity.derive_additional_topics [sample_topic] one_known_feed two_aliases
      !! sample_topic = Some s
    /\ (sample_topic ∈ s) /\ (sample_alias ∈ s).
Proof.
  refine (proj1 (alias_expansion_round_trip sample_feed_id sample_topic sample_alias
                   10 20 30 one_known_feed ∅
                   (KnownFeed.mk (KnownFeed.create_key sample_topic) sample_topic
                                 (Some sample_feed_id))
                   _ eq_refl eq_refl _ _ _ _ _)).
  - apply lookup_singleton_eq.
  - vm_compute. discriminate.
  - intros k i H. rewrite lookup_empty in H. discriminate.
  - unfold aliases. rewrite lookup_empty. constructor.
  - vm_compute. discriminate.
  - vm_compute. lia.
Defined.

(** C7 as the specification words it asks nothing of [KnownFeed]: with no
    [KnownFeed] for [T1], the expansion of [{T1}] has no entry for [T1] at
    all after the two updates. *)
Lemma no_expansion_without_known_feed :
  KnownFeedIdentity.topics <$>
    (two_aliases !! KnownFeedIdentity.create_key sample_feed_id)
  = Some [sample_topic; sample_alias]
  /\ KnownFeedIdentity.derive_additional_topics [sample_topic] ∅ two_aliases
       !! sample_topic = None.
Proof. split; vm_compute; reflexivity. Qed.

(** ** parse_feed: the transaction *)

(** C1 on two inputs. [txn] pops each group it puts; when a later [put]
    is refused only the refused group goes back on [all_entities], so the
    transaction that finally commits has lost every group put before the
    refusal. With one new entry and a size limit between the event and the
    event plus one entry record, the commit writes the event and the entry
    but not the [FeedRecord]. With 150 new entries and puts limited to 50
    entities, the commit writes the last 52 [FeedEntryRecord]s and neither
    the [FeedRecord] nor the [EventToDeliver], whose delivery task is
    enqueued all the same. *)
Theorem commit_loses_groups_put_before_a_refusal :
  (let r := parse_feed fresh_record ∅ "body" true (atom_feed 1) (over_size 100)
                       5000 None fresh_feed_store in
   fst r = Return true
   /\ map_to_list (feed_records (snd r)) = []
   /\ size (entry_records (snd r)) = 1%nat
   /\ size (EventToDeliver.rows (event_store (snd r))) = 1%nat)
  /\ (let r := parse_feed fresh_record ∅ "body" true (atom_feed 150) (over_count 50)
                          5000 None fresh_feed_store in
      fst r = Return true
      /\ map_to_list (feed_records (snd r)) = []
      /\ size (entry_records (snd r)) = 52%nat
      /\ map_to_list (EventToDeliver.rows (event_store (snd r))) = []
      /\ List.map task_url (EventToDeliver.tasks (event_store (snd r)))
         = ["/work/push_events"]).
Proof. split; vm_compute; repeat split. Qed.

(** ** parse_feed: paging of large bursts *)

Lemma slices_from_concat {A : Type} (fuel step : nat) (l : list A) :
  (0 < step)%nat -> (List.length l <= fuel)%nat ->
  List.concat (slices_from fuel step l) = l.
Proof.
  intros Hstep. revert l.
  induction fuel as [|fuel IH]; intros l Hlen.
  - destruct l; [reflexivity|simpl in Hlen; lia].
  - destruct l as [|x l]; [reflexivity|].
    cbn [slices_from List.concat]. rewrite IH.
    + apply List.firstn_skipn.
    + rewrite List.length_skipn. simpl in *. lia.
Qed.

Lemma py_slices_concat {A : Type} (step : nat) (l : list A) :
  (0 < step)%nat -> List.concat (py_slices step l) = l.
Proof. intros Hstep. apply slices_from_concat; [exact Hstep|lia]. Qed.

Lemma flat_map_slices {A B : Type} (g : A -> list B) (ls : list (list A)) :
  List.flat_map (fun ks => List.flat_map g ks) ls = List.flat_map g (List.concat ls).
Proof.
  induction ls as [|ks ls IH]; [reflexivity|].
  simpl. rewrite List.flat_map_app, IH. reflexivity.
Qed.

Section FoldInsert.

Context {A K V : Type} `{Countable K} (kf : A -> K) (vf : A -> V).

Lemma fold_insert_notin (l : list A) (m : gmap K V) (k : K) :
  k ∉ List.map kf l ->
  List.fold_left (fun d e => <[kf e := vf e]> d) l m !! k = m !! k.
Proof.
  revert m. induction l as [|a l IH]; intros m Hk; [reflexivity|].
  cbn [List.map] in Hk. apply not_elem_of_cons in Hk as [Hne Hk].
  cbn [List.fold_left]. rewrite IH by exact Hk. apply lookup_insert_ne. congruence.
Qed.

Lemma fold_insert_in (l : list A) (m : gmap K V) (a : A) :
  NoDup (List.map kf l) -> List.In a l ->
  List.fold_left (fun d e => <[kf e := vf e]> d) l m !! kf a = Some (vf a).
Proof.
  revert m. induction l as [|b l IH]; intros m Hnd Hin; [destruct Hin|].
  cbn [List.map] in Hnd. apply NoDup_cons in Hnd as [Hb Hnd].
  cbn [List.fold_left]. destruct Hin as [->|Hin].
  - rewrite fold_insert_notin by exact Hb. apply lookup_insert_eq.
  - apply IH; assumption.
Qed.

End FoldInsert.

Lemma allocate_id_app (key : option N) (ids : N) (g r : list entity) :
  allocate_id key ids (g ++ r)
  = allocate_id (fst (allocate_id key ids g)) (snd (allocate_id key ids g)) r.
Proof.
  unfold allocate_id. destruct key as [k|]; [reflexivity|].
  rewrite List.existsb_app.
  destruct (List.existsb is_event g); [reflexivity|].
  destruct (List.existsb is_event r); reflexivity.
Qed.

Lemma txn_unrefused (put_refused : list entity -> bool) (groups : list (list entity))
    (key : option N) (ids : N) (written : list entity) :
  (forall g, put_refused g = false) ->
  txn put_refused groups key ids written
  = inl (written ++ List.concat groups,
         mk_txn [] (fst (allocate_id key ids (List.concat groups)))
                   (snd (allocate_id key ids (List.concat groups)))).
Proof.
  intros Hnone. revert key ids written.
  induction groups as [|g groups IH]; intros key ids written.
  - simpl. rewrite List.app_nil_r. destruct key; reflexivity.
  - cbn [txn List.concat]. rewrite Hnone.
    rewrite allocate_id_app.
    destruct (allocate_id key ids g) as [k i]. cbn [fst snd].
    rewrite IH, <- List.app_assoc. reflexivity.
Qed.

Lemma run_attempts_unrefused (attempts : nat) (put_refused : list entity -> bool)
    (st : txn_state) :
  (forall g, put_refused g = false) ->
  run_attempts (S attempts) put_refused st
  = Some (List.concat (all_entities st),
          mk_txn [] (fst (allocate_id (event_key st) (ids st)
                                      (List.concat (all_entities st))))
                    (snd (allocate_id (event_key st) (ids st)
                                      (List.concat (all_entities st))))).
Proof.
  intros Hnone. cbn [run_attempts]. rewrite (txn_unrefused _ _ _ _ _ Hnone).
  reflexivity.
Qed.

Lemma parse_feed_partial
    (feed_record : FeedRecord.t) (headers : gmap string string) (content : string)
    (true_on_bad_feed : bool) (filter_feed : string -> feed_format -> filtered)
    (put_refused : list entity -> bool) (now : Z) (env : environ) (db : feed_store)
    (fmt : feed_format) (header_footer : pystr)
    (entities : list FeedEntryRecord.t) (payloads : list unicode)
    (ev : EventToDeliver.t) :
  try_formats (parse_order feed_record) (FeedRecord.topic feed_record) content
              filter_feed (entry_records db)
  = Parsed fmt header_footer entities payloads ->
  (MAX_NEW_FEED_ENTRY_RECORDS < List.length entities)%nat ->
  EventToDeliver.create_event_for_topic
    (FeedRecord.topic feed_record) fmt (FeedRecord.content_type feed_record)
    header_footer (List.firstn MAX_NEW_FEED_ENTRY_RECORDS payloads) now None = Some ev ->
  (forall g, put_refused g = false) ->
  parse_feed feed_record headers content true_on_bad_feed filter_feed put_refused
             now env db
  = (Return false,
     commit (FeedRecordE feed_record :: EventE ev
             :: List.map EntryE (List.firstn MAX_NEW_FEED_ENTRY_RECORDS entities))
            (mk_txn [] (Some (EventToDeliver.next_id (event_store db)))
                    (EventToDeliver.next_id (event_store db) + 1)%N)
            (Some ev) env db).
Proof.
  intros Htry Hmany Hev Hnone. unfold parse_feed. rewrite Htry.
  apply Nat.ltb_lt in Hmany. rewrite Hmany. cbv beta iota zeta.
  remember (List.firstn MAX_NEW_FEED_ENTRY_RECORDS entities) as kept eqn:Hkept.
  destruct kept as [|e0 kept].
  { exfalso. apply Nat.ltb_lt in Hmany.
    assert (Hl : List.length (List.firstn MAX_NEW_FEED_ENTRY_RECORDS entities) = 0%nat)
      by (rewrite <- Hkept; reflexivity).
    rewrite List.length_firstn in Hl. unfold MAX_NEW_FEED_ENTRY_RECORDS in *. lia. }
  assert (Hgroups :
    run_attempts PUT_SPLITTING_ATTEMPTS put_refused
      (mk_txn (py_slices MAX_FEED_RECORD_SAVES
                 (FeedRecordE feed_record :: [EventE ev] ++ List.map EntryE (e0 :: kept)))
              None (EventToDeliver.next_id (event_store db)))
    = Some (FeedRecordE feed_record :: EventE ev :: List.map EntryE (e0 :: kept),
            mk_txn [] (Some (EventToDeliver.next_id (event_store db)))
                   (EventToDeliver.next_id (event_store db) + 1)%N)).
  { change PUT_SPLITTING_ATTEMPTS with (S 9).
    rewrite (run_attempts_unrefused _ _ _ Hnone). cbn [all_entities event_key ids].
    rewrite py_slices_concat by (unfold MAX_FEED_RECORD_SAVES; lia).
    reflexivity. }
  destruct fmt; rewrite Hev; cbv beta iota; rewrite Hgroups; reflexivity.
Qed.

Lemma parse_feed_complete
    (feed_record : FeedRecord.t) (headers : gmap string string) (content : string)
    (true_on_bad_feed : bool) (filter_feed : string -> feed_format -> filtered)
    (put_refused : list entity -> bool) (now : Z) (env : environ) (db : feed_store)
    (fmt : feed_format) (header_footer : pystr)
    (entities : list FeedEntryRecord.t) (payloads : list unicode)
    (ev : EventToDeliver.t) :
  try_formats (parse_order feed_record) (FeedRecord.topic feed_record) content
              filter_feed (entry_records db)
  = Parsed fmt header_footer entities payloads ->
  (0 < List.length entities <= MAX_NEW_FEED_ENTRY_RECORDS)%nat ->
  EventToDeliver.create_event_for_topic
    (FeedRecord.topic feed_record) fmt
    (FeedRecord.content_type
       (FeedRecord.update feed_record headers (Some header_footer) (Some fmt)))
    header_footer payloads now None = Some ev ->
  (forall g, put_refused g = false) ->
  parse_feed feed_record headers content true_on_bad_feed filter_feed put_refused
             now env db
  = (Return true,
     commit (FeedRecordE (FeedRecord.update feed_record headers (Some header_footer)
                                            (Some fmt))
             :: EventE ev :: List.map EntryE entities)
            (mk_txn [] (Some (EventToDeliver.next_id (event_store db)))
                    (EventToDeliver.next_id (event_store db) + 1)%N)
            (Some ev) env db).
Proof.
  intros Htry [Hsome Hfew] Hev Hnone. unfold parse_feed. rewrite Htry.
  assert (Hmany : (MAX_NEW_FEED_ENTRY_RECORDS <? List.length entities)%nat = false)
    by (apply Nat.ltb_ge; exact Hfew).
  rewrite Hmany. cbv beta iota zeta.
  destruct entities as [|e0 kept]; [simpl in Hsome; lia|].
  change (FeedRecord.topic
            (FeedRecord.update feed_record headers (Some header_footer) (Some fmt)))
    with (FeedRecord.topic feed_record).
  assert (Hgroups : forall fr,
    run_attempts PUT_SPLITTING_ATTEMPTS put_refused
      (mk_txn (py_slices MAX_FEED_RECORD_SAVES
                 (FeedRecordE fr :: [EventE ev] ++ List.map EntryE (e0 :: kept)))
              None (EventToDeliver.next_id (event_store db)))
    = Some (FeedRecordE fr :: EventE ev :: List.map EntryE (e0 :: kept),
            mk_txn [] (Some (EventToDeliver.next_id (event_store db)))
                   (EventToDeliver.next_id (event_store db) + 1)%N)).
  { intros fr. change PUT_SPLITTING_ATTEMPTS with (S 9).
    rewrite (run_attempts_unrefused _ _ _ Hnone). cbn [all_entities event_key ids].
    rewrite py_slices_concat by (unfold MAX_FEED_RECORD_SAVES; lia).
    reflexivity. }
  destruct fmt; rewrite Hev; cbv beta iota; rewrite Hgroups; reflexivity.
Qed.

Lemma apply_entries (key : option N) (recs : list FeedEntryRecord.t) (db : feed_store) :
  List.fold_left (apply_write key) (List.map EntryE recs) db
  = mk_feed_store (feed_records db)
      (List.fold_left (fun m r => <[entry_key r := r]> m) recs (entry_records db))
      (event_store db).
Proof.
  revert db. induction recs as [|r recs IH]; intros db; [destruct db; reflexivity|].
  cbn [List.map List.fold_left apply_write]. rewrite IH. reflexivity.
Qed.

Lemma commit_view (fr : FeedRecord.t) (ev : EventToDeliver.t)
    (recs : list FeedEntryRecord.t) (n i : N) (env : environ) (db : feed_store) :
  let db' :=
    commit (FeedRecordE fr :: EventE ev :: List.map EntryE recs)
           (mk_txn [] (Some n) i) (Some ev) env db in
  feed_records db' = <[FeedRecord.key_name fr := fr]> (feed_records db)
  /\ entry_records db'
     = List.fold_left (fun m r => <[entry_key r := r]> m) recs (entry_records db)
  /\ EventToDeliver.rows (event_store db')
     = <[n := with_key ev (Some n)]> (EventToDeliver.rows (event_store db))
  /\ EventToDeliver.next_id (event_store db') = i
  /\ scheduled (EventToDeliver.tasks (event_store db))
               (EventToDeliver.tasks (event_store db'))
               (EventToDeliver.last_modified ev).
Proof.
  cbv zeta. unfold commit. cbn [List.fold_left apply_write event_key ids].
  rewrite apply_entries. cbn. repeat split.
  unfold scheduled. eexists. split; reflexivity.
Qed.

Lemma filter_none {A : Type} (f : A -> bool) (l : list A) :
  (forall x, List.In x l -> f x = false) -> List.filter f l = [].
Proof.
  induction l as [|x l IH]; intros Hf; [reflexivity|].
  simpl. rewrite Hf by (left; reflexivity). apply IH.
  intros y Hy. apply Hf. right. exact Hy.
Qed.

Lemma filter_all {A : Type} (f : A -> bool) (l : list A) :
  (forall x, List.In x l -> f x = true) -> List.filter f l = l.
Proof.
  induction l as [|x l IH]; intros Hf; [reflexivity|].
  simpl. rewrite Hf by (left; reflexivity). f_equal. apply IH.
  intros y Hy. apply Hf. right. exact Hy.
Qed.

Lemma entries_found (topic : unicode) (rows : gmap (string * string) FeedEntryRecord.t)
    (seen fresh : list (unicode * unicode)) :
  (forall p, List.In p seen ->
             rows !! FeedEntryRecord.create_key topic (fst p) = Some (entry_record topic p)) ->
  (forall p, List.In p fresh ->
             rows !! FeedEntryRecord.create_key topic (fst p) = None) ->
  FeedEntryRecord.get_entries_for_topic topic (List.map fst (seen ++ fresh)) rows
  = List.map (entry_record topic) seen.
Proof.
  intros Hseen Hfresh. unfold FeedEntryRecord.get_entries_for_topic.
  rewrite List.map_app, List.flat_map_app.
  assert (H1 : forall l : list (unicode * unicode), (forall p, List.In p l ->
                 rows !! FeedEntryRecord.create_key topic (fst p)
                 = Some (entry_record topic p)) ->
               List.flat_map
                 (fun entry_id =>
                    match rows !! FeedEntryRecord.create_key topic entry_id with
                    | Some r => [r]
                    | None => []
                    end) (List.map fst l) = List.map (entry_record topic) l).
  { induction l as [|p l IH]; intros Hl; [reflexivity|].
    simpl. rewrite Hl by (left; reflexivity). simpl. f_equal.
    apply IH. intros q Hq. apply Hl. right. exact Hq. }
  assert (H2 : forall l : list (unicode * unicode), (forall p, List.In p l ->
                 rows !! FeedEntryRecord.create_key topic (fst p) = None) ->
               List.flat_map
                 (fun entry_id =>
                    match rows !! FeedEntryRecord.create_key topic entry_id with
                    | Some r => [r]
                    | None => []
                    end) (List.map fst l) = []).
  { induction l as [|p l IH]; intros Hl; [reflexivity|].
    simpl. rewrite Hl by (left; reflexivity). simpl.
    apply IH. intros q Hq. apply Hl. right. exact Hq. }
  rewrite H1 by exact Hseen. rewrite H2 by exact Hfresh. apply List.app_nil_r.
Qed.

(** The diff of a feed whose entries [seen] are stored with their current
    content and whose entries [fresh] are not stored: the fresh ones. *)
Lemma diff_finds_fresh (topic : unicode) (fmt : feed_format) (content : string)
    (filter_feed : string -> feed_format -> filtered)
    (rows : gmap (string * string) FeedEntryRecord.t)
    (header_footer : unicode) (seen fresh : list (unicode * unicode)) :
  fmt <> ARBITRARY ->
  filter_feed content fmt = Filtered header_footer (seen ++ fresh) ->
  NoDup (List.map entry_id_hash (seen ++ fresh)) ->
  (forall p, List.In p seen ->
             rows !! FeedEntryRecord.create_key topic (fst p) = Some (entry_record topic p)) ->
  (forall p, List.In p fresh ->
             rows !! FeedEntryRecord.create_key topic (fst p) = None) ->
  find_feed_updates topic fmt content filter_feed rows
  = Updates (Unicode header_footer) (List.map (entry_record topic) fresh)
            (List.map snd fresh).
Proof.
  intros Hfmt Hfilter Hnd Hseen Hfresh.
  assert (Hbody :
    match filter_feed content fmt with
    | ParseError => UpdatesParseError
    | EncodingError => UpdatesEncodingError
    | Filtered header_footer entries_map =>
        let all_keys := List.map fst entries_map in
        let existing_entries :=
          List.flat_map
            (fun key_set => FeedEntryRecord.get_entries_for_topic topic key_set rows)
            (py_slices MAX_FEED_ENTRY_RECORD_LOOKUPS all_keys) in
        let existing_dict : gmap string string :=
          List.fold_left
            (fun (d : gmap string string) e =>
               <[FeedEntryRecord.id_hash e := FeedEntryRecord.entry_content_hash e]> d)
            existing_entries ∅ in
        let changed :=
          List.filter
            (fun p : unicode * unicode =>
               let '(entry_id, new_content) := p in
               match existing_dict !! sha1_hash (Unicode entry_id) with
               | Some old_content_hash =>
                   negb (String.eqb old_content_hash (sha1_hash (Unicode new_content)))
               | None => true
               end)
            entries_map in
        Updates (Unicode header_footer)
          (List.map
             (fun p : unicode * unicode =>
                FeedEntryRecord.create_entry_for_topic
                  topic (fst p) (sha1_hash (Unicode (snd p)))) changed)
          (List.map snd changed)
    end
    = Updates (Unicode header_footer) (List.map (entry_record topic) fresh)
              (List.map snd fresh)).
  2: { unfold find_feed_updates. destruct fmt; [exact Hbody|exact Hbody|contradiction]. }
  rewrite Hfilter. cbv zeta.
  unfold FeedEntryRecord.get_entries_for_topic.
  rewrite flat_map_slices.
  rewrite py_slices_concat by (unfold MAX_FEED_ENTRY_RECORD_LOOKUPS; lia).
  change (List.flat_map
            (fun entry_id =>
               match rows !! FeedEntryRecord.create_key topic entry_id with
               | Some r => [r]
               | None => []
               end) (List.map fst (seen ++ fresh)))
    with (FeedEntryRecord.get_entries_for_topic topic (List.map fst (seen ++ fresh)) rows).
  rewrite (entries_found topic rows seen fresh Hseen Hfresh).
  set (existing_dict :=
         List.fold_left
           (fun (d : gmap string string) e =>
              <[FeedEntryRecord.id_hash e := FeedEntryRecord.entry_content_hash e]> d)
           (List.map (entry_record topic) seen) ∅).
  rewrite List.map_app in Hnd.
  assert (Hnd_seen : NoDup (List.map FeedEntryRecord.id_hash
                                          (List.map (entry_record topic) seen))).
  { rewrite List.map_map. apply NoDup_app in Hnd as (Hnd & _). exact Hnd. }
  assert (Hold : forall p, List.In p seen ->
            existing_dict !! sha1_hash (Unicode (fst p))
            = Some (sha1_hash (Unicode (snd p)))).
  { intros p Hp.
    apply (fold_insert_in FeedEntryRecord.id_hash FeedEntryRecord.entry_content_hash
             (List.map (entry_record topic) seen) ∅ (entry_record topic p) Hnd_seen).
    apply List.in_map. exact Hp. }
  assert (Hnew : forall p, List.In p fresh ->
            existing_dict !! sha1_hash (Unicode (fst p)) = None).
  { intros p Hp. unfold existing_dict.
    rewrite (fold_insert_notin FeedEntryRecord.id_hash FeedEntryRecord.entry_content_hash);
      [apply lookup_empty|].
    rewrite List.map_map. intros Hin.
    apply NoDup_app in Hnd as (_ & Hdisjoint & _).
    apply (Hdisjoint (entry_id_hash p)); [exact Hin|].
    apply list_elem_of_In. apply (List.in_map entry_id_hash). exact Hp. }
  rewrite List.filter_app.
  rewrite filter_none, filter_all; [reflexivity| |].
  - intros [entry_id new_content] Hp. pose proof (Hnew _ Hp) as Hd.
    cbn [fst] in Hd. rewrite Hd. reflexivity.
  - intros [entry_id new_content] Hp. pose proof (Hold _ Hp) as Hd.
    cbn [fst snd] in Hd. rewrite Hd, String.eqb_refl. reflexivity.
Qed.

Lemma parse_order_first (feed_record : FeedRecord.t) :
  first_format feed_record <> ARBITRARY
  /\ exists rest, parse_order feed_record = first_format feed_record :: rest.
Proof.
  unfold first_format, parse_order.
  destruct (py_contains _ _); cbn [List.hd]; (split; [discriminate|eexists; reflexivity]).
Qed.

Lemma append_hash_inj (a b : string) :
  String.append "hash_" a = String.append "hash_" b -> a = b.
Proof. simpl. intros H. injection H. auto. Qed.

Lemma entry_key_inj (topic : unicode) (p q : unicode * unicode) :
  entry_key (entry_record topic q) = entry_key (entry_record topic p) ->
  entry_id_hash q = entry_id_hash p.
Proof.
  unfold entry_key, entry_record, FeedEntryRecord.create_entry_for_topic,
    FeedEntryRecord.create_key, entry_id_hash, get_hash_key_name.
  cbn [fst snd FeedEntryRecord.parent FeedEntryRecord.key_name].
  intros H. apply (f_equal snd) in H. cbn [snd] in H.
  apply append_hash_inj. exact H.
Qed.

Lemma entry_key_elem (topic : unicode) (p : unicode * unicode)
    (l : list (unicode * unicode)) :
  entry_key (entry_record topic p) ∈ List.map entry_key (List.map (entry_record topic) l) ->
  entry_id_hash p ∈ List.map entry_id_hash l.
Proof.
  intros Hin. apply list_elem_of_In in Hin. apply list_elem_of_In.
  rewrite List.map_map in Hin. apply List.in_map_iff in Hin as (q & Hq & Hin).
  apply entry_key_inj in Hq. rewrite <- Hq. apply List.in_map. exact Hin.
Qed.

Lemma entry_keys_nodup (topic : unicode) (l : list (unicode * unicode)) :
  NoDup (List.map entry_id_hash l) ->
  NoDup (List.map entry_key (List.map (entry_record topic) l)).
Proof.
  induction l as [|p l IH]; cbn [List.map]; intros Hnd; [constructor|].
  apply NoDup_cons in Hnd as [Hp Hnd]. apply NoDup_cons. split; [|apply IH, Hnd].
  intros Hin. apply Hp. apply (entry_key_elem topic). exact Hin.
Qed.

(** The entry records after the first [seen] entries of a feed were
    written: those are stored, the others are as before. *)
Lemma entries_written (topic : unicode) (rows : gmap (string * string) FeedEntryRecord.t)
    (seen fresh : list (unicode * unicode)) :
  NoDup (List.map entry_id_hash (seen ++ fresh)) ->
  let rows' :=
    List.fold_left (fun m r => <[entry_key r := r]> m)
                   (List.map (entry_record topic) seen) rows in
  (forall p, List.In p seen ->
     rows' !! FeedEntryRecord.create_key topic (fst p) = Some (entry_record topic p))
  /\ (forall p, List.In p fresh ->
        rows' !! FeedEntryRecord.create_key topic (fst p)
        = rows !! FeedEntryRecord.create_key topic (fst p)).
Proof.
  intros Hnd. cbv zeta. rewrite List.map_app in Hnd.
  apply NoDup_app in Hnd as (Hseen & Hdisjoint & _). split.
  - intros p Hp.
    apply (fold_insert_in entry_key (fun r => r) (List.map (entry_record topic) seen)
             rows (entry_record topic p)).
    + apply entry_keys_nodup. exact Hseen.
    + apply List.in_map. exact Hp.
  - intros p Hp.
    apply (fold_insert_notin entry_key (fun r => r) (List.map (entry_record topic) seen)
             rows (entry_key (entry_record topic p))).
    intros Hin. apply entry_key_elem in Hin.
    apply (Hdisjoint _ Hin). apply list_elem_of_In. apply List.in_map. exact Hp.
Qed.

Lemma nodup_app_swap {A : Type} (l k : list A) : NoDup (l ++ k) -> NoDup (k ++ l).
Proof.
  intros H. apply NoDup_app in H as (Hl & Hd & Hk). apply NoDup_app.
  split; [exact Hk|]. split; [|exact Hl].
  intros x Hx Hx'. exact (Hd x Hx' Hx).
Qed.

Lemma decode_all_text (ts : list unicode) : decode_all (List.map Unicode ts) = Some ts.
Proof.
  induction ts as [|t ts IH]; [reflexivity|].
  cbn [List.map decode_all]. rewrite IH. reflexivity.
Qed.

Lemma create_event_spliced (topic : unicode) (fmt : feed_format)
    (content_type : option unicode) (hf : unicode) (entry_payloads : list unicode)
    (now : Z) (max_failures : option Z) (close_index : nat)
    (content_type' : option unicode) :
  fmt <> ARBITRARY ->
  EventToDeliver.locate_close hf content_type = Some (close_index, content_type') ->
  EventToDeliver.create_event_for_topic topic fmt content_type (Unicode hf)
                                        entry_payloads now max_failures
  = Some (EventToDeliver.mk None topic (sha1_hash (Unicode topic))
            (utf8_encode (spliced hf close_index entry_payloads))
            [] [] EventToDeliver.NORMAL 0 now false content_type' max_failures).
Proof.
  intros Hfmt Hclose.
  assert (Hjoin :
    py_join EventToDeliver.newline
      ([Str EventToDeliver.xml_declaration;
        same_kind (Unicode hf) (List.firstn close_index hf)]
       ++ List.map Unicode entry_payloads
       ++ [same_kind (Unicode hf) (List.skipn close_index hf)])
    = Some (Unicode (spliced hf close_index entry_payloads))).
  { cbn [same_kind].
    replace ([Str EventToDeliver.xml_declaration; Unicode (List.firstn close_index hf)]
             ++ List.map Unicode entry_payloads
             ++ [Unicode (List.skipn close_index hf)])
      with (Str EventToDeliver.xml_declaration
            :: List.map Unicode
                 (List.firstn close_index hf
                  :: entry_payloads ++ [List.skipn close_index hf]))
      by (cbn [List.map app]; rewrite List.map_app; reflexivity).
    unfold py_join. cbn [List.map List.existsb orb].
    cbn [decode_all].
    change (decode_ascii EventToDeliver.newline) with (Some (u EventToDeliver.newline)).
    change (decode_ascii EventToDeliver.xml_declaration)
      with (Some (u EventToDeliver.xml_declaration)).
    rewrite (decode_all_text (entry_payloads ++ [List.skipn close_index hf])).
    reflexivity. }
  unfold EventToDeliver.create_event_for_topic. cbn [codes].
  destruct fmt; [| |contradiction]; rewrite Hclose, Hjoin; reflexivity.
Qed.

Lemma locate_close_index (hf : unicode) (ct1 ct2 : option unicode) (close_index : nat)
    (ct1' : option unicode) :
  EventToDeliver.locate_close hf ct1 = Some (close_index, ct1') ->
  exists ct2', EventToDeliver.locate_close hf ct2 = Some (close_index, ct2').
Proof.
  unfold EventToDeliver.locate_close.
  destruct (py_rfind (u "</") hf) as [i|]; [|discriminate].
  destruct (py_contains (u "rss") (List.skipn i hf)).
  - destruct (py_rfind (u "</") (List.firstn i hf)); [|discriminate].
    intros [= <- _]. eexists. reflexivity.
  - destruct (py_contains (u "feed") (List.skipn i hf)).
    + intros [= <- _]. eexists. reflexivity.
    + destruct (py_contains (u "rdf") (List.skipn i hf));
        intros [= <- _]; eexists; reflexivity.
Qed.

Lemma try_formats_text (order : list feed_format) (topic : unicode) (content : string)
    (filter_feed : string -> feed_format -> filtered)
    (rows : gmap (string * string) FeedEntryRecord.t)
    (fmt : feed_format) (header_footer : pystr)
    (entities : list FeedEntryRecord.t) (payloads : list unicode) :
  try_formats order topic content filter_feed rows
  = Parsed fmt header_footer entities payloads ->
  entities <> [] ->
  fmt <> ARBITRARY /\ exists hf, header_footer = Unicode hf.
Proof.
  induction order as [|f order IH]; [discriminate|].
  cbn [try_formats]. unfold find_feed_updates.
  destruct f.
  - destruct (filter_feed content ATOM); [|exact IH|discriminate].
    intros [= <- <- <- <-] _. split; [discriminate|eexists; reflexivity].
  - destruct (filter_feed content RSS); [|exact IH|discriminate].
    intros [= <- <- <- <-] _. split; [discriminate|eexists; reflexivity].
  - intros [= <- <- <- <-] Hne. contradiction.
Qed.

Lemma try_formats_reaches (feed_record : FeedRecord.t) (topic : unicode)
    (content : string) (filter_feed : string -> feed_format -> filtered)
    (rows : gmap (string * string) FeedEntryRecord.t)
    (fmt : feed_format) (header_footer : pystr)
    (entities : list FeedEntryRecord.t) (payloads : list unicode) :
  fmt <> ARBITRARY ->
  fmt = first_format feed_record
  \/ filter_feed content (first_format feed_record) = ParseError ->
  find_feed_updates topic fmt content filter_feed rows
  = Updates header_footer entities payloads ->
  try_formats (parse_order feed_record) topic content filter_feed rows
  = Parsed fmt header_footer entities payloads.
Proof.
  intros Hfmt Hfirst Hfound. unfold first_format in Hfirst. unfold parse_order in *.
  destruct (py_contains _ _); cbn [List.hd] in Hfirst; cbn [try_formats];
    destruct fmt; try contradiction;
    try (rewrite Hfound; reflexivity);
    (destruct Hfirst as [Heq|Hfail]; [discriminate Heq|]);
    unfold find_feed_updates at 1; rewrite Hfail; rewrite Hfound; reflexivity.
Qed.

(** C6. When the diff finds more than 200 new or updated entries, the
    envelope has its closing tag and the Datastore refuses no [put],
    [parse_feed] commits the [FeedRecord] as it was, the first 200
    [FeedEntryRecord]s and an event whose payload is the envelope with the
    first 200 entry payloads spliced in before its closing tag, enqueues
    its delivery and returns [False]. Hence for a feed of [n] entries, all
    new, with [200 < n <= 400] (250 for one), that parses as Atom or RSS
    in the first format tried or after that one failed to parse: the first
    fetch stores the first 200 records and an event carrying the first 200
    entries and returns [False]; the fetch after it, over the same content,
    finds those 200 unchanged, stores the remaining records and a second
    event carrying the remaining entries, and returns [True]. Entry ids are
    taken to have distinct SHA-1 hashes. *)
Theorem large_burst_is_paged :
  (forall (feed_record : FeedRecord.t) (headers : gmap string string) (content : string)
          (true_on_bad_feed : bool) (filter_feed : string -> feed_format -> filtered)
          (put_refused : list entity -> bool) (now : Z) (env : environ) (db : feed_store)
          (fmt : feed_format) (header_footer : pystr)
          (entities : list FeedEntryRecord.t) (payloads : list unicode)
          (close_index : nat) (content_type : option unicode),
      try_formats (parse_order feed_record) (FeedRecord.topic feed_record) content
                  filter_feed (entry_records db)
      = Parsed fmt header_footer entities payloads ->
      (MAX_NEW_FEED_ENTRY_RECORDS < List.length entities)%nat ->
      EventToDeliver.locate_close (codes header_footer)
                                  (FeedRecord.content_type feed_record)
      = Some (close_index, content_type) ->
      (forall g, put_refused g = false) ->
      let r := parse_feed feed_record headers content true_on_bad_feed filter_feed
                          put_refused now env db in
      let n := EventToDeliver.next_id (event_store db) in
      fst r = Return false
      /\ feed_records (snd r)
         = <[FeedRecord.key_name feed_record := feed_record]> (feed_records db)
      /\ entry_records (snd r)
         = List.fold_left (fun m e => <[entry_key e := e]> m)
                          (List.firstn 200 entities) (entry_records db)
      /\ (exists ev,
            EventToDeliver.rows (event_store (snd r))
            = <[n := ev]> (EventToDeliver.rows (event_store db))
            /\ EventToDeliver.payload ev
               = utf8_encode (spliced (codes header_footer) close_index
                                      (List.firstn 200 payloads))
            /\ EventToDeliver.topic ev = FeedRecord.topic feed_record
            /\ EventToDeliver.content_type ev = content_type
            /\ EventToDeliver.delivery_mode ev = EventToDeliver.NORMAL)
      /\ scheduled (EventToDeliver.tasks (event_store db))
                   (EventToDeliver.tasks (event_store (snd r))) now)
  /\ (forall (feed_record : FeedRecord.t) (headers : gmap string string)
             (content : string) (true_on_bad_feed : bool)
             (filter_feed : string -> feed_format -> filtered)
             (now1 now2 : Z) (env : environ) (db : feed_store) (fmt : feed_format)
             (header_footer : unicode) (entries : list (unicode * unicode))
             (close_index : nat) (content_type : option unicode),
        let topic := FeedRecord.topic feed_record in
        fmt <> ARBITRARY ->
        fmt = first_format feed_record
        \/ filter_feed content (first_format feed_record) = ParseError ->
        filter_feed content fmt = Filtered header_footer entries ->
        (forall p, List.In p entries ->
                   entry_records db !! FeedEntryRecord.create_key topic (fst p) = None) ->
        NoDup (List.map entry_id_hash entries) ->
        (200 < List.length entries <= 400)%nat ->
        EventToDeliver.locate_close header_footer (FeedRecord.content_type feed_record)
        = Some (close_index, content_type) ->
        let first := parse_feed feed_record headers content true_on_bad_feed filter_feed
                                (fun _ => false) now1 env db in
        let second := parse_feed feed_record headers content true_on_bad_feed filter_feed
                                 (fun _ => false) now2 env (snd first) in
        let n := EventToDeliver.next_id (event_store db) in
        fst first = Return false
        /\ feed_records (snd first) !! FeedRecord.key_name feed_record = Some feed_record
        /\ (exists ev1,
              EventToDeliver.rows (event_store (snd first))
              = <[n := ev1]> (EventToDeliver.rows (event_store db))
              /\ EventToDeliver.payload ev1
                 = utf8_encode (spliced header_footer close_index
                                        (List.firstn 200 (List.map snd entries))))
        /\ (forall p, List.In p (List.firstn 200 entries) ->
               entry_records (snd first) !! FeedEntryRecord.create_key topic (fst p)
               = Some (entry_record topic p))
        /\ (forall p, List.In p (List.skipn 200 entries) ->
               entry_records (snd first) !! FeedEntryRecord.create_key topic (fst p)
               = None)
        /\ fst second = Return true
        /\ (exists ev2,
              EventToDeliver.rows (event_store (snd second))
              = <[(n + 1)%N := ev2]> (EventToDeliver.rows (event_store (snd first)))
              /\ EventToDeliver.payload ev2
                 = utf8_encode (spliced header_footer close_index
                                        (List.skipn 200 (List.map snd entries))))
        /\ (forall p, List.In p entries ->
               entry_records (snd second) !! FeedEntryRecord.create_key topic (fst p)
               = Some (entry_record topic p))).
Proof.
  split.
  - intros feed_record headers content true_on_bad_feed filter_feed put_refused now env
           db fmt header_footer entities payloads close_index content_type
           Htry Hmany Hclose Hnone.
    cbv zeta.
    destruct (try_formats_text _ _ _ _ _ _ _ _ _ Htry) as (Hfmt & hf & ->).
    { intros ->. simpl in Hmany. lia. }
    cbn [codes] in *.
    pose proof (create_event_spliced (FeedRecord.topic feed_record) fmt
                  (FeedRecord.content_type feed_record) hf
                  (List.firstn 200 payloads) now None close_index content_type
                  Hfmt Hclose) as Hev.
    rewrite (parse_feed_partial _ headers _ true_on_bad_feed _ _ _ env _ _ _ _ _ _
               Htry Hmany Hev Hnone).
    cbn [fst snd].
    match goal with
    | |- context [commit (FeedRecordE feed_record :: EventE ?e :: _) _ _ _ _] =>
        destruct (commit_view feed_record e
                    (List.firstn MAX_NEW_FEED_ENTRY_RECORDS entities)
                    (EventToDeliver.next_id (event_store db))
                    (EventToDeliver.next_id (event_store db) + 1)%N env db)
          as (Hfr & Hentries & Hrows & _ & Htask)
    end.
    split; [reflexivity|]. split; [exact Hfr|]. split; [exact Hentries|].
    split; [|exact Htask].
    eexists. split; [exact Hrows|]. repeat split.
  - intros feed_record headers content true_on_bad_feed filter_feed now1 now2 env db fmt
           header_footer entries close_index content_type.
    intros topic Hfmt Hreach Hfilter Habsent Hnd Hlen Hclose.
    destruct (locate_close_index header_footer (FeedRecord.content_type feed_record)
                (FeedRecord.content_type
                   (FeedRecord.update feed_record headers (Some (Unicode header_footer))
                                      (Some fmt)))
                close_index content_type Hclose) as (content_type2 & Hclose2).
    pose proof (create_event_spliced topic fmt (FeedRecord.content_type feed_record)
                  header_footer (List.firstn 200 (List.map snd entries)) now1 None
                  close_index content_type Hfmt Hclose) as Hev1.
    pose proof (create_event_spliced topic fmt
                  (FeedRecord.content_type
                     (FeedRecord.update feed_record headers
                                        (Some (Unicode header_footer)) (Some fmt)))
                  header_footer (List.skipn 200 (List.map snd entries)) now2 None
                  close_index content_type2 Hfmt Hclose2) as Hev2.
    set (ev1 := EventToDeliver.mk None topic (sha1_hash (Unicode topic))
                  (utf8_encode (spliced header_footer close_index
                                        (List.firstn 200 (List.map snd entries))))
                  [] [] EventToDeliver.NORMAL 0 now1 false content_type None) in Hev1.
    set (ev2 := EventToDeliver.mk None topic (sha1_hash (Unicode topic))
                  (utf8_encode (spliced header_footer close_index
                                        (List.skipn 200 (List.map snd entries))))
                  [] [] EventToDeliver.NORMAL 0 now2 false content_type2 None) in Hev2.
    set (seen := List.firstn 200 entries).
    set (fresh := List.skipn 200 entries).
    assert (Hsplit : seen ++ fresh = entries) by apply List.firstn_skipn.
    assert (Hin_seen : forall p, List.In p seen -> List.In p entries).
    { intros p Hp. rewrite <- Hsplit. apply List.in_or_app. left. exact Hp. }
    assert (Hin_fresh : forall p, List.In p fresh -> List.In p entries).
    { intros p Hp. rewrite <- Hsplit. apply List.in_or_app. right. exact Hp. }
    assert (Hlen_seen : List.length seen = 200%nat).
    { unfold seen. rewrite List.length_firstn. lia. }
    assert (Hlen_fresh : (0 < List.length fresh <= 200)%nat).
    { unfold fresh. rewrite List.length_skipn. lia. }
    (* the first fetch *)
    assert (Htry1 :
      try_formats (parse_order feed_record) topic content filter_feed (entry_records db)
      = Parsed fmt (Unicode header_footer) (List.map (entry_record topic) entries)
               (List.map snd entries)).
    { apply try_formats_reaches; [exact Hfmt|exact Hreach|].
      rewrite (diff_finds_fresh topic fmt content filter_feed (entry_records db)
                 header_footer [] entries Hfmt Hfilter Hnd);
        [reflexivity|intros p []|exact Habsent]. }
    assert (Hfirst :
      parse_feed feed_record headers content true_on_bad_feed filter_feed
                 (fun _ => false) now1 env db
      = (Return false,
         commit (FeedRecordE feed_record :: EventE ev1
                 :: List.map EntryE (List.map (entry_record topic) seen))
                (mk_txn [] (Some (EventToDeliver.next_id (event_store db)))
                        (EventToDeliver.next_id (event_store db) + 1)%N)
                (Some ev1) env db)).
    { rewrite (parse_feed_partial feed_record headers content true_on_bad_feed
                 filter_feed (fun _ => false) now1 env db fmt (Unicode header_footer)
                 (List.map (entry_record topic) entries) (List.map snd entries) ev1
                 Htry1).
      - unfold MAX_NEW_FEED_ENTRY_RECORDS. rewrite List.firstn_map. reflexivity.
      - rewrite List.length_map. unfold MAX_NEW_FEED_ENTRY_RECORDS. lia.
      - exact Hev1.
      - reflexivity. }
    cbv zeta. rewrite Hfirst. cbn [fst snd].
    set (db1 := commit _ _ _ env db).
    destruct (commit_view feed_record ev1 (List.map (entry_record topic) seen)
                (EventToDeliver.next_id (event_store db))
                (EventToDeliver.next_id (event_store db) + 1)%N env db)
      as (Hfr1 & Hentries1 & Hrows1 & Hnext1 & _).
    fold db1 in Hfr1, Hentries1, Hrows1, Hnext1.
    assert (Hnd_split : NoDup (List.map entry_id_hash (seen ++ fresh)))
      by (rewrite Hsplit; exact Hnd).
    destruct (entries_written topic (entry_records db) seen fresh Hnd_split)
      as (Hstored & Hkept).
    rewrite <- Hentries1 in Hstored, Hkept.
    assert (Hnone1 : forall p, List.In p fresh ->
              entry_records db1 !! FeedEntryRecord.create_key topic (fst p) = None).
    { intros p Hp. rewrite (Hkept p Hp). apply Habsent, Hin_fresh, Hp. }
    (* the second fetch *)
    assert (Htry2 :
      try_formats (parse_order feed_record) topic content filter_feed (entry_records db1)
      = Parsed fmt (Unicode header_footer) (List.map (entry_record topic) fresh)
               (List.map snd fresh)).
    { apply try_formats_reaches; [exact Hfmt|exact Hreach|].
      rewrite (diff_finds_fresh topic fmt content filter_feed (entry_records db1)
                 header_footer seen fresh Hfmt);
        [reflexivity|rewrite Hsplit; exact Hfilter|exact Hnd_split
        |exact Hstored|exact Hnone1]. }
    assert (Hsecond :
      parse_feed feed_record headers content true_on_bad_feed filter_feed
                 (fun _ => false) now2 env db1
      = (Return true,
         commit (FeedRecordE (FeedRecord.update feed_record headers
                                (Some (Unicode header_footer)) (Some fmt))
                 :: EventE ev2 :: List.map EntryE (List.map (entry_record topic) fresh))
                (mk_txn [] (Some (EventToDeliver.next_id (event_store db1)))
                        (EventToDeliver.next_id (event_store db1) + 1)%N)
                (Some ev2) env db1)).
    { apply (parse_feed_complete feed_record headers content true_on_bad_feed
               filter_feed (fun _ => false) now2 env db1 fmt (Unicode header_footer)
               (List.map (entry_record topic) fresh) (List.map snd fresh) ev2 Htry2).
      - rewrite List.length_map. unfold MAX_NEW_FEED_ENTRY_RECORDS. exact Hlen_fresh.
      - unfold fresh. rewrite <- List.skipn_map. exact Hev2.
      - reflexivity. }
    rewrite Hsecond. cbn [fst snd].
    destruct (commit_view
                (FeedRecord.update feed_record headers (Some (Unicode header_footer))
                                   (Some fmt))
                ev2 (List.map (entry_record topic) fresh)
                (EventToDeliver.next_id (event_store db1))
                (EventToDeliver.next_id (event_store db1) + 1)%N env db1)
      as (_ & Hentries2 & Hrows2 & _ & _).
    rewrite Hnext1 in Hrows2.
    assert (Hnd_swap : NoDup (List.map entry_id_hash (fresh ++ seen))).
    { rewrite List.map_app. apply nodup_app_swap. rewrite <- List.map_app.
      exact Hnd_split. }
    destruct (entries_written topic (entry_records db1) fresh seen Hnd_swap)
      as (Hstored2 & Hkept2).
    rewrite <- Hentries2 in Hstored2, Hkept2.
    split; [reflexivity|].
    split; [rewrite Hfr1; apply lookup_insert_eq|].
    split; [eexists; split; [exact Hrows1|reflexivity]|].
    split; [exact Hstored|].
    split; [exact Hnone1|].
    split; [reflexivity|].
    split; [eexists; split; [exact Hrows2|reflexivity]|].
    intros p Hp. rewrite <- Hsplit in Hp. apply List.in_app_or in Hp as [Hp|Hp].
    + rewrite (Hkept2 p Hp). apply Hstored, Hp.
    + apply Hstored2, Hp.
Qed.

Lemma large_burst_is_paged_witness :
  fst first_fetch = Return false
  /\ EventToDeliver.payload <$> (EventToDeliver.rows (event_store (snd first_fetch)) !! 1%N)
     = Some (sample_document (List.seq 1 200))
  /\ fst second_fetch = Return true
  /\ EventToDeliver.payload <$> (EventToDeliver.rows (event_store (snd second_fetch)) !! 2%N)
     = Some (sample_document (List.seq 201 50)).
Proof.
  assert (Hnd : NoDup (List.map entry_id_hash burst)).
  { apply (bool_decide_unpack _). vm_compute. exact I. }
  destruct (proj2 large_burst_is_paged fresh_record ∅ "body" true (atom_feed 250)
              5000 6000 None fresh_feed_store ATOM (u "<feed></feed>") burst
              6%nat (Some (u "application/atom+xml")))
    as (Hfirst & _ & (ev1 & Hrows1 & Hpayload1) & _ & _ & Hsecond
        & (ev2 & Hrows2 & Hpayload2) & _).
  - discriminate.
  - left. reflexivity.
  - reflexivity.
  - intros p _. apply lookup_empty.
  - exact Hnd.
  - vm_compute. lia.
  - vm_compute. reflexivity.
  - change (EventToDeliver.next_id (event_store fresh_feed_store)) with 1%N
      in Hrows1, Hrows2.
    change (1 + 1)%N with 2%N in Hrows2.
    unfold second_fetch, first_fetch.
    split; [exact Hfirst|]. split.
    { rewrite Hrows1, lookup_insert_eq. cbn [fmap option_fmap option_map].
      rewrite Hpayload1. vm_compute. reflexivity. }
    split; [exact Hsecond|].
    rewrite Hrows2, lookup_insert_eq. cbn [fmap option_fmap option_map].
    rewrite Hpayload2. vm_compute. reflexivity.
Defined.

(** * Further properties of the hub *)

(** ** Subscribers of a topic *)

Lemma ascii_compare_lt_trans (a b c : ascii) :
  Ascii.compare a b = Lt -> Ascii.compare b c = Lt -> Ascii.compare a c = Lt.
Proof.
  unfold Ascii.compare. rewrite !N.compare_lt_iff. lia.
Qed.

Lemma string_leb_trans (s1 s2 s3 : string) :
  String.leb s1 s2 = true -> String.leb s2 s3 = true -> String.leb s1 s3 = true.
Proof.
  unfold String.leb. revert s2 s3.
  induction s1 as [|a s1 IH]; intros [|b s2] [|c s3]; cbn; try congruence.
  destruct (Ascii.compare a b) eqn:Hab; try congruence;
    destruct (Ascii.compare b c) eqn:Hbc; try congruence.
  - apply Ascii.compare_eq_iff in Hab, Hbc. subst.
    assert (Hcc : Ascii.compare c c = Eq).
    { unfold Ascii.compare. apply N.compare_refl. }
    rewrite Hcc. apply IH.
  - apply Ascii.compare_eq_iff in Hab. subst. rewrite Hbc. auto.
  - apply Ascii.compare_eq_iff in Hbc. subst. rewrite Hab. auto.
  - rewrite (ascii_compare_lt_trans _ _ _ Hab Hbc). auto.
Qed.

Lemma string_leb_refl (s : string) : String.leb s s = true.
Proof.
  unfold String.leb. induction s as [|a s IH]; cbn; [reflexivity|].
  assert (Haa : Ascii.compare a a = Eq) by (unfold Ascii.compare; apply N.compare_refl).
  rewrite Haa. exact IH.
Qed.

Lemma sorted_firstn {A : Type} (R : A -> A -> Prop) (n : nat) (l : list A) :
  Sorted R l -> Sorted R (List.firstn n l).
Proof.
  revert n. induction l as [|x l IH]; intros [|n] Hs; cbn; try constructor.
  - apply IH. inversion Hs; assumption.
  - inversion Hs as [|? ? Hl Hh]; subst.
    destruct l as [|y l]; destruct n; cbn; constructor.
    inversion Hh; assumption.
Qed.

Lemma in_firstn {A : Type} (n : nat) (l : list A) (x : A) :
  List.In x (List.firstn n l) -> List.In x l.
Proof.
  revert n. induction l as [|y l IH]; intros [|n]; cbn; try tauto.
  intros [->|H]; [left; reflexivity|right; eapply IH, H].
Qed.

Lemma in_skipn {A : Type} (n : nat) (l : list A) (x : A) :
  List.In x (List.skipn n l) -> List.In x l.
Proof.
  revert n. induction l as [|y l IH]; intros [|n]; cbn; try tauto.
  intros H. right. eapply IH, H.
Qed.

Lemma py_sorted_elem {A : Type} (key : A -> string) (l : list A) (x : A) :
  x ∈ py_sorted key l <-> x ∈ l.
Proof. rewrite (py_sorted_permutation key l). reflexivity. Qed.

Lemma query_elem (topic start : unicode) (db : Subscription.store) (sub : Subscription.t) :
  sub ∈ Subscription.query topic start db
  <-> (exists k, Subscription.rows db !! k = Some sub) /\ selected topic start sub = true.
Proof.
  unfold Subscription.query. rewrite !py_sorted_elem.
  rewrite list_elem_of_In, List.filter_In. fold (selected topic start sub).
  rewrite List.in_map_iff. split.
  - intros [([k s] & Heq & Hin) Hsel]. cbn in Heq. subst s. split; [|exact Hsel].
    exists k. apply list_elem_of_In, elem_of_map_to_list in Hin. exact Hin.
  - intros [[k Hk] Hsel]. split; [|exact Hsel].
    exists (k, sub). split; [reflexivity|].
    apply list_elem_of_In, elem_of_map_to_list. exact Hk.
Qed.

Lemma query_sorted (topic start : unicode) (db : Subscription.store) :
  Sorted hash_le (Subscription.query topic start db).
Proof. unfold Subscription.query. apply (py_sorted_sorted Subscription.callback_hash). Qed.

(** X1. [Subscription.get_subscribers] returns at most [count] rows, in
    ascending order of [callback_hash]; each is a stored row of the topic in
    state [verified], and when [starting_at_callback] is given its callback
    hash is not below the hash of that callback. *)
Theorem get_subscribers_sound (topic : unicode) (count : nat) (start : unicode)
    (db : Subscription.store) :
  let found := Subscription.get_subscribers topic count start db in
  (List.length found <= count)%nat
  /\ Sorted hash_le found
  /\ List.Forall
       (fun sub =>
          (exists k, Subscription.rows db !! k = Some sub)
          /\ Subscription.topic_hash sub = sha1_hash (Unicode topic)
          /\ Subscription.subscription_state sub = Subscription.STATE_VERIFIED
          /\ (start = []
              \/ String.leb (sha1_hash (Unicode start)) (Subscription.callback_hash sub)
                 = true))
       found.
Proof.
  cbv zeta. unfold Subscription.get_subscribers. split; [|split].
  - rewrite List.length_firstn. lia.
  - apply sorted_firstn, query_sorted.
  - apply List.Forall_forall. intros sub Hin.
    apply in_firstn in Hin. apply list_elem_of_In in Hin.
    apply query_elem in Hin as [Hrow Hsel]. split; [exact Hrow|].
    unfold selected in Hsel.
    apply andb_true_iff in Hsel as [Hsel Hstart].
    apply andb_true_iff in Hsel as [Htopic Hstate].
    apply String.eqb_eq in Htopic. split; [exact Htopic|]. split.
    + destruct (Subscription.subscription_state sub); congruence.
    + destruct start; [left; reflexivity|right; exact Hstart].
Qed.

Lemma has_subscribers_true (topic : unicode) (db : Subscription.store) :
  Subscription.has_subscribers topic db = true
  <-> exists sub, sub ∈ Subscription.query topic [] db.
Proof.
  unfold Subscription.has_subscribers.
  destruct (Subscription.query topic [] db) as [|s l]; split.
  - discriminate.
  - intros [sub H]. inversion H.
  - intros _. exists s. left.
  - reflexivity.
Qed.

(** X2. [Subscription.insert] of a pair that has no row returns [True];
    the topic then has subscribers, the query finds the new row with its
    callback and [expiration_time = now + lease_seconds], and
    [Subscription.remove] of the pair returns [True] and gives back the
    Datastore as it was before the insert. *)
Theorem insert_then_remove_round_trip
    (callback topic verify_token : unicode) (secret : option unicode)
    (lease now : Z) (db : Subscription.store) :
  Subscription.get_by_key_name (Subscription.create_key_name callback topic) db = None ->
  let inserted := Subscription.insert callback topic verify_token secret lease now db in
  fst inserted = true
  /\ Subscription.has_subscribers topic (snd inserted) = true
  /\ (exists sub,
        sub ∈ Subscription.query topic [] (snd inserted)
        /\ Subscription.callback sub = callback
        /\ Subscription.expiration_time sub = now + lease)
  /\ Subscription.remove callback topic (snd inserted) = (true, db).
Proof.
  intros Hnone. cbv zeta. unfold Subscription.insert. rewrite Hnone.
  cbn [fst snd].
  set (sub := Subscription.mk _ _ _ _ _ _ _ _ _ _ _ _ _).
  assert (Hin : sub ∈ Subscription.query topic [] (Subscription.put sub db)).
  { apply query_elem. split.
    - exists (Subscription.create_key_name callback topic).
      unfold Subscription.put. cbn. apply lookup_insert_eq.
    - unfold selected, sub.
      cbn [Subscription.topic_hash Subscription.subscription_state].
      rewrite String.eqb_refl. reflexivity. }
  split; [reflexivity|]. split; [|split].
  - apply has_subscribers_true. exists sub. exact Hin.
  - exists sub. split; [exact Hin|]. split; reflexivity.
  - unfold Subscription.remove, Subscription.get_by_key_name, Subscription.put.
    cbn. rewrite lookup_insert_eq. unfold Subscription.delete. cbn.
    unfold Subscription.get_by_key_name in Hnone.
    rewrite delete_insert_id by exact Hnone. destruct db; reflexivity.
Qed.

Lemma insert_then_remove_round_trip_witness :
  Subscription.has_subscribers sample_topic
    (snd (Subscription.insert sample_callback sample_topic (u "tok") None 432000 1000
            no_subscriptions)) = true
  /\ Subscription.remove sample_callback sample_topic
       (snd (Subscription.insert sample_callback sample_topic (u "tok") None 432000 1000
               no_subscriptions))
     = (true, no_subscriptions).
Proof.
  pose proof (insert_then_remove_round_trip sample_callback sample_topic (u "tok") None
                432000 1000 no_subscriptions eq_refl) as H.
  cbv zeta in H. destruct H as (_ & Hhas & _ & Hrem). split; [exact Hhas|exact Hrem].
Defined.

(** X3. After [Subscription.archive(callback, topic)] no query of verified
    subscribers, for any topic and any starting point, returns the row of
    that pair. *)
Theorem archived_is_no_subscriber (callback topic : unicode) (db : Subscription.store)
    (any_topic start : unicode) :
  subscriptions_keyed db ->
  List.Forall
    (fun sub => String.eqb (Subscription.key_name sub)
                           (Subscription.create_key_name callback topic) = false)
    (Subscription.query any_topic start (Subscription.archive callback topic db)).
Proof.
  intros Hkeyed. apply List.Forall_forall. intros sub Hin.
  apply list_elem_of_In, query_elem in Hin as [[k Hk] Hsel].
  apply String.eqb_neq. intros Hkey.
  assert (Hkeyed' : subscriptions_keyed (Subscription.archive callback topic db)).
  { unfold Subscription.archive.
    destruct (Subscription.get_by_key_name _ db); [apply put_keyed|]; exact Hkeyed. }
  pose proof (Hkeyed' _ _ Hk) as Hname. rewrite Hkey in Hname. subst k.
  destruct (Subscription.rows db !! Subscription.create_key_name callback topic)
    as [old|] eqn:Hold.
  - destruct (archive_lookup callback topic db old Hkeyed Hold) as (sub' & Hsub' & Hst & _).
    rewrite Hk in Hsub'. injection Hsub' as ->.
    unfold selected in Hsel. rewrite Hst in Hsel.
    rewrite andb_false_r in Hsel. discriminate.
  - unfold Subscription.archive, Subscription.get_by_key_name in Hk.
    rewrite Hold in Hk. congruence.
Qed.

Lemma archived_is_no_subscriber_witness :
  Subscription.has_subscribers sample_topic one_subscription = true
  /\ List.Forall
    (fun sub => String.eqb (Subscription.key_name sub)
                           (Subscription.create_key_name sample_callback sample_topic) = false)
    (Subscription.query sample_topic []
       (Subscription.archive sample_callback sample_topic one_subscription)).
Proof.
  split; [vm_compute; reflexivity|].
  exact (archived_is_no_subscriber sample_callback sample_topic one_subscription
           sample_topic [] one_subscription_keyed).
Defined.

(** ** Paging through subscribers *)

Lemma strongly_sorted_app_r {A : Type} (R : A -> A -> Prop) (l1 l2 : list A) :
  StronglySorted R (l1 ++ l2) -> StronglySorted R l2.
Proof.
  induction l1 as [|x l1 IH]; cbn; [auto|].
  intros H. inversion H; subst. auto.
Qed.

Lemma hash_le_trans : Relations_1.Transitive hash_le.
Proof. intros a b c. unfold hash_le. apply string_leb_trans. Qed.

Lemma last_some_snoc {A : Type} (l : list A) (x : A) :
  List.last (List.map Some (l ++ [x])) None = Some x.
Proof. rewrite List.map_app. cbn. apply List.last_last. Qed.

(** X4. In normal mode [get_next_subscribers(chunk_size=n)] returns the
    first [n] rows of the query from [last_callback] and reports more
    exactly when the query has more than [n] rows; when it does, every row
    it did not return is found by the same query from the new
    [last_callback]: paging skips no subscriber. *)
Theorem paging_skips_no_subscriber (work : EventToDeliver.t) (n : nat)
    (subs : Subscription.store) :
  EventToDeliver.delivery_mode work = EventToDeliver.NORMAL ->
  callbacks_hashed subs ->
  let all :=
    Subscription.query (EventToDeliver.topic work) (EventToDeliver.last_callback work) subs in
  let r := EventToDeliver.get_next_subscribers work (Some n) subs in
  snd (fst r) = List.firstn n all
  /\ fst (fst r) = (n <? List.length all)%nat
  /\ (fst (fst r) = true ->
      forall sub, List.In sub (List.skipn n all) ->
        List.In sub (Subscription.query (EventToDeliver.topic (snd r))
                                        (EventToDeliver.last_callback (snd r)) subs)).
Proof.
  intros Hmode Hhashed. cbv zeta.
  unfold EventToDeliver.get_next_subscribers. rewrite Hmode.
  unfold Subscription.get_subscribers.
  set (all := Subscription.query (EventToDeliver.topic work)
                                 (EventToDeliver.last_callback work) subs).
  cbn [fst snd EventToDeliver.with_cursor EventToDeliver.topic EventToDeliver.last_callback].
  assert (Hmore : (n <? List.length (List.firstn (n + 1) all))%nat
                  = (n <? List.length all)%nat).
  { rewrite List.length_firstn.
    destruct (Nat.ltb_spec n (List.length all));
      [apply Nat.ltb_lt|apply Nat.ltb_ge]; lia. }
  split; [|split].
  - rewrite List.firstn_firstn. f_equal. lia.
  - exact Hmore.
  - rewrite Hmore. intros Hlt sub Hsub. apply Nat.ltb_lt in Hlt.
    pose proof (List.firstn_skipn n all) as Hsplit.
    assert (Hlen : List.length (List.firstn n all) = n)
      by (rewrite List.length_firstn; lia).
    destruct (List.skipn n all) as [|pivot rest] eqn:Hrest.
    { exfalso. apply (f_equal (@List.length _)) in Hsplit.
      rewrite List.length_app, Hlen in Hsplit. cbn in Hsplit. lia. }
    assert (Hfirst : List.firstn (n + 1) all = List.firstn n all ++ [pivot]).
    { rewrite <- Hsplit at 1. rewrite List.firstn_app, Hlen.
      rewrite List.firstn_firstn. replace (Init.Nat.min (n + 1) n) with n by lia.
      replace (n + 1 - n)%nat with 1%nat by lia. reflexivity. }
    rewrite Hfirst, last_some_snoc.
    assert (Hall : forall s, List.In s (pivot :: rest) -> List.In s all).
    { intros s Hs. rewrite <- Hsplit. apply List.in_or_app. right. exact Hs. }
    pose proof (Hall _ Hsub) as Hin.
    apply list_elem_of_In, query_elem in Hin as [Hrow Hsel].
    apply list_elem_of_In, query_elem. split; [exact Hrow|].
    unfold selected in *.
    apply andb_true_iff in Hsel as [Hsel _]. rewrite Hsel. cbn [andb].
    destruct (Subscription.callback pivot) as [|c lc] eqn:Hcb; [reflexivity|].
    rewrite <- Hcb.
    assert (Hpivot : List.In pivot all) by (apply Hall; left; reflexivity).
    apply list_elem_of_In, query_elem in Hpivot as [[k Hk] _].
    rewrite <- (Hhashed _ _ Hk).
    destruct Hsub as [->|Hsub]; [apply string_leb_refl|].
    pose proof (query_sorted (EventToDeliver.topic work)
                  (EventToDeliver.last_callback work) subs) as Hsorted.
    fold all in Hsorted. apply (Sorted_StronglySorted hash_le_trans) in Hsorted.
    rewrite <- Hsplit in Hsorted. apply strongly_sorted_app_r in Hsorted.
    inversion Hsorted as [|? ? _ Hforall]; subst.
    rewrite List.Forall_forall in Hforall. exact (Hforall _ Hsub).
Qed.

(** ** Delivery rounds *)

Lemma flat_map_nil {A B : Type} (f : A -> list B) (l : list A) :
  (forall x, List.In x l -> f x = []) -> List.flat_map f l = [].
Proof.
  induction l as [|x l IH]; intros H; cbn; [reflexivity|].
  rewrite H by (left; reflexivity). cbn. apply IH. intros y Hy. apply H. right. exact Hy.
Qed.

Lemma pushes_urls (work : EventToDeliver.t) (chunk : list Subscription.t)
    (allowed : unicode -> bool) :
  List.map PushEventHandler.url (List.map snd (PushEventHandler.pushes work chunk allowed))
  = List.filter allowed (List.map Subscription.callback chunk).
Proof.
  unfold PushEventHandler.pushes.
  induction chunk as [|s l IH]; cbn; [reflexivity|].
  destruct (allowed (Subscription.callback s)); cbn; [f_equal|]; exact IH.
Qed.

(** X5. An event in normal mode with no failed callbacks, whose
    subscribers fit one chunk and all answer 2xx, is posted to every
    callback of the query that the delivery scorer allows, and its row is
    deleted by that one run of [PushEventHandler.post]; no task is
    enqueued. *)
Theorem delivery_completes_in_one_round
    (work : EventToDeliver.t) (allowed : unicode -> bool)
    (respond : PushEventHandler.request -> option fetch_result) (now : Z)
    (env : environ) (subs : Subscription.store) (db : EventToDeliver.store) (k : N) :
  EventToDeliver.delivery_mode work = EventToDeliver.NORMAL ->
  EventToDeliver.failed_callbacks work = [] ->
  EventToDeliver.key work = Some k ->
  (List.length (Subscription.query (EventToDeliver.topic work)
                                   (EventToDeliver.last_callback work) subs)
   <= EVENT_SUBSCRIBER_CHUNK_SIZE)%nat ->
  (forall r, PushEventHandler.delivered (respond r) = true) ->
  let r := PushEventHandler.post work allowed respond now env subs db in
  List.map PushEventHandler.url (fst r)
  = List.filter allowed
      (List.map Subscription.callback
         (Subscription.query (EventToDeliver.topic work)
                             (EventToDeliver.last_callback work) subs))
  /\ snd (snd r)
     = EventToDeliver.mk_store (base.delete k (EventToDeliver.rows db))
                               (EventToDeliver.next_id db) (EventToDeliver.tasks db).
Proof.
  intros Hmode Hfailed Hkey Hfew Hok. cbv zeta.
  unfold PushEventHandler.post, EventToDeliver.get_next_subscribers.
  rewrite Hmode. unfold Subscription.get_subscribers.
  set (all := Subscription.query (EventToDeliver.topic work)
                                 (EventToDeliver.last_callback work) subs) in *.
  assert (Hall : List.firstn (EVENT_SUBSCRIBER_CHUNK_SIZE + 1) all = all).
  { apply List.firstn_all2. lia. }
  rewrite Hall.
  assert (Hmore : (EVENT_SUBSCRIBER_CHUNK_SIZE <? List.length all)%nat = false)
    by (apply Nat.ltb_ge; exact Hfew).
  rewrite Hmore.
  assert (Hchunk : List.firstn EVENT_SUBSCRIBER_CHUNK_SIZE all = all)
    by (apply List.firstn_all2; exact Hfew).
  rewrite Hchunk. cbn [fst snd].
  split.
  - apply pushes_urls.
  - rewrite flat_map_nil.
    2:{ intros [sub req] _. rewrite Hok. reflexivity. }
    unfold EventToDeliver.update.
    cbn [EventToDeliver.failed_callbacks EventToDeliver.with_cursor].
    rewrite Hfailed. cbn [List.map app py_sorted List.fold_right snd].
    unfold EventToDeliver.delete, EventToDeliver.with_cursor.
    cbn [EventToDeliver.key]. rewrite Hkey. reflexivity.
Qed.

Lemma in_flat_map_if {A B : Type} (c : A -> bool) (g : A -> B) (l : list A) (y : B) :
  List.In y (List.flat_map (fun x => if c x then [] else [g x]) l)
  -> exists x, List.In x l /\ c x = false /\ y = g x.
Proof.
  intros H. apply List.in_flat_map in H as (x & Hx & Hy).
  destruct (c x) eqn:Hc; [destruct Hy|].
  destruct Hy as [<-|[]]. exists x. auto.
Qed.

(** X6. [PushEventHandler.post] posts only to callbacks that the delivery
    scorer allows, and the callbacks it adds to [failed_callbacks] are
    subscribers of the chunk that were allowed, were sent a request and did
    not answer 2xx: a callback the scorer holds back is neither contacted
    nor recorded as failed. *)
Theorem denied_callbacks_are_left_alone
    (work : EventToDeliver.t) (allowed : unicode -> bool)
    (respond : PushEventHandler.request -> option fetch_result) (now : Z)
    (env : environ) (subs : Subscription.store) (db : EventToDeliver.store) :
  let chunk := snd (fst (EventToDeliver.get_next_subscribers work None subs)) in
  let left := EventToDeliver.failed_callbacks
                (snd (EventToDeliver.get_next_subscribers work None subs)) in
  let r := PushEventHandler.post work allowed respond now env subs db in
  List.Forall (fun req => allowed (PushEventHandler.url req) = true) (fst r)
  /\ exists failed,
       EventToDeliver.failed_callbacks (fst (snd r))
       = left ++ List.map Subscription.key_name failed
       /\ List.Forall
            (fun sub =>
               List.In sub chunk
               /\ allowed (Subscription.callback sub) = true
               /\ exists req,
                    List.In req (fst r)
                    /\ PushEventHandler.url req = Subscription.callback sub
                    /\ PushEventHandler.delivered (respond req) = false)
            failed.
Proof.
  cbv zeta. unfold PushEventHandler.post.
  destruct (EventToDeliver.get_next_subscribers work None subs)
    as [[more chunk] work'] eqn:Hnext.
  cbn [fst snd].
  assert (Hsent : forall sub req,
            List.In (sub, req) (PushEventHandler.pushes work' chunk allowed) ->
            List.In sub chunk /\ allowed (Subscription.callback sub) = true
            /\ PushEventHandler.url req = Subscription.callback sub).
  { intros sub req Hin. unfold PushEventHandler.pushes in Hin.
    apply List.in_flat_map in Hin as (s & Hs & Hin).
    destruct (allowed (Subscription.callback s)) eqn:Hal; [|destruct Hin].
    destruct Hin as [Heq|[]]. injection Heq as <- <-. auto. }
  split.
  - apply List.Forall_forall. intros req Hreq.
    apply List.in_map_iff in Hreq as ([sub req'] & Heq & Hin). cbn in Heq. subst req'.
    destruct (Hsent _ _ Hin) as (_ & Hal & ->). exact Hal.
  - rewrite update_failed_callbacks.
    set (failed := List.flat_map _ (PushEventHandler.pushes work' chunk allowed)).
    exists (py_sorted Subscription.callback_hash failed). split; [reflexivity|].
    apply List.Forall_forall. intros sub Hsub.
    apply list_elem_of_In, py_sorted_elem, list_elem_of_In in Hsub.
    unfold failed in Hsub.
    apply List.in_flat_map in Hsub as ([s req] & Hin & Hs).
    destruct (PushEventHandler.delivered (respond req)) eqn:Hd; [destruct Hs|].
    destruct Hs as [<-|[]].
    destruct (Hsent _ _ Hin) as (Hc & Hal & Hurl).
    split; [exact Hc|]. split; [exact Hal|].
    exists req. split; [|split; [exact Hurl|exact Hd]].
    apply List.in_map_iff. exists (s, req). split; [reflexivity|exact Hin].
Qed.

(** ** parse_feed: formats and unchanged feeds *)

Lemma try_formats_falls_back
    (feed_record : FeedRecord.t) (content : string)
    (filter_feed : string -> feed_format -> filtered)
    (rows : gmap (string * string) FeedEntryRecord.t) :
  filter_feed content ATOM = ParseError -> filter_feed content RSS = ParseError ->
  try_formats (parse_order feed_record) (FeedRecord.topic feed_record) content
              filter_feed rows
  = Parsed ARBITRARY (Str content) [] [].
Proof.
  intros Hatom Hrss. unfold parse_order.
  destruct (py_contains _ _); cbn [try_formats]; unfold find_feed_updates;
    rewrite Hatom, Hrss; reflexivity.
Qed.

(** X7. Whatever the parser answers, the loop of [parse_feed] over the
    formats ends on a bad encoding or with a parse: [arbitrary] is always
    tried last and always parses, so the branch that gives up on a feed is
    never taken. When both the Atom and the RSS parse fail, the content is
    taken as [arbitrary], with no entry. *)
Theorem arbitrary_is_the_last_resort
    (feed_record : FeedRecord.t) (content : string)
    (filter_feed : string -> feed_format -> filtered)
    (rows : gmap (string * string) FeedEntryRecord.t) :
  let tried :=
    try_formats (parse_order feed_record) (FeedRecord.topic feed_record) content
                filter_feed rows in
  (tried = BadEncoding
   \/ exists fmt header_footer entities payloads,
        tried = Parsed fmt header_footer entities payloads)
  /\ (filter_feed content ATOM = ParseError -> filter_feed content RSS = ParseError ->
      tried = Parsed ARBITRARY (Str content) [] []).
Proof.
  cbv zeta. split; [|apply try_formats_falls_back].
  unfold parse_order.
  destruct (py_contains _ _); cbn [try_formats]; unfold find_feed_updates;
    destruct (filter_feed content ATOM), (filter_feed content RSS); eauto 10.
Qed.

Lemma parse_feed_unchanged
    (feed_record : FeedRecord.t) (headers : gmap string string) (content : string)
    (true_on_bad_feed : bool) (filter_feed : string -> feed_format -> filtered)
    (put_refused : list entity -> bool) (now : Z) (env : environ) (db : feed_store)
    (fmt : feed_format) (header_footer : pystr) :
  try_formats (parse_order feed_record) (FeedRecord.topic feed_record) content
              filter_feed (entry_records db)
  = Parsed fmt header_footer [] [] ->
  fmt <> ARBITRARY ->
  (forall g, put_refused g = false) ->
  parse_feed feed_record headers content true_on_bad_feed filter_feed put_refused
             now env db
  = (Return true,
     mk_feed_store
       (<[FeedRecord.key_name feed_record :=
            FeedRecord.update feed_record headers (Some header_footer) (Some fmt)]>
          (feed_records db))
       (entry_records db)
       (EventToDeliver.mk_store (EventToDeliver.rows (event_store db))
                                (EventToDeliver.next_id (event_store db))
                                (EventToDeliver.tasks (event_store db)))).
Proof.
  intros Htry Hfmt Hnone. unfold parse_feed. rewrite Htry.
  cbn [List.length Nat.ltb Nat.leb negb List.map app].
  change (MAX_NEW_FEED_ENTRY_RECORDS <? 0)%nat with false. cbv beta iota zeta.
  assert (Hcreated :
    match fmt, @nil FeedEntryRecord.t with
    | ATOM, [] | RSS, [] => Some (@None EventToDeliver.t)
    | _, _ =>
        match EventToDeliver.create_event_for_topic
                (FeedRecord.topic
                   (FeedRecord.update feed_record headers (Some header_footer) (Some fmt)))
                fmt
                (FeedRecord.content_type
                   (FeedRecord.update feed_record headers (Some header_footer) (Some fmt)))
                header_footer [] now None with
        | Some ev => Some (Some ev)
        | None => None
        end
    end = Some None) by (destruct fmt; [reflexivity|reflexivity|contradiction]).
  rewrite Hcreated. cbv beta iota zeta. cbn [app List.map].
  change PUT_SPLITTING_ATTEMPTS with (S 9).
  rewrite (run_attempts_unrefused _ _ _ Hnone). cbn [all_entities event_key ids].
  rewrite py_slices_concat by (unfold MAX_FEED_RECORD_SAVES; lia).
  reflexivity.
Qed.

(** X8. When the first format tried parses the content and every entry
    found is already stored with the same content hash, [parse_feed]
    returns [True], rewrites only the [FeedRecord], and leaves the entry
    records and the events (rows and tasks) as they were. *)
Theorem unchanged_feed_makes_no_event
    (feed_record : FeedRecord.t) (headers : gmap string string) (content : string)
    (true_on_bad_feed : bool) (filter_feed : string -> feed_format -> filtered)
    (put_refused : list entity -> bool) (now : Z) (env : environ) (db : feed_store)
    (header_footer : unicode) (entries : list (unicode * unicode)) :
  let topic := FeedRecord.topic feed_record in
  let fmt := first_format feed_record in
  filter_feed content fmt = Filtered header_footer entries ->
  (forall p, List.In p entries ->
             entry_records db !! FeedEntryRecord.create_key topic (fst p)
             = Some (entry_record topic p)) ->
  NoDup (List.map entry_id_hash entries) ->
  (forall g, put_refused g = false) ->
  let r := parse_feed feed_record headers content true_on_bad_feed filter_feed
                      put_refused now env db in
  fst r = Return true
  /\ feed_records (snd r)
     = <[FeedRecord.key_name feed_record :=
           FeedRecord.update feed_record headers (Some (Unicode header_footer)) (Some fmt)]>
         (feed_records db)
  /\ entry_records (snd r) = entry_records db
  /\ event_store (snd r) = event_store db.
Proof.
  intros topic fmt Hfilter Hstored Hnd Hnone. cbv zeta.
  destruct (parse_order_first feed_record) as (Hfmt & rest & Horder).
  fold fmt in Hfmt, Horder.
  assert (Htry :
    try_formats (parse_order feed_record) topic content filter_feed (entry_records db)
    = Parsed fmt (Unicode header_footer) [] []).
  { rewrite Horder. cbn [try_formats].
    rewrite (diff_finds_fresh topic fmt content filter_feed (entry_records db)
               header_footer entries [] Hfmt);
      [reflexivity|rewrite List.app_nil_r; exact Hfilter
      |rewrite List.app_nil_r; exact Hnd|exact Hstored|intros p []]. }
  rewrite (parse_feed_unchanged feed_record headers content true_on_bad_feed filter_feed
             put_refused now env db fmt (Unicode header_footer) Htry Hfmt Hnone).
  cbn [fst snd feed_records entry_records event_store].
  repeat split. destruct (event_store db); reflexivity.
Qed.

(** X9. Content that parses neither as Atom nor as RSS is delivered as it
    is: [parse_feed] returns [True], stores an event in normal mode whose
    payload is the fetched content, with the content type of the response,
    and enqueues its delivery; the [header_footer] of the [FeedRecord] is
    left as it was and no entry record is written. *)
Theorem unparsable_content_is_delivered_verbatim
    (feed_record : FeedRecord.t) (headers : gmap string string) (content : string)
    (true_on_bad_feed : bool) (filter_feed : string -> feed_format -> filtered)
    (put_refused : list entity -> bool) (now : Z) (env : environ) (db : feed_store) :
  filter_feed content ATOM = ParseError ->
  filter_feed content RSS = ParseError ->
  (forall g, put_refused g = false) ->
  let r := parse_feed feed_record headers content true_on_bad_feed filter_feed
                      put_refused now env db in
  let n := EventToDeliver.next_id (event_store db) in
  let updated := FeedRecord.update feed_record headers (Some (Str content)) (Some ARBITRARY) in
  fst r = Return true
  /\ feed_records (snd r) !! FeedRecord.key_name feed_record = Some updated
  /\ FeedRecord.header_footer updated = FeedRecord.header_footer feed_record
  /\ entry_records (snd r) = entry_records db
  /\ (exists ev,
        EventToDeliver.rows (event_store (snd r)) !! n = Some ev
        /\ EventToDeliver.payload ev = content
        /\ EventToDeliver.topic ev = FeedRecord.topic feed_record
        /\ EventToDeliver.content_type ev = FeedRecord.content_type updated
        /\ EventToDeliver.delivery_mode ev = EventToDeliver.NORMAL
        /\ scheduled (EventToDeliver.tasks (event_store db))
                     (EventToDeliver.tasks (event_store (snd r))) now).
Proof.
  intros Hatom Hrss Hnone. cbv zeta.
  pose proof (try_formats_falls_back feed_record content filter_feed
                                     (entry_records db) Hatom Hrss) as Htry.
  unfold parse_feed. rewrite Htry.
  cbn [List.length List.map app]. change (MAX_NEW_FEED_ENTRY_RECORDS <? 0)%nat with false.
  cbv beta iota zeta.
  unfold EventToDeliver.create_event_for_topic. cbv beta iota zeta.
  cbn [app List.map].
  change PUT_SPLITTING_ATTEMPTS with (S 9).
  rewrite (run_attempts_unrefused _ _ _ Hnone). cbn [all_entities event_key ids].
  rewrite py_slices_concat by (unfold MAX_FEED_RECORD_SAVES; lia).
  cbn [List.concat app allocate_id List.existsb is_event orb fst snd].
  unfold commit. cbn [List.fold_left apply_write event_key ids feed_records
                      entry_records event_store fst snd].
  split; [reflexivity|]. split; [apply lookup_insert_eq|].
  split; [reflexivity|]. split; [reflexivity|].
  eexists. split; [|split; [|split; [|split; [|split]]]].
  - cbn [EventToDeliver.enqueue EventToDeliver.rows]. apply lookup_insert_eq.
  - reflexivity.
  - reflexivity.
  - reflexivity.
  - reflexivity.
  - unfold scheduled. eexists. split; reflexivity.
Qed.

(** ** Key names *)

Lemma length_string_of_list_ascii (l : list ascii) :
  String.length (string_of_list_ascii l) = List.length l.
Proof. induction l as [|a l IH]; cbn; [reflexivity|]. rewrite IH. reflexivity. Qed.

Lemma length_string_append (a b : string) :
  String.length (String.append a b) = (String.length a + String.length b)%nat.
Proof.
  induction a as [|c a IH]; [reflexivity|].
  change (S (String.length (String.append a b)) = S (String.length a + String.length b)).
  f_equal. exact IH.
Qed.

Lemma hex_digit_in (n : N) : (n <= 15)%N -> List.In (SHA1.hex_digit n) hex_digits.
Proof.
  intros Hn.
  assert (Hall :
    List.forallb
      (fun k => List.existsb (Ascii.eqb (SHA1.hex_digit (N.of_nat k))) hex_digits)
      (List.seq 0 16) = true) by (vm_compute; reflexivity).
  rewrite List.forallb_forall in Hall.
  specialize (Hall (N.to_nat n)). rewrite N2Nat.id in Hall.
  assert (Hin : List.In (N.to_nat n) (List.seq 0 16)) by (apply List.in_seq; lia).
  apply Hall in Hin. apply List.existsb_exists in Hin as (c & Hc & Heq).
  apply Ascii.eqb_eq in Heq. subst c. exact Hc.
Qed.

Lemma digest_bytes (msg : list N) :
  List.length (SHA1.digest msg) = 20%nat
  /\ List.Forall (fun b => (b <= 255)%N) (SHA1.digest msg).
Proof.
  unfold SHA1.digest. cbv zeta.
  set (s := List.fold_left SHA1.compress _ SHA1.init).
  cbn [List.flat_map]. unfold SHA1.be_bytes. cbn [List.seq List.rev app List.map].
  split; [reflexivity|].
  repeat (apply List.Forall_cons; [apply N.land_le_r|]). apply List.Forall_nil.
Qed.

Lemma hex_shape (bs : list N) :
  List.Forall (fun b => (b <= 255)%N) bs ->
  String.length (SHA1.hex bs) = (2 * List.length bs)%nat
  /\ List.Forall (fun c => List.In c hex_digits) (list_ascii_of_string (SHA1.hex bs)).
Proof.
  unfold SHA1.hex. rewrite length_string_of_list_ascii, list_ascii_of_string_of_list_ascii.
  induction 1 as [|b bs Hb _ [IHl IHd]]; cbn [List.flat_map List.length app].
  - split; [reflexivity|constructor].
  - split; [cbn [List.length]; rewrite IHl; lia|].
    constructor; [|constructor; [|exact IHd]]; apply hex_digit_in.
    + rewrite N.shiftr_div_pow2. change (2 ^ 4)%N with 16%N.
      apply N.lt_succ_r. apply N.Div0.div_lt_upper_bound. lia.
    + etransitivity; [apply N.land_le_r|]. reflexivity.
Qed.

(** A key name made by [get_hash_key_name] is ['hash_'] followed by the 40
    hexadecimal digits of the SHA-1 of the value. *)
Lemma key_names_are_short (value : pystr) :
  exists digest,
    get_hash_key_name value = String.append "hash_" digest
    /\ digest = sha1_hash value
    /\ String.length digest = 40%nat
    /\ List.Forall (fun c => List.In c hex_digits) (list_ascii_of_string digest)
    /\ String.length (get_hash_key_name value) = 45%nat.
Proof.
  exists (sha1_hash value). unfold get_hash_key_name.
  destruct (digest_bytes (bytes_of_string (utf8 value))) as [Hlen Hbytes].
  destruct (hex_shape _ Hbytes) as [Hhex Hdigits]. rewrite Hlen in Hhex.
  unfold sha1_hash, SHA1.hexdigest.
  split; [reflexivity|]. split; [reflexivity|]. split; [exact Hhex|].
  split; [exact Hdigits|]. rewrite length_string_append, Hhex. reflexivity.
Qed.

(** ** Aliases of a feed *)

Lemma fold_left_invariant {A B : Type} (f : A -> B -> A) (I : A -> Prop)
    (l : list B) (a : A) :
  I a -> (forall a x, List.In x l -> I a -> I (f a x)) -> I (List.fold_left f l a).
Proof.
  revert a. induction l as [|x l IH]; intros a Ha Hstep; cbn; [exact Ha|].
  apply IH.
  - apply Hstep; [left; reflexivity|exact Ha].
  - intros a' y Hy. apply Hstep. right. exact Hy.
Qed.

(** X10. [KnownFeedIdentity.update] keeps the aliases of a feed id free of
    duplicates, adds the topic, loses no alias, and a second update with
    the same topic leaves the list as it is. *)
Theorem update_keeps_aliases_distinct (feed_id topic : unicode) (now now' : Z)
    (ids : gmap string KnownFeedIdentity.t) :
  identities_keyed ids ->
  NoDup (aliases ids feed_id) ->
  let ids' := snd (KnownFeedIdentity.update feed_id topic now ids) in
  NoDup (aliases ids' feed_id)
  /\ (topic ∈ aliases ids' feed_id)
  /\ (forall t, t ∈ aliases ids feed_id -> t ∈ aliases ids' feed_id)
  /\ aliases (snd (KnownFeedIdentity.update feed_id topic now' ids')) feed_id
     = aliases ids' feed_id.
Proof.
  intros Hkeyed Hnd. cbv zeta.
  destruct (update_aliases feed_id topic now ids Hkeyed) as (i & Hi & Htopics).
  assert (Hal : aliases (snd (KnownFeedIdentity.update feed_id topic now ids)) feed_id
                = KnownFeedIdentity.topics i).
  { unfold aliases at 1. rewrite Hi. reflexivity. }
  assert (Hin : topic ∈ KnownFeedIdentity.topics i).
  { rewrite Htopics. destruct (decide (topic ∈ aliases ids feed_id)) as [H|H];
      [exact H|]. apply elem_of_app. right. apply list_elem_of_singleton. reflexivity. }
  rewrite Hal. split; [|split; [exact Hin|split]].
  - rewrite Htopics. destruct (decide (topic ∈ aliases ids feed_id)) as [H|H];
      [exact Hnd|].
    apply NoDup_app. split; [exact Hnd|]. split; [|apply NoDup_singleton].
    intros x Hx Hx'. apply list_elem_of_singleton in Hx'. subst x. contradiction.
  - intros t Ht. rewrite Htopics.
    destruct (decide (topic ∈ aliases ids feed_id)); [exact Ht|].
    apply elem_of_app. left. exact Ht.
  - pose proof (update_keyed feed_id topic now ids Hkeyed) as Hkeyed'.
    destruct (update_aliases feed_id topic now'
                (snd (KnownFeedIdentity.update feed_id topic now ids)) Hkeyed')
      as (j & Hj & Hjt).
    unfold aliases at 1. rewrite Hj, Hjt, Hal.
    destruct (decide (topic ∈ KnownFeedIdentity.topics i)); [reflexivity|contradiction].
Qed.

Lemma update_keeps_aliases_distinct_witness :
  NoDup (aliases two_aliases sample_feed_id)
  /\ aliases (snd (KnownFeedIdentity.update sample_feed_id sample_alias 30 two_aliases))
             sample_feed_id
     = [sample_topic; sample_alias].
Proof.
  assert (Hkeyed : identities_keyed (snd (KnownFeedIdentity.update sample_feed_id
                                            sample_topic 10 ∅))).
  { apply update_keyed. intros k i Hk. rewrite lookup_empty in Hk. discriminate. }
  assert (Hone : aliases (snd (KnownFeedIdentity.update sample_feed_id sample_topic 10 ∅))
                         sample_feed_id = [sample_topic])
    by (vm_compute; reflexivity).
  assert (Hnd : NoDup (aliases (snd (KnownFeedIdentity.update sample_feed_id
                                       sample_topic 10 ∅)) sample_feed_id)).
  { rewrite Hone. apply NoDup_singleton. }
  destruct (update_keeps_aliases_distinct sample_feed_id sample_alias 20 30 _ Hkeyed Hnd)
    as (Hnd' & _ & _ & Hsame).
  split; [exact Hnd'|].
  unfold two_aliases. rewrite Hsame. vm_compute. reflexivity.
Defined.

(** X11. Every entry of the dictionary that [derive_additional_topics]
    returns is keyed by the topic of a [KnownFeed] found for one of the
    given topics, and its set of aliases contains that key. *)
Theorem derived_topics_contain_their_key (topics : list unicode)
    (feeds : gmap string KnownFeed.t) (ids : gmap string KnownFeedIdentity.t) :
  map_Forall
    (fun k (s : gset unicode) => k ∈ s /\ known_topic topics feeds k)
    (KnownFeedIdentity.derive_additional_topics topics feeds ids).
Proof.
  unfold KnownFeedIdentity.derive_additional_topics.
  set (P := known_topic topics feeds).
  set (I := fun od : gmap unicode (gset unicode) =>
              map_Forall (fun k (s : gset unicode) => k ∈ s /\ P k) od).
  assert (Hsplit :
    I (KnownFeedIdentity.split_known
         (List.map (fun t => feeds !! KnownFeed.create_key t) (remove_dups topics))).1
    /\ List.Forall (fun p : unicode * unicode => P p.1)
         (KnownFeedIdentity.split_known
            (List.map (fun t => feeds !! KnownFeed.create_key t) (remove_dups topics))).2).
  { unfold KnownFeedIdentity.split_known.
    apply (fold_left_invariant _
             (fun acc : gmap unicode (gset unicode) * list (unicode * unicode) =>
                I acc.1 /\ List.Forall (fun p : unicode * unicode => P p.1) acc.2)).
    - split; [apply map_Forall_empty|constructor].
    - intros [od pairs] feed Hfeed [Hod Hpairs]. cbn [fst snd] in *.
      destruct feed as [feed|]; [|split; assumption].
      assert (HP : P (KnownFeed.topic feed)).
      { apply List.in_map_iff in Hfeed as (t & Ht & Hin).
        exists t, feed. split; [|split; [exact Ht|reflexivity]].
        apply elem_of_remove_dups, list_elem_of_In. exact Hin. }
      assert (Hecho : I (<[KnownFeed.topic feed := {[KnownFeed.topic feed]}]> od)).
      { apply map_Forall_insert_2; [|exact Hod].
        split; [apply elem_of_singleton; reflexivity|exact HP]. }
      destruct (KnownFeed.feed_id feed) as [fid|]; [|split; assumption].
      destruct (strip fid); [split; assumption|].
      split; [exact Hod|]. apply List.Forall_app. split; [exact Hpairs|].
      constructor; [exact HP|constructor]. }
  destruct (KnownFeedIdentity.split_known _) as [od pairs]. cbn [fst snd] in Hsplit.
  destruct Hsplit as [Hod Hpairs].
  apply (fold_left_invariant _ I); [exact Hod|].
  intros od' [kt f] Hin Hod'.
  rewrite List.Forall_forall in Hpairs. pose proof (Hpairs _ Hin) as HP. cbn in HP.
  destruct (ids !! KnownFeedIdentity.create_key f) as [identified|]; [|exact Hod'].
  assert (Hset : kt ∈ match od' !! kt with Some ts => ts | None => ({[kt]} : gset unicode) end).
  { destruct (od' !! kt) as [ts|] eqn:Hts.
    - apply (Hod' _ _ Hts).
    - apply elem_of_singleton. reflexivity. }
  destruct (25 <? _)%nat; apply map_Forall_insert_2; try exact Hod'.
  - split; [exact Hset|exact HP].
  - split; [apply elem_of_union; left; exact Hset|exact HP].
Qed.

(** X12. The entities and the payloads that [find_feed_updates] returns
    correspond position by position: the [entry_content_hash] of each
    entity is the SHA-1 of the payload at its index and each entity is a
    child of the topic's [FeedRecord]; so slices of the two lists of the
    same bound have the same length. *)
Theorem updates_are_aligned (topic : unicode) (fmt : feed_format) (content : string)
    (filter_feed : string -> feed_format -> filtered)
    (rows : gmap (string * string) FeedEntryRecord.t)
    (header_footer : pystr) (entities : list FeedEntryRecord.t)
    (payloads : list unicode) :
  find_feed_updates topic fmt content filter_feed rows
  = Updates header_footer entities payloads ->
  List.Forall2
    (fun e p =>
       FeedEntryRecord.entry_content_hash e = sha1_hash (Unicode p)
       /\ FeedEntryRecord.parent e = FeedRecord.create_key_name topic)
    entities payloads
  /\ (forall n,
        List.length (List.firstn n entities) = List.length (List.firstn n payloads)).
Proof.
  intros Hfind.
  assert (H : exists changed : list (unicode * unicode),
            entities = List.map (fun p => FeedEntryRecord.create_entry_for_topic
                                             topic (fst p) (sha1_hash (Unicode (snd p))))
                                changed
            /\ payloads = List.map snd changed).
  { unfold find_feed_updates in Hfind.
    destruct fmt; try (injection Hfind as _ <- <-; exists []; split; reflexivity);
      destruct (filter_feed content _); try discriminate;
      injection Hfind as _ <- <-; eexists; split; reflexivity. }
  destruct H as (changed & -> & ->). split.
  - clear Hfind. induction changed as [|p l IH]; cbn [List.map];
      [apply List.Forall2_nil|apply List.Forall2_cons; [split; reflexivity|exact IH]].
  - intros n. rewrite !List.length_firstn, !List.length_map. reflexivity.
Qed.

(** ** normalize_iri *)

Lemma bytes_of_string_bounded (s : string) :
  List.Forall (fun b => (b < 256)%N) (bytes_of_string s).
Proof.
  unfold bytes_of_string. apply List.Forall_forall. intros b Hb.
  apply List.in_map_iff in Hb as (a & <- & _). apply N_ascii_bounded.
Qed.

Lemma bytes_of_string_of_bytes (l : list N) :
  List.Forall (fun b => (b < 256)%N) l -> bytes_of_string (string_of_bytes l) = l.
Proof.
  unfold bytes_of_string, string_of_bytes. rewrite list_ascii_of_string_of_list_ascii.
  induction 1 as [|b l Hb _ IH]; cbn [List.map]; [reflexivity|].
  rewrite N_ascii_embedding by exact Hb. f_equal. exact IH.
Qed.

Lemma upper_hex_digit_ascii (n : N) : (n <= 15)%N -> (upper_hex_digit n < 128)%N.
Proof. unfold upper_hex_digit. destruct (n <? 10)%N; lia. Qed.

Lemma quote_byte_ascii (b : N) :
  (b < 256)%N -> List.Forall (fun c => (c < 128)%N) (quote_byte b).
Proof.
  intros Hb. unfold quote_byte.
  destruct (always_safe b || (b =? 47)%N) eqn:Hsafe.
  - constructor; [|constructor]. unfold always_safe in Hsafe.
    repeat (rewrite ?orb_true_iff, ?andb_true_iff, ?N.leb_le, ?N.eqb_eq in Hsafe). lia.
  - constructor; [lia|]. constructor; [|constructor; [|constructor]];
      apply upper_hex_digit_ascii.
    + rewrite N.shiftr_div_pow2. change (2 ^ 4)%N with 16%N.
      apply N.lt_succ_r. apply N.Div0.div_lt_upper_bound. lia.
    + etransitivity; [apply N.land_le_r|]. reflexivity.
Qed.

Lemma forall_flat_map {A B : Type} (P : B -> Prop) (f : A -> list B) (l : list A) :
  (forall x, List.In x l -> List.Forall P (f x)) -> List.Forall P (List.flat_map f l).
Proof.
  induction l as [|x l IH]; intros H; cbn; [constructor|].
  apply List.Forall_app. split; [apply H; left; reflexivity|].
  apply IH. intros y Hy. apply H. right. exact Hy.
Qed.

Lemma quote_ascii (s : string) :
  List.Forall (fun c => (c < 128)%N) (bytes_of_string (quote s)).
Proof.
  unfold quote.
  assert (H : List.Forall (fun c => (c < 128)%N)
                (List.flat_map quote_byte (bytes_of_string s))).
  { apply forall_flat_map. intros b Hb. apply quote_byte_ascii.
    pose proof (bytes_of_string_bounded s) as Hall.
    rewrite List.Forall_forall in Hall. apply Hall, Hb. }
  rewrite bytes_of_string_of_bytes; [exact H|].
  eapply List.Forall_impl; [|exact H]. cbn. intros; lia.
Qed.

Lemma chr_or_escape_ascii (c : N) :
  List.Forall (fun b => (b < 128)%N) (codes (chr_or_escape c)).
Proof.
  unfold chr_or_escape. destruct (0x7f <? c)%N eqn:Hc; cbn [codes].
  - apply quote_ascii.
  - apply N.ltb_ge in Hc. constructor; [lia|constructor].
Qed.

Lemma escaped_ascii (t : unicode) : List.Forall (fun b => (b < 128)%N) (escaped t).
Proof. apply forall_flat_map. intros c _. apply chr_or_escape_ascii. Qed.

Lemma escaped_fixes_ascii (t : unicode) :
  List.Forall (fun b => (b < 128)%N) t -> escaped t = t.
Proof.
  unfold escaped. induction 1 as [|c t Hc _ IH]; cbn [List.flat_map]; [reflexivity|].
  rewrite IH. unfold chr_or_escape.
  assert (H : (0x7f <? c)%N = false) by (apply N.ltb_ge; lia).
  rewrite H. reflexivity.
Qed.

Lemma forallb_ascii (l : list N) :
  List.Forall (fun b => (b < 128)%N) l -> List.forallb (fun c => (c <? 128)%N) l = true.
Proof.
  intros H. apply List.forallb_forall. rewrite List.Forall_forall in H.
  intros x Hx. apply N.ltb_lt, H, Hx.
Qed.

Lemma decode_all_escaped (t : unicode) :
  decode_all (List.map chr_or_escape t)
  = Some (List.map (fun c => codes (chr_or_escape c)) t).
Proof.
  induction t as [|c t IH]; cbn [List.map decode_all]; [reflexivity|].
  rewrite IH.
  assert (H : match chr_or_escape c with
              | Unicode t0 => Some t0
              | Str s => decode_ascii s
              end = Some (codes (chr_or_escape c))).
  { pose proof (chr_or_escape_ascii c) as Hascii.
    destruct (chr_or_escape c) as [s|t0]; [|reflexivity].
    cbn [codes] in *. unfold decode_ascii. rewrite forallb_ascii by exact Hascii.
    reflexivity. }
  rewrite H. reflexivity.
Qed.

Lemma intersperse_nil (parts : list (list N)) :
  intersperse [] parts = List.concat parts.
Proof.
  induction parts as [|x parts IH]; [reflexivity|].
  cbn [List.concat]. rewrite <- IH. destruct parts; cbn; [rewrite List.app_nil_r|];
    reflexivity.
Qed.

Lemma normalize_text (t : unicode) :
  exists r, normalize_iri (Unicode t) = Some r /\ codes r = escaped t.
Proof.
  unfold normalize_iri, py_join.
  destruct (List.existsb _ (List.map chr_or_escape t)).
  - cbn [decode_all]. change (decode_ascii "") with (Some (@nil N)).
    rewrite decode_all_escaped. eexists. split; [reflexivity|].
    cbn [codes]. rewrite intersperse_nil. unfold escaped.
    rewrite List.flat_map_concat_map. reflexivity.
  - eexists. split; [reflexivity|]. cbn [codes].
    change (bytes_of_string "") with (@nil N). rewrite intersperse_nil.
    rewrite List.map_map, <- List.flat_map_concat_map. fold (escaped t).
    apply bytes_of_string_of_bytes.
    eapply List.Forall_impl; [|apply escaped_ascii]. cbn. intros; lia.
Qed.

Lemma normalize_ascii_value (r : pystr) :
  List.Forall (fun b => (b < 128)%N) (codes r) ->
  normalize_iri r = normalize_iri (Unicode (codes r)).
Proof.
  intros H. destruct r as [s|t]; [|reflexivity].
  cbn [codes] in *. unfold normalize_iri, decode_ascii.
  rewrite forallb_ascii by exact H. reflexivity.
Qed.

(** X13. [normalize_iri] of a unicode string succeeds and gives ASCII text
    only; it returns ASCII input as it is, and normalizing its result again
    changes nothing. *)
Theorem normalize_iri_gives_ascii (t : unicode) :
  exists r,
    normalize_iri (Unicode t) = Some r
    /\ List.Forall (fun b => (b < 128)%N) (codes r)
    /\ (List.Forall (fun c => (c < 128)%N) t -> codes r = t)
    /\ exists r', normalize_iri r = Some r' /\ codes r' = codes r.
Proof.
  destruct (normalize_text t) as (r & Hr & Hcodes).
  exists r. split; [exact Hr|].
  assert (Hascii : List.Forall (fun b => (b < 128)%N) (codes r))
    by (rewrite Hcodes; apply escaped_ascii).
  split; [exact Hascii|]. split.
  - intros Ht. rewrite Hcodes. apply escaped_fixes_ascii, Ht.
  - destruct (normalize_text (codes r)) as (r' & Hr' & Hcodes').
    exists r'. split.
    + rewrite normalize_ascii_value by exact Hascii. exact Hr'.
    + rewrite Hcodes'. apply escaped_fixes_ascii, Hascii.
Qed.

(** A character above U+007F is replaced by the percent-escapes of its UTF-8
    bytes. *)
Lemma normalize_iri_escapes_utf8 (before after : unicode) (c : N) :
  (0x7f < c)%N ->
  exists r,
    normalize_iri (Unicode (before ++ c :: after)) = Some r
    /\ codes r = escaped before ++ bytes_of_string (quote (utf8_encode [c])) ++ escaped after.
Proof.
  intros Hc. destruct (normalize_text (before ++ c :: after)) as (r & Hr & Hcodes).
  exists r. split; [exact Hr|]. rewrite Hcodes. unfold escaped.
  rewrite List.flat_map_app. cbn [List.flat_map]. unfold chr_or_escape at 2.
  apply N.ltb_lt in Hc. rewrite Hc. reflexivity.
Qed.

Example normalize_iri_e_acute :
  normalize_iri (Unicode (u "http://x.test/caf" ++ [0xE9%N]))
  = Some (Unicode (u "http://x.test/caf%C3%A9")).
Proof. vm_compute. reflexivity. Qed.

(** ** Hooks *)

Section HookProperties.

Context {A R : Type}.

Local Abbreviation Hook := (@HookManager.Hook A R).






End HookProperties.



(** ** Subscription requests *)

Lemma has_subscribers_iff (topic : unicode) (db : Subscription.store) :
  Subscription.has_subscribers topic db = true
  <-> exists k sub, Subscription.rows db !! k = Some sub /\ selected topic [] sub = true.
Proof.
  rewrite has_subscribers_true. split.
  - intros (sub & Hin). apply query_elem in Hin as [[k Hk] Hsel]. eauto.
  - intros (k & sub & Hk & Hsel). exists sub. apply query_elem. eauto.
Qed.

Lemma selected_reset (topic start : unicode) (sub : Subscription.t) :
  selected topic start (Subscription.reset_failures sub) = selected topic start sub.
Proof. reflexivity. Qed.

Lemma bool_eq_iff (a b : bool) : (a = true <-> b = true) -> a = b.
Proof.
  destruct a, b; intros [H1 H2]; try reflexivity.
  - symmetry. apply H1. reflexivity.
  - apply H2. reflexivity.
Qed.


(** X17. [Subscription.request_remove] returns [True] exactly when the
    pair has a row; it changes no row's state, so every topic keeps its
    verified subscribers until the unsubscription is confirmed; when the
    row is missing the Datastore is left as it was, otherwise one task with
    [next_state = to_delete] is enqueued on the subscription queue. *)
Theorem request_remove_keeps_states
    (callback topic verify_token : unicode) (db : Subscription.store) :
  subscriptions_keyed db ->
  let key := Subscription.create_key_name callback topic in
  let r := Subscription.request_remove callback topic verify_token db in
  (fst r = true <-> exists old, Subscription.rows db !! key = Some old)
  /\ (fst r = false -> snd r = db)
  /\ (forall k,
        Subscription.subscription_state <$> (Subscription.rows (snd r) !! k)
        = Subscription.subscription_state <$> (Subscription.rows db !! k))
  /\ (forall any_topic,
        Subscription.has_subscribers any_topic (snd r)
        = Subscription.has_subscribers any_topic db)
  /\ (fst r = true ->
      exists k,
        Subscription.tasks (snd r) = Subscription.tasks db ++ [k]
        /\ task_queue k = SUBSCRIPTION_QUEUE
        /\ List.In ("next_state", Str "to_delete") (task_params k)).
Proof.
  intros Hkeyed key r.
  unfold Subscription.request_remove, Subscription.get_by_key_name in r. fold key in r.
  destruct (Subscription.rows db !! key) as [old|] eqn:Hold; subst r; cbn [fst snd].
  - assert (Hname : Subscription.key_name old = key) by (apply (Hkeyed _ _ Hold)).
    split; [split; eauto|]. split; [discriminate|]. split; [|split].
    + intros k. cbn. rewrite Hname. destruct (decide (k = key)) as [->|Hne].
      * rewrite lookup_insert_eq, Hold. reflexivity.
      * rewrite lookup_insert_ne by congruence. reflexivity.
    + intros any_topic. apply bool_eq_iff. rewrite !has_subscribers_iff. cbn.
      rewrite Hname. split.
      * intros (k & sub & Hk & Hsel). destruct (decide (k = key)) as [->|Hne].
        -- rewrite lookup_insert_eq in Hk. injection Hk as <-.
           exists key, old. split; [exact Hold|exact Hsel].
        -- rewrite lookup_insert_ne in Hk by congruence. eauto.
      * intros (k & sub & Hk & Hsel). destruct (decide (k = key)) as [->|Hne].
        -- rewrite Hold in Hk. injection Hk as <-.
           exists key, (Subscription.reset_failures old).
           split; [apply lookup_insert_eq|exact Hsel].
        -- exists k, sub. rewrite lookup_insert_ne by congruence. eauto.
    + intros _. eexists. split; [reflexivity|]. cbn. split; [reflexivity|]. tauto.
  - split; [split; [discriminate|intros [old H]; discriminate]|].
    split; [reflexivity|]. split; [reflexivity|]. split; [reflexivity|discriminate].
Qed.

(** ** SubscriptionConfirmHandler *)

Lemma confirm_false_unchanged (mode : string) (topic callback verify_token : unicode)
    (secret : option unicode) (lease : Z) (record_topic : bool) (challenge : string)
    (response : fetch_result) (now : Z) (db : Subscription.store) :
  fst (confirm_subscription mode topic callback verify_token secret lease record_topic
                            challenge response now db) = false ->
  snd (confirm_subscription mode topic callback verify_token secret lease record_topic
                            challenge response now db) = db.
Proof.
  unfold confirm_subscription. destruct response as [|status content]; [reflexivity|].
  destruct (_ && _ && _).
  - destruct (String.eqb mode "subscribe").
    + destruct (Subscription.insert _ _ _ _ _ _ _). discriminate.
    + destruct (Subscription.remove _ _ _). discriminate.
  - destruct (_ && _); [discriminate|reflexivity].
Qed.

(** X18. When the confirmation fails for a request that is not an
    automatic renewal, or is an unsubscription,
    [SubscriptionConfirmHandler.post] changes no row's state; once the
    confirmation failures have reached 4 it leaves the Datastore as it
    was. *)
Theorem failed_user_request_is_never_archived
    (name : string) (next_state : Subscription.state) (verify_token secret : unicode)
    (auto_reconfirm : string) (challenge : string) (response : fetch_result) (now : Z)
    (db : Subscription.store) (sub : Subscription.t) :
  subscriptions_keyed db ->
  Subscription.rows db !! name = Some sub ->
  String.eqb auto_reconfirm "True" = false
  \/ next_state = Subscription.STATE_TO_DELETE ->
  fst (confirm_subscription (mode_of next_state) (Subscription.topic sub)
         (Subscription.callback sub) verify_token (secret_of secret)
         (Subscription.lease_seconds sub) false challenge response now db) = false ->
  let db' := SubscriptionConfirmHandler.post name next_state verify_token secret
               auto_reconfirm challenge response now db in
  (forall k,
     Subscription.subscription_state <$> (Subscription.rows db' !! k)
     = Subscription.subscription_state <$> (Subscription.rows db !! k))
  /\ ((4 <= Subscription.confirm_failures sub)%nat -> db' = db).
Proof.
  intros Hkeyed Hsub Huser Hfail. cbv zeta.
  unfold SubscriptionConfirmHandler.post, Subscription.get_by_key_name.
  rewrite Hsub. fold (mode_of next_state) (secret_of secret).
  pose proof (confirm_false_unchanged _ _ _ _ _ _ _ _ _ _ _ Hfail) as Hdb.
  destruct (confirm_subscription _ _ _ _ _ _ _ _ _ _ _) as [confirmed db1].
  cbn [fst snd] in Hfail, Hdb. subst confirmed db1.
  assert (Hname : Subscription.key_name sub = name) by (apply (Hkeyed _ _ Hsub)).
  unfold Subscription.confirm_failed.
  destruct (Z.of_nat (Subscription.confirm_failures sub)
            >=? MAX_SUBSCRIPTION_CONFIRM_FAILURES)%Z eqn:Hmax.
  - cbn [negb andb].
    assert (Hno : String.eqb auto_reconfirm "True"
                  && String.eqb (mode_of next_state) "subscribe" = false).
    { destruct Huser as [->| ->]; [reflexivity|]. apply andb_false_r. }
    rewrite Hno. split; [reflexivity|reflexivity].
  - cbn [negb andb]. split.
    + intros k. cbn. rewrite Hname. destruct (decide (k = name)) as [->|Hne].
      * rewrite lookup_insert_eq, Hsub. reflexivity.
      * rewrite lookup_insert_ne by congruence. reflexivity.
    + intros Hmany. exfalso. rewrite Z.geb_leb in Hmax. apply Z.leb_gt in Hmax.
      unfold MAX_SUBSCRIPTION_CONFIRM_FAILURES in Hmax. lia.
Qed.

(** X19. When the automatic renewal of a subscription fails and its
    confirmation failures have reached 4, [SubscriptionConfirmHandler.post]
    archives it: the row is left in state [to_delete] with its failures
    reset, no other row changes and no task is enqueued. *)
Theorem failed_auto_renewal_is_archived
    (name : string) (verify_token secret : unicode)
    (challenge : string) (response : fetch_result) (now : Z)
    (db : Subscription.store) (sub : Subscription.t) :
  subscriptions_keyed db ->
  Subscription.rows db !! name = Some sub ->
  name = Subscription.create_key_name (Subscription.callback sub) (Subscription.topic sub) ->
  (4 <= Subscription.confirm_failures sub)%nat ->
  fst (confirm_subscription "subscribe" (Subscription.topic sub)
         (Subscription.callback sub) verify_token (secret_of secret)
         (Subscription.lease_seconds sub) false challenge response now db) = false ->
  let db' := SubscriptionConfirmHandler.post name Subscription.STATE_VERIFIED verify_token
               secret "True" challenge response now db in
  (exists archived,
      Subscription.rows db' !! name = Some archived
      /\ Subscription.subscription_state archived = Subscription.STATE_TO_DELETE
      /\ Subscription.confirm_failures archived = 0%nat)
  /\ (forall k, k <> name -> Subscription.rows db' !! k = Subscription.rows db !! k)
  /\ Subscription.tasks db' = Subscription.tasks db.
Proof.
  intros Hkeyed Hsub Hname Hmany Hfail. cbv zeta.
  unfold SubscriptionConfirmHandler.post, Subscription.get_by_key_name.
  rewrite Hsub. fold (secret_of secret).
  pose proof (confirm_false_unchanged _ _ _ _ _ _ _ _ _ _ _ Hfail) as Hdb.
  destruct (confirm_subscription _ _ _ _ _ _ _ _ _ _ _) as [confirmed db1].
  cbn [fst snd] in Hfail, Hdb. subst confirmed db1.
  unfold Subscription.confirm_failed.
  assert (Hmax : (Z.of_nat (Subscription.confirm_failures sub)
                  >=? MAX_SUBSCRIPTION_CONFIRM_FAILURES)%Z = true).
  { apply Z.geb_le. unfold MAX_SUBSCRIPTION_CONFIRM_FAILURES. lia. }
  rewrite Hmax. cbn [negb andb]. change ("True" =? "True")%string with true.
  change ("subscribe" =? "subscribe")%string with true. cbn [andb].
  assert (Hkn : Subscription.key_name sub = name) by (apply (Hkeyed _ _ Hsub)).
  unfold Subscription.archive, Subscription.get_by_key_name.
  rewrite <- Hname, Hsub. cbn. rewrite Hkn. split; [|split].
  - eexists. split; [apply lookup_insert_eq|]. split; reflexivity.
  - intros k Hk. apply lookup_insert_ne. congruence.
  - reflexivity.
Qed.

(** ** Conditional requests *)

Ltac by_cases :=
  repeat match goal with
         | |- context [match ?x with _ => _ end] => destruct x
         end;
  simplify_map_eq; reflexivity.

(** X20. The validators of a response are sent with the next request:
    after [FeedRecord.update(headers)], [get_request_headers] carries
    [If-Modified-Since] with the [Last-Modified] value and [If-None-Match]
    with the [ETag] value when the response had them, and neither when it
    had not; [Cache-Control] and [Accept] are always set, and [User-Agent]
    is absent exactly when the subscriber count is unknown or zero. *)
Theorem validators_come_back_in_the_next_request
    (self : FeedRecord.t) (headers : gmap string string)
    (header_footer : option pystr) (format : option feed_format)
    (subscriber_count : option Z) :
  let updated := FeedRecord.update self headers header_footer format in
  let request := FeedRecord.get_request_headers updated subscriber_count in
  (forall value c t,
     headers !! "Last-Modified" = Some value -> decode_ascii value = Some (c :: t) ->
     request !! "If-Modified-Since" = Some (Unicode (c :: t)))
  /\ (headers !! "Last-Modified" = None -> request !! "If-Modified-Since" = None)
  /\ (forall value c t,
        headers !! "ETag" = Some value -> decode_ascii value = Some (c :: t) ->
        request !! "If-None-Match" = Some (Unicode (c :: t)))
  /\ (headers !! "ETag" = None -> request !! "If-None-Match" = None)
  /\ request !! "Cache-Control" = Some (Str "no-cache no-store max-age=1")
  /\ request !! "Accept" = Some (Str "*/*")
  /\ (request !! "User-Agent" = None
      <-> subscriber_count = None \/ subscriber_count = Some 0).
Proof.
  cbv zeta. unfold FeedRecord.get_request_headers, FeedRecord.update.
  cbn [FeedRecord.last_modified FeedRecord.etag].
  unfold FeedRecord.store_header.
  split; [|split; [|split; [|split; [|split; [|split]]]]].
  - intros value c t -> ->. by_cases.
  - intros ->. by_cases.
  - intros value c t -> ->. by_cases.
  - intros ->. by_cases.
  - by_cases.
  - by_cases.
  - destruct subscriber_count as [cnt|]; [destruct (cnt =? 0)%Z eqn:Hn|].
    + apply Z.eqb_eq in Hn. subst cnt.
      split; [intros _; right; reflexivity|intros _]. by_cases.
    + apply Z.eqb_neq in Hn. split.
      * intros H. rewrite lookup_insert_eq in H. discriminate.
      * intros [H|H]; [discriminate|]. injection H as ->. contradiction.
    + split; [intros _; left; reflexivity|intros _]. by_cases.
Qed.

(** ** Polling and FeedToFetch.insert *)

Lemma sha1_hash_length (value : pystr) : String.length (sha1_hash value) = 40%nat.
Proof.
  destruct (digest_bytes (bytes_of_string (utf8 value))) as [Hlen Hbytes].
  destruct (hex_shape _ Hbytes) as [Hhex _]. rewrite Hlen in Hhex. exact Hhex.
Qed.

(** The key of a [KnownFeedStats] has the bare SHA-1 of the topic as the
    name of its parent, which is not the key name of the topic's
    [KnownFeed]; a topic hash that already starts with ['h'] is refused. *)
Lemma stats_are_not_under_their_known_feed (c : N) (t : unicode) :
  let topic := c :: t in
  KnownFeedStats.create_key (Some topic) None = Some (sha1_hash (Unicode topic), "overall")
  /\ KnownFeed.create_key topic = String.append "hash_" (sha1_hash (Unicode topic))
  /\ String.eqb (sha1_hash (Unicode topic)) (KnownFeed.create_key topic) = false
  /\ (forall h, KnownFeedStats.create_key (Some topic) (Some (String "h" h)) = None).
Proof.
  cbv zeta. pose proof (sha1_hash_length (Unicode (c :: t))) as Hlen.
  split; [|split; [reflexivity|split; [|reflexivity]]].
  - unfold KnownFeedStats.create_key. cbn [andb].
    destruct (sha1_hash (Unicode (c :: t))); [discriminate|reflexivity].
  - apply String.eqb_neq. intros Heq. apply (f_equal String.length) in Heq.
    unfold KnownFeed.create_key, get_hash_key_name in Heq.
    rewrite length_string_append, Hlen in Heq. discriminate.
Qed.

(** X21. A [PollingMarker] that [get] had to create progresses at once.
    When [should_progress] says yes, [last_start] takes the old
    [next_start], [next_start] becomes [now + period], and no call at or
    before that time progresses again; when it says no the marker is
    unchanged. *)
Theorem polling_starts_once_per_period (stored : option PollingMarker.t)
    (period now later : Z) :
  let the_mark := PollingMarker.get now stored in
  let r := PollingMarker.should_progress the_mark period now in
  (stored = None -> fst r = true)
  /\ (fst r = true ->
      PollingMarker.last_start (snd r) = Some (PollingMarker.next_start the_mark)
      /\ PollingMarker.next_start (snd r) = now + period
      /\ (later <= now + period ->
          PollingMarker.should_progress (snd r) period later = (false, snd r)))
  /\ (fst r = false -> snd r = the_mark).
Proof.
  cbv zeta. unfold PollingMarker.should_progress. split; [|split].
  - intros ->. cbn. replace (now - 60 <? now)%Z with true; [reflexivity|].
    symmetry. apply Z.ltb_lt. lia.
  - destruct (_ <? now)%Z; [|discriminate]. intros _. cbn.
    split; [reflexivity|]. split; [reflexivity|]. intros Hlater.
    replace (now + period <? later)%Z with false; [reflexivity|].
    symmetry. apply Z.ltb_ge. lia.
  - destruct (_ <? now)%Z; [discriminate|reflexivity].
Qed.

Lemma put_all_fresh (now : Z) (sk sv : list string) (wi : option Z)
    (l : list unicode) (db : FeedToFetch.store) :
  let mk := fun topic =>
    FeedToFetch.mk (get_hash_key_name (Unicode topic)) topic now 0 false sk sv wi in
  let db' := List.fold_left (fun db self => FeedToFetch.put self db) (List.map mk l) db in
  FeedToFetch.tasks db' = FeedToFetch.tasks db
  /\ (forall k f, FeedToFetch.rows db !! k = Some f -> fresh_fetch now wi k f ->
        exists f', FeedToFetch.rows db' !! k = Some f' /\ fresh_fetch now wi k f')
  /\ (forall topic, List.In topic l ->
        exists f, FeedToFetch.rows db' !! get_hash_key_name (Unicode topic) = Some f
                  /\ fresh_fetch now wi (get_hash_key_name (Unicode topic)) f)
  /\ (forall k, (forall topic, List.In topic l -> get_hash_key_name (Unicode topic) <> k) ->
        FeedToFetch.rows db' !! k = FeedToFetch.rows db !! k).
Proof.
  cbv zeta. revert db. induction l as [|t l IH]; intros db; cbn [List.map List.fold_left].
  - split; [reflexivity|]. split; [eauto|]. split; [intros ? []|reflexivity].
  - set (ft := FeedToFetch.mk _ t now 0 false sk sv wi).
    destruct (IH (FeedToFetch.put ft db)) as (Htasks & Hkeep & Hin & Hout).
    assert (Hft : fresh_fetch now wi (get_hash_key_name (Unicode t)) ft)
      by (repeat split).
    split; [exact Htasks|]. split; [|split].
    + intros k f Hk Hfresh. destruct (decide (k = get_hash_key_name (Unicode t))) as [->|Hne].
      * apply (Hkeep _ ft); [apply lookup_insert_eq|exact Hft].
      * apply (Hkeep _ f); [|exact Hfresh].
        cbn. rewrite lookup_insert_ne by congruence. exact Hk.
    + intros topic [<-|Hl]; [|apply Hin, Hl].
      apply (Hkeep _ ft); [apply lookup_insert_eq|exact Hft].
    + intros k Hk. rewrite Hout.
      * cbn. apply lookup_insert_ne. apply Hk. left. reflexivity.
      * intros topic Hl. apply Hk. right. exact Hl.
Qed.

(** X22. [FeedToFetch.insert] of an empty list does nothing. With
    [memory_only] it leaves the Datastore as it was and puts one
    [FeedToFetch] for each distinct topic, with no failures, [eta = now] and
    the work index, on the fork-join queue under one index. Without
    [memory_only] it writes a fresh row for every topic of the list,
    changes no row of another key, enqueues no task and adds no work to
    the fork-join queue. *)
Theorem insert_starts_feeds_afresh
    (topic_list : list unicode) (source_dict : list (string * string))
    (env : environ) (next_index now : Z) (db : FeedToFetch.store) :
  FeedToFetch.insert [] source_dict true env next_index now db = (None, db, [])
  /\ FeedToFetch.insert [] source_dict false env next_index now db = (None, db, [])
  /\ (let r := FeedToFetch.insert topic_list source_dict true env next_index now db in
      snd (fst r) = db
      /\ (topic_list <> [] ->
          exists feed_list queue_name,
            fst (fst r) = Some feed_list
            /\ List.map FeedToFetch.topic feed_list = remove_dups topic_list
            /\ List.Forall (fun f => fresh_fetch now (Some next_index)
                                       (get_hash_key_name (Unicode (FeedToFetch.topic f))) f)
                           feed_list
            /\ snd r = [FeedToFetch.SetQueueName queue_name; FeedToFetch.NextIndex;
                        FeedToFetch.PutWork next_index feed_list;
                        FeedToFetch.AddWork next_index]))
  /\ (let r := FeedToFetch.insert topic_list source_dict false env next_index now db in
      FeedToFetch.tasks (snd (fst r)) = FeedToFetch.tasks db
      /\ (forall topic, List.In topic topic_list ->
            exists f,
              FeedToFetch.get_by_topic topic (snd (fst r)) = Some f
              /\ fresh_fetch now None (get_hash_key_name (Unicode topic)) f)
      /\ (forall k,
            (forall topic, List.In topic topic_list ->
                           get_hash_key_name (Unicode topic) <> k) ->
            FeedToFetch.rows (snd (fst r)) !! k = FeedToFetch.rows db !! k)
      /\ List.Forall (fun call => exists q, call = FeedToFetch.SetQueueName q) (snd r)).
Proof.
  split; [reflexivity|]. split; [reflexivity|]. split.
  - cbv zeta. destruct topic_list as [|t l]; [split; [reflexivity|congruence]|].
    unfold FeedToFetch.insert. cbn [fst snd]. split; [reflexivity|]. intros _.
    eexists _, _. split; [reflexivity|]. split; [|split; [|reflexivity]].
    + rewrite List.map_map. cbn [FeedToFetch.topic]. apply List.map_id.
    + apply List.Forall_forall. intros f Hf.
      apply List.in_map_iff in Hf as (topic & <- & _). repeat split.
  - cbv zeta. destruct topic_list as [|t l].
    { cbn. split; [reflexivity|]. split; [intros ? []|]. split; [reflexivity|constructor]. }
    unfold FeedToFetch.insert. cbn [fst snd].
    destruct (put_all_fresh now (List.map fst source_dict) (List.map snd source_dict)
                None (remove_dups (t :: l)) db) as (Htasks & _ & Hin & Hout).
    split; [exact Htasks|]. split; [|split].
    + intros topic Htopic. apply Hin.
      apply list_elem_of_In, elem_of_remove_dups, list_elem_of_In. exact Htopic.
    + intros k Hk. apply Hout. intros topic Htopic. apply Hk.
      apply list_elem_of_In, elem_of_remove_dups, list_elem_of_In. exact Htopic.
    + constructor; [eexists; reflexivity|constructor].
Qed.

(** X23. [take_polling_action] for the poll type ['record'] enqueues one
    [KnownFeed.record] task for each topic and touches no [FeedToFetch];
    for any other poll type it writes a fresh [FeedToFetch] row for every
    topic but enqueues no task and adds no work to the fork-join queue. *)
Theorem polling_enqueues_no_fetch
    (topic_list : list unicode) (poll_type : unicode)
    (env : environ) (next_index now : Z) (db : FeedToFetch.store) :
  let r := take_polling_action topic_list poll_type env next_index now db in
  (poll_type = u "record" ->
   FeedToFetch.rows (fst r) = FeedToFetch.rows db
   /\ FeedToFetch.tasks (fst r)
      = FeedToFetch.tasks db ++ List.map KnownFeed.record topic_list
   /\ snd r = [])
  /\ (poll_type <> u "record" ->
      FeedToFetch.tasks (fst r) = FeedToFetch.tasks db
      /\ List.Forall (fun call => exists q, call = FeedToFetch.SetQueueName q) (snd r)
      /\ (forall topic, List.In topic topic_list ->
            exists f,
              FeedToFetch.get_by_topic topic (fst r) = Some f
              /\ fresh_fetch now None (get_hash_key_name (Unicode topic)) f)).
Proof.
  cbv zeta. unfold take_polling_action. split.
  - intros ->. rewrite bool_decide_eq_true_2 by reflexivity. cbn. auto.
  - intros Hne. rewrite bool_decide_eq_false_2 by exact Hne.
    destruct topic_list as [|t l].
    { cbn. split; [reflexivity|]. split; [constructor|intros ? []]. }
    unfold FeedToFetch.insert. cbn [fst snd].
    destruct (put_all_fresh now [] [] None (remove_dups (t :: l)) db)
      as (Htasks & _ & Hin & _).
    split; [exact Htasks|]. split; [constructor; [eexists; reflexivity|constructor]|].
    intros topic Htopic. apply Hin.
    apply list_elem_of_In, elem_of_remove_dups, list_elem_of_In. exact Htopic.
Qed.

(** ** PullFeedHandler *)

Lemma pull_bounded (fuel : nat)
    (web : pystr -> gmap string pystr -> PullFeedHandler.pull_response)
    (filter_feed : string -> feed_format -> filtered)
    (put_refused : list entity -> bool) (now : Z) (env : environ)
    (feed_record : FeedRecord.t) (subscriber_count : option Z)
    (work : FeedToFetch.t) (fetch_url : pystr) (attempts : nat)
    (st : PullFeedHandler.state) :
  (attempts <= MAX_REDIRECTS)%nat -> (MAX_REDIRECTS <= fuel + attempts)%nat ->
  let r := PullFeedHandler.pull fuel web filter_feed put_refused now env feed_record
             subscriber_count work fetch_url attempts st in
  (1 <= List.length (PullFeedHandler.requests r))%nat
  /\ (List.length (PullFeedHandler.requests r) + attempts <= MAX_REDIRECTS + 1)%nat
  /\ ((exists fetch_success,
         PullFeedHandler.ended r = PullFeedHandler.Fetched fetch_success)
      \/ PullFeedHandler.ended r = PullFeedHandler.ParseRaised).
Proof.
  cbv zeta. unfold MAX_REDIRECTS. revert fetch_url attempts st.
  induction fuel as [|fuel IH]; intros fetch_url attempts st Hle Hfuel;
    cbn [PullFeedHandler.pull]; cbv zeta; unfold MAX_REDIRECTS;
    (destruct (web fetch_url _) as [[| |]|status headers content];
     [cbn; split; [lia|split; [lia|left; eexists; reflexivity]]..|]);
    (destruct (status =? 200)%Z;
     [destruct (parse_feed _ _ _ _ _ _ _ _ _) as [[[|]|] records'];
      cbn; (split; [lia|split; [lia|]]);
      [left; eexists; reflexivity|left; eexists; reflexivity|right; reflexivity]|]);
    (destruct (if bool_decide _ then headers !! "Location" else None) as [location|];
     [destruct (7 <=? attempts)%nat eqn:Hmax|
      destruct (status =? 304)%Z; cbn;
      (split; [lia|split; [lia|left; eexists; reflexivity]])]);
    try (cbn; split; [lia|split; [lia|left; eexists; reflexivity]]).
  - apply Nat.leb_gt in Hmax. lia.
  - apply Nat.leb_gt in Hmax.
    destruct (IH (Str location) (attempts + 1)%nat st) as (H1 & H2 & H3); [lia|lia|].
    cbn [PullFeedHandler.requests PullFeedHandler.ended List.length].
    split; [lia|]. split; [lia|exact H3].
Qed.

(** X24. The fetch of one feed by [PullFeedHandler] makes at least one and
    at most [MAX_REDIRECTS] requests and always ends, with the fetch marked
    done or failed or with the error of [parse_feed] raised. On a web where
    every URL redirects it makes exactly [MAX_REDIRECTS] requests and
    records one fetch failure. *)
Theorem a_fetch_makes_at_most_seven_requests
    (web : pystr -> gmap string pystr -> PullFeedHandler.pull_response)
    (filter_feed : string -> feed_format -> filtered)
    (put_refused : list entity -> bool) (now : Z) (env : environ)
    (feed_record : FeedRecord.t) (subscriber_count : option Z)
    (work : FeedToFetch.t) (st : PullFeedHandler.state) :
  let r := PullFeedHandler.pull MAX_REDIRECTS web filter_feed put_refused now env
             feed_record subscriber_count work (Unicode (FeedToFetch.topic work)) 1 st in
  (1 <= List.length (PullFeedHandler.requests r) <= MAX_REDIRECTS)%nat
  /\ ((exists fetch_success,
         PullFeedHandler.ended r = PullFeedHandler.Fetched fetch_success)
      \/ PullFeedHandler.ended r = PullFeedHandler.ParseRaised)
  /\ (redirects_for_ever web ->
      List.length (PullFeedHandler.requests r) = MAX_REDIRECTS
      /\ PullFeedHandler.ended r = PullFeedHandler.Fetched false
      /\ PullFeedHandler.after r
         = PullFeedHandler.mk_state
             (snd (FeedToFetch.fetch_failed work MAX_FEED_PULL_FAILURES
                     FEED_PULL_RETRY_PERIOD now env (PullFeedHandler.fetches st)))
             (PullFeedHandler.records st)).
Proof.
  cbv zeta.
  destruct (pull_bounded MAX_REDIRECTS web filter_feed put_refused now env feed_record
              subscriber_count work (Unicode (FeedToFetch.topic work)) 1 st)
    as (H1 & H2 & H3); [unfold MAX_REDIRECTS; lia..|].
  split; [lia|]. split; [exact H3|].
  intros Hloop.
  assert (Hgen : forall fuel url attempts,
            (attempts <= MAX_REDIRECTS)%nat -> (MAX_REDIRECTS <= fuel + attempts)%nat ->
            let r := PullFeedHandler.pull fuel web filter_feed put_refused now env
                       feed_record subscriber_count work url attempts st in
            (List.length (PullFeedHandler.requests r) + attempts = MAX_REDIRECTS + 1)%nat
            /\ PullFeedHandler.ended r = PullFeedHandler.Fetched false
            /\ PullFeedHandler.after r
               = PullFeedHandler.mk_state
                   (snd (FeedToFetch.fetch_failed work MAX_FEED_PULL_FAILURES
                           FEED_PULL_RETRY_PERIOD now env (PullFeedHandler.fetches st)))
                   (PullFeedHandler.records st)).
  { cbv zeta. unfold MAX_REDIRECTS.
    induction fuel as [|fuel IH]; intros url attempts Hle Hsum;
      cbn [PullFeedHandler.pull]; cbv zeta; unfold MAX_REDIRECTS;
      destruct (Hloop url (FeedRecord.get_request_headers feed_record subscriber_count))
        as (headers & content & location & -> & Hloc);
      change (302 =? 200)%Z with false; cbv beta iota;
      rewrite bool_decide_eq_true_2 by (repeat constructor); rewrite Hloc.
    - replace (7 <=? attempts)%nat with true
        by (symmetry; apply Nat.leb_le; lia).
      cbn. split; [lia|]. split; reflexivity.
    - destruct (7 <=? attempts)%nat eqn:Hmax.
      + apply Nat.leb_le in Hmax. cbn. split; [lia|]. split; reflexivity.
      + apply Nat.leb_gt in Hmax.
        destruct (IH (Str location) (attempts + 1)%nat) as (Hlen & Hend & Hafter);
          [lia|lia|].
        cbn [PullFeedHandler.requests PullFeedHandler.ended PullFeedHandler.after
             List.length].
        split; [lia|]. split; [exact Hend|exact Hafter]. }
  destruct (Hgen MAX_REDIRECTS (Unicode (FeedToFetch.topic work)) 1%nat)
    as (Hlen & Hend & Hafter); [unfold MAX_REDIRECTS; lia..|].
  split; [unfold MAX_REDIRECTS in *; lia|]. split; [exact Hend|exact Hafter].
Qed.

Lemma a_fetch_makes_at_most_seven_requests_witness :
  List.length
    (PullFeedHandler.requests
       (PullFeedHandler.pull MAX_REDIRECTS looping_web (atom_feed 1) (fun _ => false)
          5000 None fresh_record None (sample_fetch 10)
          (Unicode (FeedToFetch.topic (sample_fetch 10))) 1
          (PullFeedHandler.mk_state (sample_fetches 10) fresh_feed_store)))
  = MAX_REDIRECTS.
Proof.
  refine (proj1 (proj2 (proj2 (a_fetch_makes_at_most_seven_requests looping_web
                                 (atom_feed 1) (fun _ => false) 5000 None fresh_record
                                 None (sample_fetch 10)
                                 (PullFeedHandler.mk_state (sample_fetches 10)
                                                           fresh_feed_store))) _)).
  intros url request_headers. eexists _, _, _. split; [reflexivity|reflexivity].
Defined.

Lemma ready_none (feed_list : list FeedToFetch.t) (allow : unicode -> bool)
    (subs : Subscription.store) (kept : list FeedToFetch.t) (db : FeedToFetch.store) :
  (forall f, List.In f feed_list ->
     allow (FeedToFetch.topic f) = false
     \/ Subscription.has_subscribers (FeedToFetch.topic f) subs = false) ->
  List.fold_left
    (fun (acc : list FeedToFetch.t * FeedToFetch.store) to_fetch =>
       let '(ready_feed_list, db) := acc in
       if negb (allow (FeedToFetch.topic to_fetch)) then
         (ready_feed_list, snd (FeedToFetch.done to_fetch db))
       else if negb (Subscription.has_subscribers (FeedToFetch.topic to_fetch) subs) then
         (ready_feed_list, snd (FeedToFetch.done to_fetch db))
       else (ready_feed_list ++ [to_fetch], db))
    feed_list (kept, db)
  = (kept, List.fold_left (fun db f => snd (FeedToFetch.done f db)) feed_list db).
Proof.
  revert db. induction feed_list as [|f l IH]; intros db Hnone; [reflexivity|].
  cbn [List.fold_left].
  assert (Hstep : (if negb (allow (FeedToFetch.topic f))
                   then (kept, snd (FeedToFetch.done f db))
                   else if negb (Subscription.has_subscribers (FeedToFetch.topic f) subs)
                        then (kept, snd (FeedToFetch.done f db))
                        else (kept ++ [f], db))
                  = (kept, snd (FeedToFetch.done f db))).
  { destruct (Hnone f (or_introl eq_refl)) as [-> | ->]; [reflexivity|].
    destruct (allow _); reflexivity. }
  rewrite Hstep. apply IH. intros g Hg. apply Hnone. right. exact Hg.
Qed.

(** X25. When every feed of the list is held back by the fetch scorer or
    has no verified subscriber, [_handle_fetches] makes no request: it only
    marks each [FeedToFetch] as done and touches no [FeedRecord]. *)
Theorem feeds_without_subscribers_are_not_fetched
    (feed_list : list FeedToFetch.t) (allow : unicode -> bool)
    (web : pystr -> gmap string pystr -> PullFeedHandler.pull_response)
    (filter_feed : string -> feed_format -> filtered)
    (put_refused : list entity -> bool) (now : Z) (env : environ)
    (subs : Subscription.store) (stats : gmap string KnownFeedStats.t)
    (st : PullFeedHandler.state) :
  (forall f, List.In f feed_list ->
     allow (FeedToFetch.topic f) = false
     \/ Subscription.has_subscribers (FeedToFetch.topic f) subs = false) ->
  PullFeedHandler._handle_fetches feed_list allow web filter_feed put_refused now env
                                  subs stats st
  = Some ([],
          PullFeedHandler.mk_state
            (List.fold_left (fun db f => snd (FeedToFetch.done f db)) feed_list
                            (PullFeedHandler.fetches st))
            (PullFeedHandler.records st)).
Proof.
  intros Hnone. unfold PullFeedHandler._handle_fetches, PullFeedHandler.ready.
  rewrite (ready_none _ _ _ _ _ Hnone). reflexivity.
Qed.

Lemma feeds_without_subscribers_are_not_fetched_witness :
  PullFeedHandler._handle_fetches [sample_fetch 10] (fun _ => true) looping_web
    (atom_feed 1) (fun _ => false) 5000 None no_subscriptions ∅
    (PullFeedHandler.mk_state (sample_fetches 10) fresh_feed_store)
  = Some ([],
          PullFeedHandler.mk_state
            (List.fold_left (fun db f => snd (FeedToFetch.done f db)) [sample_fetch 10]
                            (sample_fetches 10))
            fresh_feed_store).
Proof.
  apply (feeds_without_subscribers_are_not_fetched [sample_fetch 10] (fun _ => true)
           looping_web (atom_feed 1) (fun _ => false) 5000 None no_subscriptions ∅
           (PullFeedHandler.mk_state (sample_fetches 10) fresh_feed_store)).
  intros f [<-|[]]. right. reflexivity.
Defined.

(** ** RecordFeedHandler *)

Lemma derive_echo (topic : unicode) (feeds : gmap string KnownFeed.t)
    (ids : gmap string KnownFeedIdentity.t) (feed : KnownFeed.t) :
  feeds !! KnownFeed.create_key topic = Some feed ->
  KnownFeed.topic feed = topic ->
  KnownFeed.feed_id feed = None ->
  KnownFeedIdentity.derive_additional_topics [topic] feeds ids !! topic = Some {[topic]}.
Proof.
  intros Hfeed Htopic Hid. unfold KnownFeedIdentity.derive_additional_topics.
  rewrite remove_dups_single. cbn [List.map]. rewrite Hfeed.
  unfold KnownFeedIdentity.split_known. cbn [List.fold_left]. rewrite Hid, Htopic.
  cbn [List.fold_left]. apply lookup_insert_eq.
Qed.

Lemma identify_all_finds
    (identify : string -> feed_format -> RecordFeedHandler.identified)
    (content : string) (feed_id : unicode) :
  finds_feed_id identify content feed_id ->
  exists parse_failures,
    RecordFeedHandler.identify_all [ATOM; RSS] identify content None 0
    = (Some feed_id, parse_failures)
    /\ (parse_failures < 2)%nat.
Proof.
  intros [Hatom|[[Hatom|Hatom] Hrss]]; cbn [RecordFeedHandler.identify_all];
    rewrite Hatom; [|rewrite Hrss..]; eexists; (split; [reflexivity|lia]).
Qed.

(** X26. [RecordFeedHandler.post] for a topic that has no [KnownFeed],
    when the fetch fails or is not answered 200, or when neither pass over
    the content (Atom, then RSS) finds a feed id that is not empty, be it
    that a pass returns none or that it raises, stores a [KnownFeed]
    without feed id and leaves the identities as they were; the topic then
    exists for [check_exists], and [derive_additional_topics] maps it to
    itself alone. *)
Theorem unidentified_topic_is_known_by_itself
    (topic : unicode) (seconds_since_update : Z) (response : fetch_result)
    (identify : string -> feed_format -> RecordFeedHandler.identified) (now : Z)
    (feeds : gmap string KnownFeed.t) (ids : gmap string KnownFeedIdentity.t) :
  feeds !! KnownFeed.create_key topic = None ->
  (response = FetchError
   \/ (exists status content, response = Response status content /\ status <> 200)
   \/ (exists content,
         response = Response 200 content /\ finds_no_feed_id identify content)) ->
  let r := RecordFeedHandler.post topic seconds_since_update response identify now
                                  feeds ids in
  fst r = <[KnownFeed.create_key topic := KnownFeed.create topic]> feeds
  /\ snd r = ids
  /\ KnownFeed.check_exists [topic] (fst r) = [topic]
  /\ KnownFeedIdentity.derive_additional_topics [topic] (fst r) ids !! topic
     = Some {[topic]}.
Proof.
  intros Hnew Hresp. cbv zeta.
  assert (Hpost : RecordFeedHandler.post topic seconds_since_update response identify now
                                         feeds ids
                  = (<[KnownFeed.create_key topic := KnownFeed.create topic]> feeds, ids)).
  { unfold RecordFeedHandler.post. rewrite Hnew. cbv beta iota zeta.
    destruct Hresp as [->|[(status & content & -> & Hstatus)
                          |(content & -> & Hnone)]].
    - reflexivity.
    - apply Z.eqb_neq in Hstatus. rewrite Hstatus. reflexivity.
    - change (200 =? 200)%Z with true. cbn [negb].
      destruct Hnone as [Hempty|[[Hatom|Hatom] [Hrss|Hrss]]].
      + destruct (identify_all_finds identify content [] Hempty) as (n & -> & _).
        reflexivity.
      + cbn [RecordFeedHandler.identify_all]. rewrite Hatom, Hrss. reflexivity.
      + cbn [RecordFeedHandler.identify_all]. rewrite Hatom, Hrss. reflexivity.
      + cbn [RecordFeedHandler.identify_all]. rewrite Hatom, Hrss. reflexivity.
      + cbn [RecordFeedHandler.identify_all]. rewrite Hatom, Hrss. reflexivity. }
  rewrite Hpost. cbn [fst snd]. split; [reflexivity|]. split; [reflexivity|].
  split.
  - unfold KnownFeed.check_exists. rewrite remove_dups_single. cbn [List.flat_map].
    rewrite lookup_insert_eq. reflexivity.
  - apply (derive_echo topic _ ids (KnownFeed.create topic));
      [apply lookup_insert_eq|reflexivity|reflexivity].
Qed.

Lemma unidentified_topic_is_known_by_itself_witness :
  KnownFeedIdentity.derive_additional_topics [sample_topic]
    (fst (RecordFeedHandler.post sample_topic 0 (Response 200 "<html></html>")
            (fun _ _ => RecordFeedHandler.IdentifyError) 5000 ∅ ∅)) ∅ !! sample_topic
  = Some {[sample_topic]}.
Proof.
  refine (proj2 (proj2 (proj2 (unidentified_topic_is_known_by_itself sample_topic 0
                                  (Response 200 "<html></html>")
                                  (fun _ _ => RecordFeedHandler.IdentifyError)
                                  5000 ∅ ∅ _ _)))).
  - apply lookup_empty.
  - right. right. exists "<html></html>". split; [reflexivity|].
    right. split; right; reflexivity.
Defined.

Lemma update_other_aliases (feed_id other topic : unicode) (now : Z)
    (ids : gmap string KnownFeedIdentity.t) :
  identities_keyed ids ->
  KnownFeedIdentity.create_key other <> KnownFeedIdentity.create_key feed_id ->
  aliases (snd (KnownFeedIdentity.update feed_id topic now ids)) other = aliases ids other.
Proof.
  intros Hkeyed Hne. unfold aliases, KnownFeedIdentity.update. cbn [snd].
  destruct (ids !! KnownFeedIdentity.create_key feed_id) as [kf|] eqn:Hkf; cbn.
  - rewrite (Hkeyed _ _ Hkf).
    rewrite lookup_insert_ne by (intros Heq; apply Hne; symmetry; exact Heq).
    reflexivity.
  - rewrite lookup_insert_ne; [reflexivity|].
    intros Heq; apply Hne; symmetry; exact Heq.
Qed.

Lemma remove_keyed (feed_id topic : unicode) (now : Z)
    (ids : gmap string KnownFeedIdentity.t) :
  identities_keyed ids ->
  identities_keyed (snd (KnownFeedIdentity.remove feed_id topic now ids)).
Proof.
  intros Hkeyed. unfold KnownFeedIdentity.remove.
  destruct (ids !! KnownFeedIdentity.create_key feed_id) as [kf|] eqn:Hkf; [|exact Hkeyed].
  destruct (py_remove topic (KnownFeedIdentity.topics kf)) as [[|t l]|]; cbn [snd];
    [| |exact Hkeyed].
  - intros k i Hk. apply lookup_delete_Some in Hk as [_ Hk]. apply (Hkeyed _ _ Hk).
  - intros k i Hk. destruct (decide (k = KnownFeedIdentity.key_name kf)) as [->|Hne].
    + rewrite lookup_insert_eq in Hk. injection Hk as <-. reflexivity.
    + rewrite lookup_insert_ne in Hk by (intros Heq; apply Hne; symmetry; exact Heq).
      apply (Hkeyed _ _ Hk).
Qed.

Lemma remove_drops_alias (feed_id topic : unicode) (now : Z)
    (ids : gmap string KnownFeedIdentity.t) :
  identities_keyed ids -> NoDup (aliases ids feed_id) ->
  topic ∉ aliases (snd (KnownFeedIdentity.remove feed_id topic now ids)) feed_id.
Proof.
  intros Hkeyed Hnd. unfold aliases in *. unfold KnownFeedIdentity.remove.
  destruct (ids !! KnownFeedIdentity.create_key feed_id) as [kf|] eqn:Hkf;
    [|cbn [snd]; rewrite Hkf; apply not_elem_of_nil].
  pose proof (Hkeyed _ _ Hkf) as Hname.
  destruct (decide (topic ∈ KnownFeedIdentity.topics kf)) as [Hin|Hnin].
  - destruct (py_remove_spec topic _ Hnd Hin) as (l' & -> & Hnot & _ & _).
    destruct l' as [|t l']; cbn [snd].
    + rewrite Hname, lookup_delete_eq. apply not_elem_of_nil.
    + cbn [KnownFeedIdentity.key_name]. rewrite Hname, lookup_insert_eq. exact Hnot.
  - assert (Hnone : py_remove topic (KnownFeedIdentity.topics kf) = None).
    { clear -Hnin. induction (KnownFeedIdentity.topics kf) as [|y l IH]; [reflexivity|].
      cbn. destruct (decide (y = topic)) as [->|Hne].
      - exfalso. apply Hnin. left.
      - rewrite IH; [reflexivity|]. intros H. apply Hnin. right. exact H. }
    rewrite Hnone. cbn [snd]. rewrite Hkf. exact Hnin.
Qed.

(** X27. [RecordFeedHandler.post] for a known topic last updated at
    least [FEED_IDENTITY_UPDATE_PERIOD] ago, when the fetch is answered 200
    and a feed id is found, by the Atom pass or, that one finding none or
    raising, by the RSS pass: the [KnownFeed] takes the feed id found, the
    topic is an alias of it, and the topic is no longer an alias of the
    feed id it had before when that is another one. *)
Theorem identified_topic_moves_to_its_feed_id
    (topic : unicode) (seconds_since_update : Z) (content : string)
    (identify : string -> feed_format -> RecordFeedHandler.identified) (now : Z)
    (feeds : gmap string KnownFeed.t) (ids : gmap string KnownFeedIdentity.t)
    (known_feed : KnownFeed.t) (c : N) (f : unicode) :
  let feed_id := c :: f in
  identities_keyed ids ->
  feeds !! KnownFeed.create_key topic = Some known_feed ->
  KnownFeed.key_name known_feed = KnownFeed.create_key topic ->
  FEED_IDENTITY_UPDATE_PERIOD <= seconds_since_update ->
  finds_feed_id identify content feed_id ->
  let r := RecordFeedHandler.post topic seconds_since_update (Response 200 content)
                                  identify now feeds ids in
  fst r !! KnownFeed.create_key topic
  = Some (KnownFeed.mk (KnownFeed.key_name known_feed) (KnownFeed.topic known_feed)
                       (Some feed_id))
  /\ (topic ∈ aliases (snd r) feed_id)
  /\ (forall c' f',
        KnownFeed.feed_id known_feed = Some (c' :: f') ->
        KnownFeedIdentity.create_key (c' :: f') <> KnownFeedIdentity.create_key feed_id ->
        NoDup (aliases ids (c' :: f')) ->
        topic ∉ aliases (snd r) (c' :: f')).
Proof.
  intros feed_id Hkeyed Hfeed Hname Hage Hid. cbv zeta.
  set (ids1 := match KnownFeed.feed_id known_feed with
               | Some (c' :: f') =>
                   if bool_decide (c' :: f' = feed_id) then ids
                   else snd (KnownFeedIdentity.remove (c' :: f') topic now ids)
               | _ => ids
               end).
  assert (Hpost :
    RecordFeedHandler.post topic seconds_since_update (Response 200 content)
                           identify now feeds ids
    = (<[KnownFeed.key_name known_feed :=
           KnownFeed.mk (KnownFeed.key_name known_feed) (KnownFeed.topic known_feed)
                        (Some feed_id)]> feeds,
       snd (KnownFeedIdentity.update feed_id topic now ids1))).
  { unfold RecordFeedHandler.post. rewrite Hfeed.
    assert (Hrecent : (seconds_since_update <? FEED_IDENTITY_UPDATE_PERIOD)%Z = false)
      by (apply Z.ltb_ge; exact Hage).
    rewrite Hrecent.
    assert (Hnot : match KnownFeed.feed_id known_feed with
                   | Some (_ :: _) => false
                   | _ => false
                   end = false)
      by (destruct (KnownFeed.feed_id known_feed) as [[|]|]; reflexivity).
    rewrite Hnot. cbv beta iota zeta.
    change (200 =? 200)%Z with true. cbn [negb].
    destruct (identify_all_finds identify content feed_id Hid) as (n & -> & Hn).
    unfold feed_id.
    destruct n as [|[|n]]; [reflexivity|reflexivity|lia]. }
  rewrite Hpost. cbn [fst snd]. split; [rewrite Hname; apply lookup_insert_eq|].
  assert (Hkeyed1 : identities_keyed ids1).
  { unfold ids1. destruct (KnownFeed.feed_id known_feed) as [[|c' f']|]; try exact Hkeyed.
    destruct (bool_decide _); [exact Hkeyed|apply remove_keyed, Hkeyed]. }
  split.
  - destruct (update_aliases feed_id topic now ids1 Hkeyed1) as (i & Hi & Htopics).
    unfold aliases at 1. rewrite Hi, Htopics.
    destruct (decide (topic ∈ aliases ids1 feed_id)) as [H|H]; [exact H|].
    apply elem_of_app. right. apply list_elem_of_singleton. reflexivity.
  - intros c' f' Hold Hne Hnd.
    rewrite (update_other_aliases feed_id (c' :: f') topic now ids1 Hkeyed1 Hne).
    unfold ids1. rewrite Hold.
    rewrite bool_decide_eq_false_2 by (intros Heq; apply Hne; rewrite Heq; reflexivity).
    apply remove_drops_alias; assumption.
Qed.

(** ** Publishing *)

Lemma split_known_none (n : nat) :
  KnownFeedIdentity.split_known (List.repeat None n) = (∅, []).
Proof.
  unfold KnownFeedIdentity.split_known.
  generalize ((∅, []) : gmap unicode (gset unicode) * list (unicode * unicode)).
  induction n as [|n IH]; intros acc; cbn; [reflexivity|].
  destruct acc as [od pairs]. apply IH.
Qed.

Lemma derive_none (topics : list unicode) (feeds : gmap string KnownFeed.t)
    (ids : gmap string KnownFeedIdentity.t) :
  (forall t, List.In t topics -> feeds !! KnownFeed.create_key t = None) ->
  KnownFeedIdentity.derive_additional_topics topics feeds ids = ∅.
Proof.
  intros Hnone. unfold KnownFeedIdentity.derive_additional_topics.
  assert (Hmap : List.map (fun t => feeds !! KnownFeed.create_key t) (remove_dups topics)
                 = List.repeat None (List.length (remove_dups topics))).
  { assert (H : forall t, List.In t (remove_dups topics) ->
                          feeds !! KnownFeed.create_key t = None).
    { intros t Ht. apply Hnone. apply list_elem_of_In.
      apply list_elem_of_In in Ht. rewrite elem_of_remove_dups in Ht. exact Ht. }
    induction (remove_dups topics) as [|t l IH]; [reflexivity|].
    cbn. rewrite H by (left; reflexivity). f_equal. apply IH.
    intros t' Ht'. apply H. right. exact Ht'. }
  rewrite Hmap, split_known_none. reflexivity.
Qed.

Lemma normalize_all_codes (urls : list unicode) :
  exists normalized,
    PublishHandlerBase.normalize_all urls = Some normalized
    /\ normalized = List.map escaped urls.
Proof.
  induction urls as [|url urls (normalized & IH & ->)]; [exists []; split; reflexivity|].
  cbn [PublishHandlerBase.normalize_all].
  destruct (normalize_text url) as (r & -> & Hcodes). rewrite IH.
  eexists. split; [reflexivity|]. cbn. rewrite Hcodes. reflexivity.
Qed.

Lemma find_first {A : Type} (f : A -> bool) (pre post : list A) (x : A) :
  (forall y, List.In y pre -> f y = false) -> f x = true ->
  List.find f (pre ++ x :: post) = Some x.
Proof.
  induction pre as [|y pre IH]; intros Hpre Hx; cbn.
  - rewrite Hx. reflexivity.
  - rewrite Hpre by (left; reflexivity). apply IH; [|exact Hx].
    intros z Hz. apply Hpre. right. exact Hz.
Qed.

Lemma find_none {A : Type} (f : A -> bool) (l : list A) :
  (forall y, List.In y l -> f y = false) -> List.find f l = None.
Proof.
  induction l as [|y l IH]; intros H; cbn; [reflexivity|].
  rewrite H by (left; reflexivity). apply IH. intros z Hz. apply H. right. exact Hz.
Qed.

(** X28. [receive_publish] answers 400, naming the parameter and the first
    invalid URL, and inserts nothing when some URL is invalid; when every
    URL is valid and none has a [KnownFeed] under its normalized form, it
    answers the success code and inserts nothing. *)
Theorem publish_for_unknown_feeds_is_dropped
    (urlparse : unicode -> url_parts) (server_software : option string)
    (urls : list unicode) (success_code : Z) (param_name : string)
    (env : environ) (next_index now : Z)
    (feeds : gmap string KnownFeed.t) (ids : gmap string KnownFeedIdentity.t)
    (db : FeedToFetch.store) :
  let r := PublishHandlerBase.receive_publish urlparse server_software urls success_code
             param_name env next_index now feeds ids db in
  (forall pre url post,
     urls = pre ++ url :: post ->
     (forall valid, List.In valid pre ->
                    is_valid_url urlparse server_software valid = true) ->
     is_valid_url urlparse server_software url = false ->
     r = Some ((400, u param_name ++ u " invalid: " ++ url), db, []))
  /\ ((forall url, List.In url urls ->
         is_valid_url urlparse server_software url = true
         /\ feeds !! KnownFeed.create_key (escaped url) = None) ->
      r = Some ((success_code, []), db, [])).
Proof.
  cbv zeta. unfold PublishHandlerBase.receive_publish. split.
  - intros pre url post -> Hpre Hurl.
    rewrite (find_first _ pre post url); [reflexivity| |rewrite Hurl; reflexivity].
    intros y Hy. rewrite (Hpre y Hy). reflexivity.
  - intros Hall. rewrite find_none.
    2:{ intros y Hy. destruct (Hall y Hy) as [-> _]. reflexivity. }
    destruct (normalize_all_codes urls) as (normalized & -> & ->).
    rewrite derive_none.
    2:{ intros t Ht. apply List.in_map_iff in Ht as (url & <- & Hurl).
        apply (Hall url Hurl). }
    rewrite map_to_list_empty. cbn [List.map union_list foldr]. rewrite elements_empty.
    reflexivity.
Qed.

Lemma derive_single_map (topic feed_id : unicode) (feeds : gmap string KnownFeed.t)
    (ids : gmap string KnownFeedIdentity.t) (feed : KnownFeed.t)
    (identified : KnownFeedIdentity.t) :
  feeds !! KnownFeed.create_key topic = Some feed ->
  KnownFeed.topic feed = topic ->
  KnownFeed.feed_id feed = Some feed_id ->
  strip feed_id <> [] ->
  ids !! KnownFeedIdentity.create_key feed_id = Some identified ->
  (List.length (KnownFeedIdentity.topics identified) <= 25)%nat ->
  KnownFeedIdentity.derive_additional_topics [topic] feeds ids
  = {[ topic := {[topic]} ∪ list_to_set (KnownFeedIdentity.topics identified) ]}.
Proof.
  intros Hfeed Htopic Hid Hstrip Hident Hfew.
  unfold KnownFeedIdentity.derive_additional_topics.
  rewrite remove_dups_single. cbn [List.map]. rewrite Hfeed.
  unfold KnownFeedIdentity.split_known. cbn [List.fold_left]. rewrite Hid, Htopic.
  destruct (strip feed_id) as [|c t] eqn:Hs; [contradiction|].
  cbn [List.fold_left app]. rewrite Hident, lookup_empty.
  replace (25 <? List.length (KnownFeedIdentity.topics identified))%nat with false
    by (symmetry; apply Nat.ltb_ge; exact Hfew).
  reflexivity.
Qed.

(** X29. A publish of one valid ASCII topic whose [KnownFeed] has a
    feed id under which a [KnownFeedIdentity] of at most 25 topics is
    stored answers the success code and puts on the fork-join queue, in
    one batch, a [FeedToFetch] for the topic and for every alias of that
    identity, each of them once. *)
Theorem publish_reaches_every_alias
    (urlparse : unicode -> url_parts) (server_software : option string)
    (topic feed_id : unicode) (success_code : Z) (param_name : string)
    (env : environ) (next_index now : Z)
    (feeds : gmap string KnownFeed.t) (ids : gmap string KnownFeedIdentity.t)
    (db : FeedToFetch.store) (feed : KnownFeed.t) (identified : KnownFeedIdentity.t) :
  is_valid_url urlparse server_software topic = true ->
  List.Forall (fun c => (c < 128)%N) topic ->
  feeds !! KnownFeed.create_key topic = Some feed ->
  KnownFeed.topic feed = topic ->
  KnownFeed.feed_id feed = Some feed_id ->
  strip feed_id <> [] ->
  ids !! KnownFeedIdentity.create_key feed_id = Some identified ->
  (List.length (KnownFeedIdentity.topics identified) <= 25)%nat ->
  exists feed_list queue_name,
    PublishHandlerBase.receive_publish urlparse server_software [topic] success_code
      param_name env next_index now feeds ids db
    = Some ((success_code, []), db,
            [FeedToFetch.SetQueueName queue_name; FeedToFetch.NextIndex;
             FeedToFetch.PutWork next_index feed_list; FeedToFetch.AddWork next_index])
    /\ NoDup (List.map FeedToFetch.topic feed_list)
    /\ (forall t, t ∈ List.map FeedToFetch.topic feed_list
                  <-> t = topic \/ t ∈ KnownFeedIdentity.topics identified).
Proof.
  intros Hvalid Hascii Hfeed Htopic Hid Hstrip Hident Hfew.
  set (s := ({[topic]} ∪ list_to_set (KnownFeedIdentity.topics identified)) ∪ ∅
            : gset unicode).
  assert (Hres :
    PublishHandlerBase.receive_publish urlparse server_software [topic] success_code
      param_name env next_index now feeds ids db
    = (let '(_, db0, calls) :=
         FeedToFetch.insert (elements s) [] true env next_index now db in
       Some ((success_code, []), db0, calls))).
  { unfold PublishHandlerBase.receive_publish. cbn [List.find]. rewrite Hvalid.
    cbn [negb PublishHandlerBase.normalize_all].
    destruct (normalize_text topic) as (r & -> & Hcodes). cbv beta iota.
    rewrite Hcodes, (escaped_fixes_ascii topic Hascii).
    pose proof (derive_single_map topic feed_id feeds ids feed identified
                  Hfeed Htopic Hid Hstrip Hident Hfew) as Hd.
    change (@cons (list N) topic (@nil unicode)) with (@cons unicode topic (@nil unicode)).
    rewrite Hd.
    rewrite map_to_list_singleton. reflexivity. }
  rewrite Hres. clear Hres.
  assert (Hs : forall t, t ∈ s <-> t = topic \/ t ∈ KnownFeedIdentity.topics identified).
  { intros t. unfold s. rewrite !elem_of_union, elem_of_singleton, elem_of_list_to_set.
    split; [intros [H|H]; [exact H|]|tauto]. apply elem_of_empty in H. destruct H. }
  unfold FeedToFetch.insert.
  destruct (elements s) as [|t0 l0] eqn:Hel.
  { exfalso. assert (H : topic ∈ elements s) by (apply elem_of_elements, Hs; auto).
    rewrite Hel in H. inversion H. }
  rewrite <- Hel. eexists _, _. split; [reflexivity|].
  rewrite List.map_map. cbn [FeedToFetch.topic]. rewrite List.map_id.
  split; [apply NoDup_remove_dups|].
  intros t. rewrite elem_of_remove_dups, elem_of_elements. apply Hs.
Qed.

(** ** is_valid_url *)

Lemma split_once_port (t : unicode) :
  exists before,
    List.firstn 2 (split_once 58 t ++ [[]]) = [before; after_colon t].
Proof.
  assert (H : (exists before, split_once 58 t = [before; after_colon t])
              \/ (split_once 58 t = [t] /\ after_colon t = [])).
  { induction t as [|c t IH]; [right; split; reflexivity|].
    cbn [split_once after_colon]. destruct (c =? 58)%N.
    - left. eexists. reflexivity.
    - destruct IH as [(before & ->)|[-> ->]].
      + left. eexists. reflexivity.
      + right. split; reflexivity. }
  destruct H as [(before & ->)|[-> ->]]; eexists; reflexivity.
Qed.

(** X30. [is_valid_url] accepts a URL exactly when its scheme is [http] or
    [https], it has no fragment, and the text after the first colon of its
    network location is empty or one of [VALID_PORTS], or the hub runs in
    the development environment. *)
Theorem is_valid_url_reads_the_port_after_the_first_colon
    (urlparse : unicode -> url_parts) (server_software : option string) (url : unicode) :
  let split := urlparse url in
  let port := after_colon (netloc split) in
  is_valid_url urlparse server_software url = true
  <-> (scheme split = u "http" \/ scheme split = u "https")
      /\ (port = [] \/ is_dev_env server_software = true \/ port ∈ VALID_PORTS)
      /\ fragment split = [].
Proof.
  cbv zeta. unfold is_valid_url.
  destruct (split_once_port (netloc (urlparse url))) as (before & ->).
  set (port := after_colon (netloc (urlparse url))).
  destruct (bool_decide (scheme (urlparse url) ∈ [u "http"; u "https"])) eqn:Hs.
  - apply bool_decide_eq_true in Hs.
    assert (Hscheme : scheme (urlparse url) = u "http" \/ scheme (urlparse url) = u "https").
    { apply elem_of_cons in Hs as [Hs|Hs]; [left; exact Hs|].
      apply elem_of_cons in Hs as [Hs|Hs]; [right; exact Hs|]. inversion Hs. }
    cbn [negb].
    destruct port as [|c p] eqn:Hport; cbn [andb].
    + destruct (fragment (urlparse url)); split; try tauto; try discriminate.
      intros (_ & _ & H). discriminate.
    + destruct (is_dev_env server_software); cbn [negb andb].
      * destruct (fragment (urlparse url)); split; try tauto; try discriminate.
        intros (_ & _ & H). discriminate.
      * destruct (bool_decide (c :: p ∈ VALID_PORTS)) eqn:Hp; cbn [negb].
        -- apply bool_decide_eq_true in Hp.
           destruct (fragment (urlparse url)); split; try tauto; try discriminate.
           intros (_ & _ & H). discriminate.
        -- apply bool_decide_eq_false in Hp. split; [discriminate|].
           intros (_ & [H|[H|H]] & _); [discriminate|discriminate|contradiction].
  - apply bool_decide_eq_false in Hs. cbn [negb]. split; [discriminate|].
    intros ([H|H] & _); exfalso; apply Hs; rewrite H.
    + apply elem_of_cons. left. reflexivity.
    + apply elem_of_cons. right. apply elem_of_cons. left. reflexivity.
Qed.

Example userinfo_is_read_as_a_port :
  is_valid_url (sample_urlparse "x.test:8080") None (u "http://x.test:8080/cb") = true
  /\ is_valid_url (sample_urlparse "x.test:81") None (u "http://x.test:81/cb") = false
  /\ is_valid_url (sample_urlparse "x.test:81") (Some "Development/1.0")
                  (u "http://x.test:81/cb") = true
  /\ is_valid_url (sample_urlparse "user:pw@x.test") None (u "http://user:pw@x.test/cb")
     = false
  /\ is_valid_url (sample_urlparse "[::1]:8080") None (u "http://[::1]:8080/cb") = false.
Proof. vm_compute. repeat split. Qed.

Lemma insert_hashed (callback topic verify_token : unicode) (secret : option unicode)
    (lease now : Z) (db : Subscription.store) :
  callbacks_hashed db ->
  callbacks_hashed (snd (Subscription.insert callback topic verify_token secret lease now db)).
Proof.
  intros Hdb k sub. unfold Subscription.insert, Subscription.get_by_key_name.
  destruct (Subscription.rows db !! Subscription.create_key_name callback topic)
    as [old|] eqn:Hold; cbn [snd Subscription.put Subscription.rows Subscription.key_name];
    (destruct (decide (k = Subscription.key_name old)) as [->|Hne] ||
     destruct (decide (k = Subscription.create_key_name callback topic)) as [->|Hne]).
  - rewrite lookup_insert_eq. intros [= <-]. cbn. apply (Hdb _ _ Hold).
  - rewrite lookup_insert_ne by congruence. apply Hdb.
  - rewrite lookup_insert_eq. intros [= <-]. reflexivity.
  - rewrite lookup_insert_ne by congruence. apply Hdb.
Qed.

Lemma crowd_hashed (n : nat) : callbacks_hashed (crowd n).
Proof.
  unfold crowd. apply (fold_left_invariant _ callbacks_hashed).
  - intros k sub Hk. cbn in Hk. rewrite lookup_empty in Hk. discriminate.
  - intros db i _ Hdb. apply insert_hashed, Hdb.
Qed.

Lemma paging_skips_no_subscriber_witness :
  fst (fst (EventToDeliver.get_next_subscribers (sample_event EventToDeliver.NORMAL 0 [])
              (Some 1%nat) (crowd 3))) = true
  /\ List.Forall
       (fun sub =>
          List.In sub
            (Subscription.query sample_topic
               (EventToDeliver.last_callback
                  (snd (EventToDeliver.get_next_subscribers
                          (sample_event EventToDeliver.NORMAL 0 []) (Some 1%nat) (crowd 3))))
               (crowd 3)))
       (List.skipn 1 (Subscription.query sample_topic [] (crowd 3))).
Proof.
  destruct (paging_skips_no_subscriber (sample_event EventToDeliver.NORMAL 0 []) 1 (crowd 3)
              eq_refl (crowd_hashed 3)) as (_ & Hmore & Hskip).
  assert (Htrue : fst (fst (EventToDeliver.get_next_subscribers
                              (sample_event EventToDeliver.NORMAL 0 []) (Some 1%nat)
                              (crowd 3))) = true).
  { rewrite Hmore. vm_compute. reflexivity. }
  split; [exact Htrue|].
  apply List.Forall_forall. intros sub Hsub. exact (Hskip Htrue sub Hsub).
Defined.

Lemma delivery_completes_in_one_round_witness :
  snd (snd (PushEventHandler.post (sample_event EventToDeliver.NORMAL 0 [])
              (fun _ => true) (fun _ => Some (Response 200 "")) 5000 None
              one_subscription no_events))
  = EventToDeliver.mk_store (base.delete 7%N (EventToDeliver.rows no_events))
                            (EventToDeliver.next_id no_events)
                            (EventToDeliver.tasks no_events).
Proof.
  refine (proj2 (delivery_completes_in_one_round (sample_event EventToDeliver.NORMAL 0 [])
                   (fun _ => true) (fun _ => Some (Response 200 "")) 5000 None
                   one_subscription no_events 7%N eq_refl eq_refl eq_refl _ _)).
  - apply Nat.leb_le. vm_compute. reflexivity.
  - intros r. reflexivity.
Defined.

Lemma unchanged_feed_makes_no_event_witness :
  fst (parse_feed fresh_record ∅ "body" true (atom_feed 2) (fun _ => false) 6000 None
                  fetched_once) = Return true
  /\ event_store (snd (parse_feed fresh_record ∅ "body" true (atom_feed 2)
                                  (fun _ => false) 6000 None fetched_once))
     = event_store fetched_once.
Proof.
  destruct (unchanged_feed_makes_no_event fresh_record ∅ "body" true (atom_feed 2)
              (fun _ => false) 6000 None fetched_once (u "<feed></feed>")
              (List.map sample_entry (List.seq 1 2)))
    as (Hret & _ & _ & Hevents).
  - reflexivity.
  - intros p [<-|[<-|[]]]; vm_compute; reflexivity.
  - apply (bool_decide_unpack _). vm_compute. exact I.
  - intros g. reflexivity.
  - split; [exact Hret|exact Hevents].
Defined.

Lemma unparsable_content_is_delivered_verbatim_witness :
  exists ev,
    EventToDeliver.rows
      (event_store (snd (parse_feed fresh_record ∅ "not a feed" true
                                    (fun _ _ => ParseError) (fun _ => false) 5000 None
                                    fresh_feed_store)))
      !! EventToDeliver.next_id (event_store fresh_feed_store) = Some ev
    /\ EventToDeliver.payload ev = "not a feed".
Proof.
  destruct (unparsable_content_is_delivered_verbatim fresh_record ∅ "not a feed" true
              (fun _ _ => ParseError) (fun _ => false) 5000 None fresh_feed_store
              eq_refl eq_refl (fun _ => eq_refl))
    as (_ & _ & _ & _ & ev & Hev & Hpayload & _).
  exists ev. split; [exact Hev|exact Hpayload].
Defined.

Lemma updates_are_aligned_witness :
  List.Forall2
    (fun e p =>
       FeedEntryRecord.entry_content_hash e = sha1_hash (Unicode p)
       /\ FeedEntryRecord.parent e = FeedRecord.create_key_name sample_topic)
    (List.map (entry_record sample_topic) (List.map sample_entry (List.seq 1 2)))
    (List.map snd (List.map sample_entry (List.seq 1 2))).
Proof.
  refine (proj1 (updates_are_aligned sample_topic ATOM "body" (atom_feed 2) ∅
                   (Unicode (u "<feed></feed>"))
                   (List.map (entry_record sample_topic)
                             (List.map sample_entry (List.seq 1 2)))
                   (List.map snd (List.map sample_entry (List.seq 1 2))) _)).
  vm_compute. reflexivity.
Defined.


Lemma request_remove_keeps_states_witness :
  Subscription.has_subscribers sample_topic
    (snd (Subscription.request_remove sample_callback sample_topic (u "tok")
            one_subscription))
  = Subscription.has_subscribers sample_topic one_subscription.
Proof.
  destruct (request_remove_keeps_states sample_callback sample_topic (u "tok")
              one_subscription one_subscription_keyed)
    as (_ & _ & _ & Hsame & _).
  exact (Hsame sample_topic).
Defined.

Lemma failed_user_request_is_never_archived_witness :
  Subscription.subscription_state <$>
    (Subscription.rows
       (SubscriptionConfirmHandler.post
          (Subscription.create_key_name sample_callback sample_topic)
          Subscription.STATE_VERIFIED (u "tok") [] "False" "challenge" FetchError 5000
          one_subscription)
     !! Subscription.create_key_name sample_callback sample_topic)
  = Subscription.subscription_state <$>
      (Subscription.rows one_subscription
       !! Subscription.create_key_name sample_callback sample_topic).
Proof.
  refine (proj1 (failed_user_request_is_never_archived
                   (Subscription.create_key_name sample_callback sample_topic)
                   Subscription.STATE_VERIFIED (u "tok") [] "False" "challenge" FetchError
                   5000 one_subscription stored_subscription one_subscription_keyed
                   _ _ _)
                (Subscription.create_key_name sample_callback sample_topic)).
  - vm_compute. reflexivity.
  - left. reflexivity.
  - reflexivity.
Defined.

Lemma failed_auto_renewal_is_archived_witness :
  exists archived,
    Subscription.rows
      (SubscriptionConfirmHandler.post
         (Subscription.create_key_name sample_callback sample_topic)
         Subscription.STATE_VERIFIED (u "tok") [] "True" "challenge" FetchError 5000
         failing_subscription)
      !! Subscription.create_key_name sample_callback sample_topic = Some archived
    /\ Subscription.subscription_state archived = Subscription.STATE_TO_DELETE
    /\ Subscription.confirm_failures archived = 0%nat.
Proof.
  refine (proj1 (failed_auto_renewal_is_archived
                   (Subscription.create_key_name sample_callback sample_topic)
                   (u "tok") [] "challenge" FetchError 5000 failing_subscription
                   (sample_subscription 4) _ _ _ _ _)).
  - apply put_keyed. exact no_subscriptions_keyed.
  - vm_compute. reflexivity.
  - reflexivity.
  - cbn. lia.
  - reflexivity.
Defined.

Lemma two_aliases_keyed : identities_keyed two_aliases.
Proof.
  unfold two_aliases. apply update_keyed, update_keyed.
  intros k i H. rewrite lookup_empty in H. discriminate.
Qed.

Lemma identified_topic_moves_to_its_feed_id_witness :
  (sample_topic ∈ aliases
     (snd (RecordFeedHandler.post sample_topic FEED_IDENTITY_UPDATE_PERIOD
             (Response 200 "body") identifies_anew 5000 one_known_feed two_aliases))
     (116%N :: u "ag:y.test,2026:new"))
  /\ (sample_topic ∉ aliases
        (snd (RecordFeedHandler.post sample_topic FEED_IDENTITY_UPDATE_PERIOD
                (Response 200 "body") identifies_anew 5000 one_known_feed two_aliases))
        (116%N :: u "ag:y.test,2026:feed")).
Proof.
  destruct (identified_topic_moves_to_its_feed_id sample_topic FEED_IDENTITY_UPDATE_PERIOD
              "body" identifies_anew 5000 one_known_feed two_aliases
              (KnownFeed.mk (KnownFeed.create_key sample_topic) sample_topic
                            (Some sample_feed_id))
              116%N (u "ag:y.test,2026:new")
              two_aliases_keyed (lookup_singleton_eq _ _) eq_refl (Z.le_refl _)
              (or_intror (conj (or_intror eq_refl) eq_refl)))
    as (_ & Hnew & Hold).
  split; [exact Hnew|].
  apply (Hold 116%N (u "ag:y.test,2026:feed") eq_refl).
  - intros Heq. vm_compute in Heq. discriminate Heq.
  - apply (bool_decide_unpack _). vm_compute. exact I.
Defined.

Lemma publish_reaches_every_alias_witness :
  exists feed_list queue_name,
    PublishHandlerBase.receive_publish (sample_urlparse "y.test") None [sample_topic] 204
      "hub.url" None 3 5000 one_known_feed two_aliases (FeedToFetch.mk_store ∅ [])
    = Some ((204, []), FeedToFetch.mk_store ∅ [],
            [FeedToFetch.SetQueueName queue_name; FeedToFetch.NextIndex;
             FeedToFetch.PutWork 3 feed_list; FeedToFetch.AddWork 3])
    /\ NoDup (List.map FeedToFetch.topic feed_list)
    /\ (forall t, t ∈ List.map FeedToFetch.topic feed_list
                  <-> t = sample_topic
                      \/ t ∈ KnownFeedIdentity.topics
                               (KnownFeedIdentity.mk
                                  (KnownFeedIdentity.create_key sample_feed_id)
                                  sample_feed_id [sample_topic; sample_alias] (Some 20))).
Proof.
  refine (publish_reaches_every_alias (sample_urlparse "y.test") None sample_topic
            sample_feed_id 204 "hub.url" None 3 5000 one_known_feed two_aliases
            (FeedToFetch.mk_store ∅ [])
            (KnownFeed.mk (KnownFeed.create_key sample_topic) sample_topic
                          (Some sample_feed_id))
            (KnownFeedIdentity.mk (KnownFeedIdentity.create_key sample_feed_id)
                                  sample_feed_id [sample_topic; sample_alias] (Some 20))
            _ _ _ _ _ _ _ _).
  - vm_compute. reflexivity.
  - vm_compute. repeat constructor.
  - apply lookup_singleton_eq.
  - reflexivity.
  - reflexivity.
  - vm_compute. discriminate.
  - vm_compute. reflexivity.
  - cbn. lia.
Defined.
